(** * libipt: decoder state, event queues and file-backed sections

    A shallow embedding of three source files of the Intel(R) Processor
    Trace decoder library:

    - [libipt/include/intel-pt.h]: opcode, payload and packet-size
      constants, the MODE.Exec bit encoding;
    - [libipt/src/pt_state.c]: decoder position, the per-binding event
      rings, [pt_advance];
    - [libipt/src/windows/pt_section_windows.c]: mapping a section of a
      file and reading from the mapped view.

    Conventions.  C integers are [Z] with the wrap-around of their width
    written out.  Pointers are addresses in a flat 64-bit address space,
    [NULL] is address 0.  A pointer argument that may be [NULL] is an
    [option]; a function that mutates the object it points to returns the
    new object next to its C return value.  Calls into the operating system
    read their outcome from an explicit environment record and are logged
    in a trace of calls. *)

From Stdlib Require Import ZArith Lia Bool List String.
From stdpp Require Import base list.

Local Open Scope Z_scope.

(* ================================================================== *)
(** * Part I: the model                                                *)
(* ================================================================== *)

(** ** Machine integers and pointers *)

Definition uint8 (z : Z) : Z := z mod 2 ^ 8.
Definition uint16 (z : Z) : Z := z mod 2 ^ 16.
Definition uint32 (z : Z) : Z := z mod 2 ^ 32.
Definition uint64 (z : Z) : Z := z mod 2 ^ 64.

(** An address. *)
Definition ptr : Type := Z.
Definition NULL : ptr := 0.

(** [p + n] on a byte pointer: the address wraps at the width of the
    address space. *)
Definition ptr_add (p : ptr) (n : Z) : ptr := uint64 (p + n).

(** ** intel-pt.h: opcodes *)

(** enum pt_opcode *)
Definition pt_opc_pad : Z := 0x00.
Definition pt_opc_ext : Z := 0x02.
Definition pt_opc_psb : Z := pt_opc_ext.
Definition pt_opc_tip : Z := 0x0d.
Definition pt_opc_tnt_8 : Z := 0x00.
Definition pt_opc_tip_pge : Z := 0x11.
Definition pt_opc_tip_pgd : Z := 0x01.
Definition pt_opc_fup : Z := 0x1d.
Definition pt_opc_mode : Z := 0x99.
Definition pt_opc_tsc : Z := 0x19.
Definition pt_opc_bad : Z := 0x59.

(** enum pt_ext_code *)
Definition pt_ext_psb : Z := 0x82.
Definition pt_ext_tnt_64 : Z := 0xa3.
Definition pt_ext_pip : Z := 0x43.
Definition pt_ext_ovf : Z := 0xf3.
Definition pt_ext_psbend : Z := 0x23.
Definition pt_ext_cbr : Z := 0x03.
Definition pt_ext_bad : Z := 0x04.

(** enum pt_opcode_size *)
Definition pt_opcs_pad : Z := 1.
Definition pt_opcs_tip : Z := 1.
Definition pt_opcs_tip_pge : Z := 1.
Definition pt_opcs_tip_pgd : Z := 1.
Definition pt_opcs_fup : Z := 1.
Definition pt_opcs_tnt_8 : Z := 1.
Definition pt_opcs_mode : Z := 1.
Definition pt_opcs_tsc : Z := 1.
Definition pt_opcs_psb : Z := 2.
Definition pt_opcs_psbend : Z := 2.
Definition pt_opcs_ovf : Z := 2.
Definition pt_opcs_pip : Z := 2.
Definition pt_opcs_tnt_64 : Z := 2.
Definition pt_opcs_cbr : Z := 2.

(** enum pt_psb_pattern: the psb magic payload, a repeating 2-byte
    pattern. *)
Definition pt_psb_hi : Z := pt_opc_psb.
Definition pt_psb_lo : Z := pt_ext_psb.
Definition pt_psb_lohi : Z := Z.lor pt_psb_lo (Z.shiftl pt_psb_hi 8).
Definition pt_psb_hilo : Z := Z.lor pt_psb_hi (Z.shiftl pt_psb_lo 8).
(** The repeat count of the payload, not including opc and ext. *)
Definition pt_psb_repeat_count : Z := 7.
(** The size of the repeated pattern in bytes. *)
Definition pt_psb_repeat_size : Z := 2.

(** enum pt_payload (the sizes this development uses) *)
Definition pt_pl_pip_size : Z := 6.
Definition pt_pl_tnt_64_size : Z := 6.
Definition pt_pl_tsc_size : Z := 7.
Definition pt_pl_cbr_size : Z := 2.
Definition pt_pl_psb_size : Z := pt_psb_repeat_count * pt_psb_repeat_size.
Definition pt_pl_mode_size : Z := 1.

(** enum pt_packet_size (the sizes this development uses) *)
Definition ptps_pad : Z := pt_opcs_pad.
Definition ptps_tnt_8 : Z := pt_opcs_tnt_8.
Definition ptps_mode : Z := pt_opcs_mode + pt_pl_mode_size.
Definition ptps_tsc : Z := pt_opcs_tsc + pt_pl_tsc_size.
Definition ptps_psb : Z := pt_opcs_psb + pt_pl_psb_size.
Definition ptps_psbend : Z := pt_opcs_psbend.
Definition ptps_ovf : Z := pt_opcs_ovf.
Definition ptps_pip : Z := pt_opcs_pip + pt_pl_pip_size.
Definition ptps_tnt_64 : Z := pt_opcs_tnt_64 + pt_pl_tnt_64_size.
Definition ptps_cbr : Z := pt_opcs_cbr + pt_pl_cbr_size.

(** The bytes of a PSB packet as the header lays them out: the two opcode
    bytes ([pt_opc_psb], [pt_ext_psb]) followed by the payload, which is
    the pattern [pt_psb_hi], [pt_psb_lo] repeated [pt_psb_repeat_count]
    times. *)
Definition psb_pattern : list Z := [pt_psb_hi; pt_psb_lo].

Definition psb_payload : list Z :=
  concat (repeat psb_pattern (Z.to_nat pt_psb_repeat_count)).

Definition psb_packet : list Z := [pt_opc_psb; pt_ext_psb] ++ psb_payload.

(** ** intel-pt.h: error codes *)

(** enum pt_error_code *)
Definition pte_ok : Z := 0.
Definition pte_internal : Z := 1.
Definition pte_invalid : Z := 2.
Definition pte_nosync : Z := 3.
Definition pte_bad_opc : Z := 4.
Definition pte_bad_packet : Z := 5.
Definition pte_bad_context : Z := 6.
Definition pte_eos : Z := 7.
Definition pte_bad_query : Z := 8.
Definition pte_nomem : Z := 9.
Definition pte_bad_config : Z := 10.
Definition pte_noip : Z := 11.
Definition pte_ip_suppressed : Z := 12.
Definition pte_nomap : Z := 13.
Definition pte_bad_insn : Z := 14.
Definition pte_no_time : Z := 15.
Definition pte_no_cbr : Z := 16.
Definition pte_bad_image : Z := 17.
Definition pte_bad_lock : Z := 18.
Definition pte_not_supported : Z := 19.

(** ** intel-pt.h: execution modes and the MODE.Exec packet *)

Inductive pt_exec_mode : Type :=
  | ptem_unknown
  | ptem_16bit
  | ptem_32bit
  | ptem_64bit.

(** struct pt_packet_mode_exec: two one-bit fields. *)
Record pt_packet_mode_exec : Type := {
  csl : bool;
  csd : bool
}.

Definition pt_get_exec_mode (packet : pt_packet_mode_exec) : pt_exec_mode :=
  if csl packet
  then (if csd packet then ptem_unknown else ptem_64bit)
  else (if csd packet then ptem_32bit else ptem_16bit).

Definition pt_set_exec_mode (mode : pt_exec_mode) : pt_packet_mode_exec :=
  match mode with
  | ptem_64bit => {| csl := true; csd := false |}
  | ptem_32bit => {| csl := false; csd := true |}
  | ptem_16bit => {| csl := false; csd := false |}
  | _ => {| csl := true; csd := true |}
  end.

(** ** intel-pt.h: events *)

Inductive pt_event_type : Type :=
  | ptev_enabled
  | ptev_disabled
  | ptev_async_disabled
  | ptev_async_branch
  | ptev_paging
  | ptev_async_paging
  | ptev_overflow
  | ptev_exec_mode
  | ptev_tsx.

#[global] Instance pt_event_type_eq_dec : EqDecision pt_event_type.
Proof. solve_decision. Defined.

(** struct pt_event.  The [variant] union is at most two 64-bit words
    wide; it is kept as the two raw words. *)
Record pt_event : Type := {
  ev_type : pt_event_type;
  ev_ip_suppressed : bool;
  ev_status_update : bool;
  ev_has_tsc : bool;
  ev_tsc : Z;
  ev_reserved : Z * Z * Z;
  ev_variant : Z * Z
}.

(** The object a [memset] of an event to zero leaves behind. *)
Definition pt_event_zero : pt_event := {|
  ev_type := ptev_enabled;
  ev_ip_suppressed := false;
  ev_status_update := false;
  ev_has_tsc := false;
  ev_tsc := 0;
  ev_reserved := (0, 0, 0);
  ev_variant := (0, 0)
|}.

#[global] Instance pt_event_inhabited : Inhabited pt_event :=
  populate pt_event_zero.

(** ** pt_state.c: the decoder *)

(** The fields of struct pt_config the decoder state reads. *)
Record pt_config : Type := {
  cfg_begin : ptr;
  cfg_end : ptr
}.

(** The fields of struct pt_decoder that pt_state.c reads and writes in
    the functions below: the trace buffer, the current position and the
    last synchronization point, and per binding a ring of pending
    events with its begin and end index (both uint8_t). *)
Record pt_decoder : Type := {
  config : pt_config;
  pos : ptr;
  sync : ptr;
  ev_pend : list (list pt_event);
  ev_begin : list Z;
  ev_end : list Z
}.

Definition set_pos (d : pt_decoder) (p : ptr) : pt_decoder :=
  {| config := config d; pos := p; sync := sync d;
     ev_pend := ev_pend d; ev_begin := ev_begin d; ev_end := ev_end d |}.

Definition set_ev_begin (d : pt_decoder) (evb : nat) (v : Z) : pt_decoder :=
  {| config := config d; pos := pos d; sync := sync d;
     ev_pend := ev_pend d;
     ev_begin := <[evb := v]> (ev_begin d); ev_end := ev_end d |}.

Definition set_ev_end (d : pt_decoder) (evb : nat) (v : Z) : pt_decoder :=
  {| config := config d; pos := pos d; sync := sync d;
     ev_pend := ev_pend d;
     ev_begin := ev_begin d; ev_end := <[evb := v]> (ev_end d) |}.

(** A pointer into [ev_pend]: [&decoder->ev_pend[evb][idx]]. *)
Definition ev_ptr : Type := (nat * Z)%type.

(** Reading the event such a pointer points to. *)
Definition ev_load (d : pt_decoder) (p : ev_ptr) : pt_event :=
  (ev_pend d !!! fst p) !!! Z.to_nat (snd p).

(** Writing an event through such a pointer. *)
Definition ev_store (d : pt_decoder) (p : ev_ptr) (e : pt_event) : pt_decoder :=
  {| config := config d; pos := pos d; sync := sync d;
     ev_pend := alter (fun row => <[Z.to_nat (snd p) := e]> row) (fst p) (ev_pend d);
     ev_begin := ev_begin d; ev_end := ev_end d |}.

(** Modelled from the spec: [pt_begin] and [pt_end] are inline helpers of
    pt_state.h, which is not among the sources; they return the decoder
    position's [buffer_begin] and [buffer_end], the two ends of the
    configured trace buffer. *)
Definition pt_begin (d : pt_decoder) : ptr := cfg_begin (config d).
Definition pt_end (d : pt_decoder) : ptr := cfg_end (config d).

Definition pt_get_decoder_pos (decoder : option pt_decoder) : Z :=
  match decoder with
  | None => 0
  | Some d =>
      let raw := pos d in
      if raw =? NULL then 0
      else
        let begin := pt_begin d in
        if begin =? NULL then 0
        else uint64 (raw - begin)
  end.

Definition pt_get_decoder_sync (decoder : option pt_decoder) : Z :=
  match decoder with
  | None => 0
  | Some d =>
      let sync := sync d in
      if sync =? NULL then 0
      else
        let begin := pt_begin d in
        if begin =? NULL then 0
        else uint64 (sync - begin)
  end.

Definition pt_advance (decoder : option pt_decoder) (size : Z)
  : Z * option pt_decoder :=
  match decoder with
  | None => (- pte_invalid, None)
  | Some d =>
      let pos' := ptr_add (pos d) size in
      if pos' <? cfg_begin (config d) then (- pte_eos, Some d)
      else if cfg_end (config d) <? pos' then (- pte_eos, Some d)
      else (0, Some (set_pos d pos'))
  end.

(** ** pt_state.c: the event rings *)

Section EventQueue.

(** enum pt_event_binding ends in [evb_max], the number of bindings,
    and [evb_max_pend] is the number of slots of each ring.  Both are
    declared in pt_state.h, which is not among the sources, so the
    functions take them as parameters. *)
Variable evb_max : nat.
Variable evb_max_pend : Z.

Definition pt_queue_inc (idx : Z) : Z :=
  let idx := uint8 (idx + 1) in
  uint8 (idx mod evb_max_pend).

Definition pt_enqueue_event (decoder : option pt_decoder) (evb : nat)
  : option ev_ptr * option pt_decoder :=
  match decoder with
  | None => (None, None)
  | Some d =>
      if (evb_max <=? evb)%nat then (None, Some d)
      else
        let begin := ev_begin d !!! evb in
        let end_ := ev_end d !!! evb in
        if evb_max_pend <=? begin then (None, Some d)
        else if evb_max_pend <=? end_ then (None, Some d)
        else
          let ev := (evb, end_) in
          let end_ := pt_queue_inc end_ in
          let gap := pt_queue_inc end_ in
          (* Leave a gap so we don't overwrite the last dequeued event. *)
          if begin =? gap then (None, Some d)
          else
            let d := set_ev_end d evb end_ in
            let d := ev_store d ev pt_event_zero in
            (Some ev, Some d)
  end.

Definition pt_dequeue_event (decoder : option pt_decoder) (evb : nat)
  : option ev_ptr * option pt_decoder :=
  match decoder with
  | None => (None, None)
  | Some d =>
      if (evb_max <=? evb)%nat then (None, Some d)
      else
        let begin := ev_begin d !!! evb in
        let end_ := ev_end d !!! evb in
        if evb_max_pend <=? begin then (None, Some d)
        else if evb_max_pend <=? end_ then (None, Some d)
        else if begin =? end_ then (None, Some d)
        else
          let ev := (evb, begin) in
          (Some ev, Some (set_ev_begin d evb (pt_queue_inc begin)))
  end.

Definition pt_discard_events (decoder : option pt_decoder) (evb : nat)
  : option pt_decoder :=
  match decoder with
  | None => None
  | Some d =>
      if (evb_max <=? evb)%nat then Some d
      else Some (set_ev_end (set_ev_begin d evb 0) evb 0)
  end.

Definition pt_event_pending (decoder : option pt_decoder) (evb : nat) : Z :=
  match decoder with
  | None => - pte_internal
  | Some d =>
      if (evb_max <=? evb)%nat then - pte_internal
      else
        let begin := ev_begin d !!! evb in
        let end_ := ev_end d !!! evb in
        if evb_max_pend <=? begin then - pte_internal
        else if evb_max_pend <=? end_ then - pte_internal
        else if begin =? end_ then 0 else 1
  end.

(** The loop of [pt_find_event]: from [begin] on, the index of the
    first slot before [end_] that holds an event of the given type.
    The loop visits every slot at most once; [fuel] bounds its
    iterations. *)
Fixpoint pt_find_event_loop (fuel : nat) (row : list pt_event)
    (type : pt_event_type) (begin end_ : Z) : option Z :=
  match fuel with
  | O => None
  | S fuel =>
      if begin =? end_ then None
      else if bool_decide (ev_type (row !!! Z.to_nat begin) = type)
      then Some begin
      else pt_find_event_loop fuel row type (pt_queue_inc begin) end_
  end.

Definition pt_find_event (decoder : option pt_decoder)
    (type : pt_event_type) (evb : nat) : option ev_ptr :=
  match decoder with
  | None => None
  | Some d =>
      if (evb_max <=? evb)%nat then None
      else
        let begin := ev_begin d !!! evb in
        let end_ := ev_end d !!! evb in
        if evb_max_pend <=? begin then None
        else if evb_max_pend <=? end_ then None
        else
          match pt_find_event_loop (Z.to_nat evb_max_pend)
                  (ev_pend d !!! evb) type begin end_ with
          | Some idx => Some (evb, idx)
          | None => None
          end
  end.

End EventQueue.

(** ** Users of the rings *)

Section QueueClients.

Variable evb_max : nat.
Variable evb_max_pend : Z.

(** The number of events a ring holds, and the events themselves: the
    slots from the one at the begin index up to the one before the end
    index, in the order [pt_queue_inc] visits them. *)
Definition ring_count (b e : Z) : Z := (e - b) mod evb_max_pend.

Definition ring_events (row : list pt_event) (b e : Z) : list pt_event :=
  map (fun k => row !!! Z.to_nat ((b + Z.of_nat k) mod evb_max_pend))
      (seq 0 (Z.to_nat (ring_count b e))).

Definition queue_count (d : pt_decoder) (evb : nat) : Z :=
  ring_count (ev_begin d !!! evb) (ev_end d !!! evb).

Definition queue_events (d : pt_decoder) (evb : nat) : list pt_event :=
  ring_events (ev_pend d !!! evb) (ev_begin d !!! evb) (ev_end d !!! evb).

(** What the callers of [pt_enqueue_event] do: take the slot and, when
    there is one, fill it in. *)
Definition enqueue_filled (decoder : option pt_decoder) (evb : nat)
    (e : pt_event) : option ev_ptr * option pt_decoder :=
  match pt_enqueue_event evb_max evb_max_pend decoder evb with
  | (Some ev, Some d) => (Some ev, Some (ev_store d ev e))
  | r => r
  end.

(** What the callers of [pt_dequeue_event] do: read the event the
    returned pointer points to. *)
Definition dequeue_read (decoder : option pt_decoder) (evb : nat)
  : option pt_event * option pt_decoder :=
  match pt_dequeue_event evb_max evb_max_pend decoder evb with
  | (Some ev, Some d) => (Some (ev_load d ev), Some d)
  | (_, decoder') => (None, decoder')
  end.

(** A sequence of calls on the rings of one decoder. *)
Inductive queue_op : Type :=
  | op_enqueue (evb : nat) (e : pt_event)
  | op_dequeue (evb : nat).

(** Running a sequence of calls: the result of every dequeue in order,
    or [None] as soon as an enqueue returns NULL. *)
Fixpoint queue_run (decoder : option pt_decoder) (ops : list queue_op)
  : option (list (option pt_event)) :=
  match ops with
  | [] => Some []
  | op_enqueue evb e :: ops =>
      match enqueue_filled decoder evb e with
      | (Some _, decoder') => queue_run decoder' ops
      | (None, _) => None
      end
  | op_dequeue evb :: ops =>
      let '(r, decoder') := dequeue_read decoder evb in
      match queue_run decoder' ops with
      | Some rs => Some (r :: rs)
      | None => None
      end
  end.

(** The reference the rings are compared with: one unbounded
    first-in-first-out list per binding. *)
Definition fifo : Type := nat -> list pt_event.

Definition fifo_set (q : fifo) (evb : nat) (l : list pt_event) : fifo :=
  fun b => if Nat.eqb b evb then l else q b.

Fixpoint fifo_run (q : fifo) (ops : list queue_op)
  : list (option pt_event) :=
  match ops with
  | [] => []
  | op_enqueue evb e :: ops => fifo_run (fifo_set q evb (q evb ++ [e])) ops
  | op_dequeue evb :: ops =>
      match q evb with
      | [] => None :: fifo_run q ops
      | e :: l => Some e :: fifo_run (fifo_set q evb l) ops
      end
  end.

(** No enqueue of the sequence is to a binding out of range or finds
    [cap] events already waiting. *)
Fixpoint fifo_fits (cap : nat) (q : fifo) (ops : list queue_op) : bool :=
  match ops with
  | [] => true
  | op_enqueue evb e :: ops =>
      (evb <? evb_max)%nat && (length (q evb) <? cap)%nat
      && fifo_fits cap (fifo_set q evb (q evb ++ [e])) ops
  | op_dequeue evb :: ops =>
      match q evb with
      | [] => fifo_fits cap q ops
      | e :: l => fifo_fits cap (fifo_set q evb l) ops
      end
  end.

(** The shape of struct pt_decoder: the three arrays have one entry
    per binding, every ring has [evb_max_pend] slots, and the two
    indices of a ring are in range. *)
Definition queue_wf (d : pt_decoder) (evb : nat) : Prop :=
  Z.of_nat (length (ev_pend d !!! evb)) = evb_max_pend
  /\ 0 <= ev_begin d !!! evb < evb_max_pend
  /\ 0 <= ev_end d !!! evb < evb_max_pend.

Definition decoder_wf (d : pt_decoder) : Prop :=
  length (ev_pend d) = evb_max
  /\ length (ev_begin d) = evb_max
  /\ length (ev_end d) = evb_max
  /\ forall evb, (evb < evb_max)%nat -> queue_wf d evb.

(** A decoder as [calloc] and the functions above leave it: in
    addition, no ring holds more than [evb_max_pend - 2] events. *)
Definition decoder_ok (d : pt_decoder) : Prop :=
  decoder_wf d
  /\ forall evb, (evb < evb_max)%nat ->
                 queue_count d evb <= evb_max_pend - 2.

(** The zero-filled decoder [pt_alloc_decoder] allocates. *)
Definition decoder_init (cfg : pt_config) : pt_decoder :=
  {| config := cfg; pos := NULL; sync := NULL;
     ev_pend := replicate evb_max
                  (replicate (Z.to_nat evb_max_pend) pt_event_zero);
     ev_begin := replicate evb_max 0;
     ev_end := replicate evb_max 0 |}.


(** [n] calls of [pt_enqueue_event] in a row on one binding. *)
Fixpoint enqueue_n (decoder : option pt_decoder) (evb : nat) (n : nat)
  : option pt_decoder :=
  match n with
  | O => decoder
  | S n =>
      snd (pt_enqueue_event evb_max evb_max_pend
             (enqueue_n decoder evb n) evb)
  end.

End QueueClients.

(** A decoder to evaluate the functions on: three bindings with rings of
    eight slots, over a trace buffer of 4096 bytes. *)
Definition example_config : pt_config :=
  {| cfg_begin := 0x1000; cfg_end := 0x2000 |}.

Definition example_decoder : pt_decoder := decoder_init 3 8 example_config.

(** The same decoder with position and synchronization point at the
    address [p]. *)
Definition example_decoder_at (p : ptr) : pt_decoder :=
  {| config := example_config; pos := p; sync := p;
     ev_pend := ev_pend example_decoder;
     ev_begin := ev_begin example_decoder;
     ev_end := ev_end example_decoder |}.

(** The same decoder with six events waiting for the first binding. *)
Definition example_decoder_six : pt_decoder :=
  {| config := example_config; pos := NULL; sync := NULL;
     ev_pend := ev_pend example_decoder;
     ev_begin := [0; 0; 0];
     ev_end := [6; 0; 0] |}.

Definition example_event (ip : Z) : pt_event := {|
  ev_type := ptev_overflow;
  ev_ip_suppressed := false;
  ev_status_update := false;
  ev_has_tsc := false;
  ev_tsc := 0;
  ev_reserved := (0, 0, 0);
  ev_variant := (ip, 0)
|}.

(** ** pt_section_windows.c: sections of a file *)

(** struct _stat. *)
Record win_stat : Type := {
  st_dev : Z;
  st_ino : Z;
  st_mode : Z;
  st_nlink : Z;
  st_uid : Z;
  st_gid : Z;
  st_rdev : Z;
  st_size : Z;
  st_atime : Z;
  st_mtime : Z;
  st_ctime : Z
}.

(** struct pt_sec_windows_status: the file status recorded when the
    section was created. *)
Record pt_sec_windows_status : Type := {
  status_stat : win_stat
}.

(** struct pt_sec_windows_mapping, with the fields [pt_sec_windows_map]
    fills in. *)
Record pt_sec_windows_mapping : Type := {
  map_fd : Z;
  map_mh : Z;
  map_base : ptr;
  map_begin : ptr;
  map_end : ptr
}.

(** The functions a section's [unmap] and [read] pointers can point
    to. *)
Inductive pt_sec_unmap_fn : Type :=
  | fn_pt_sec_windows_unmap
  | fn_pt_sec_file_unmap.

Inductive pt_sec_read_fn : Type :=
  | fn_pt_sec_windows_read
  | fn_pt_sec_file_read.

(** The fields of struct pt_section this file reads and writes; the
    fields carry a prefix, [sec_mcount] is the uint16_t map count. *)
Record pt_section : Type := {
  sec_filename : option string;
  sec_offset : Z;
  sec_size : Z;
  sec_status : option pt_sec_windows_status;
  sec_mapping : option pt_sec_windows_mapping;
  sec_unmap : option pt_sec_unmap_fn;
  sec_read : option pt_sec_read_fn;
  sec_mcount : Z
}.

Definition set_mcount (s : pt_section) (mcount : Z) : pt_section :=
  {| sec_filename := sec_filename s; sec_offset := sec_offset s;
     sec_size := sec_size s; sec_status := sec_status s;
     sec_mapping := sec_mapping s; sec_unmap := sec_unmap s;
     sec_read := sec_read s; sec_mcount := mcount |}.

Definition set_mapping (s : pt_section)
    (mapping : option pt_sec_windows_mapping)
    (unmap : option pt_sec_unmap_fn) (read : option pt_sec_read_fn)
  : pt_section :=
  {| sec_filename := sec_filename s; sec_offset := sec_offset s;
     sec_size := sec_size s; sec_status := sec_status s;
     sec_mapping := mapping; sec_unmap := unmap;
     sec_read := read; sec_mcount := sec_mcount s |}.

Definition INVALID_HANDLE_VALUE : Z := -1.
Definition FILE_SHARE_READ : Z := 1.
Definition FILE_SHARE_WRITE : Z := 2.

(** The calls this file makes into the C library, the Windows API and
    the rest of the library. *)
Inductive os_call : Type :=
  | call_section_lock
  | call_section_unlock
  | call_open (filename : string)
  | call_fstat (fd : Z)
  | call_close (fd : Z)
  | call_malloc
  | call_free
  | call_get_system_info
  | call_create_file (filename : string) (share : Z)
  | call_open_osfhandle (fh : Z)
  | call_get_osfhandle (fd : Z)
  | call_create_file_mapping (fh : Z)
  | call_map_view_of_file (mh : Z) (offset_high offset_low dsize : Z)
  | call_unmap_view_of_file (base : ptr)
  | call_close_handle (h : Z)
  | call_fdopen (fd : Z)
  | call_sec_file_map (file : ptr)
  | call_fclose (file : ptr).

(** What those calls answer during one call of a function of this file.
    [pt_section_lock], [pt_section_unlock] and [pt_sec_file_map] belong
    to the library but not to the sources at hand; like the system calls
    they are known by their results only. *)
Record os_env : Type := {
  (** pt_section_lock and pt_section_unlock: 0 or a negative error *)
  os_lock : Z;
  os_unlock : Z;
  (** _open: a file descriptor or -1 *)
  os_open : Z;
  (** _fstat: the status it stores, or [None] when it fails *)
  os_fstat : option win_stat;
  (** malloc: whether it returns memory *)
  os_malloc : bool;
  (** GetSystemInfo: dwAllocationGranularity *)
  os_granularity : Z;
  (** CreateFile with FILE_SHARE_READ, then with FILE_SHARE_WRITE: a
      handle or INVALID_HANDLE_VALUE *)
  os_create_file_read : Z;
  os_create_file_write : Z;
  (** _open_osfhandle: a file descriptor or -1 *)
  os_open_osfhandle : Z;
  (** _get_osfhandle *)
  os_get_osfhandle : Z;
  (** CreateFileMapping: a handle or NULL *)
  os_create_file_mapping : Z;
  (** MapViewOfFile: the base address of the view or NULL *)
  os_map_view_of_file : ptr;
  (** _fdopen: a stream or NULL *)
  os_fdopen : ptr;
  (** pt_sec_file_map: its return value and the section it leaves *)
  os_sec_file_map : pt_section -> ptr -> Z * pt_section
}.

(** Returns the negative error code, or the status stored through
    [stat] when the C function returns 0.  [stat] tells whether the
    pointer is non-NULL. *)
Definition pt_sec_windows_fstat (env : os_env) (filename : option string)
    (stat : bool) : (Z + win_stat) * list os_call :=
  match filename, stat with
  | Some name, true =>
      let fd := os_open env in
      if fd =? -1 then (inl (- pte_bad_image), [call_open name])
      else
        match os_fstat env with
        | None =>
            (inl (- pte_bad_image),
             [call_open name; call_fstat fd; call_close fd])
        | Some st =>
            (inr st, [call_open name; call_fstat fd; call_close fd])
        end
  | _, _ => (inl (- pte_internal), [])
  end.

(** [pstatus] and [psize] tell whether the two out-pointers are
    non-NULL; what is stored through them is returned next to the error
    code. *)
Definition pt_section_mk_status (env : os_env) (pstatus psize : bool)
    (filename : option string)
  : Z * option pt_sec_windows_status * option Z * list os_call :=
  if negb pstatus || negb psize then (- pte_internal, None, None, [])
  else
    match pt_sec_windows_fstat env filename true with
    | (inl errcode, tr) => (errcode, None, None, tr)
    | (inr stat, tr) =>
        if st_size stat <? 0 then (- pte_bad_image, None, None, tr)
        else if negb (os_malloc env)
        then (- pte_nomem, None, None, tr ++ [call_malloc])
        else
          let status := {| status_stat := stat |} in
          (0, Some status, Some (uint64 (st_size stat)), tr ++ [call_malloc])
    end.

Definition check_file_status (env : os_env) (section : option pt_section)
    (fd : Z) : Z * list os_call :=
  match section with
  | None => (- pte_internal, [])
  | Some s =>
      match os_fstat env with
      | None => (- pte_bad_image, [call_fstat fd])
      | Some stat =>
          match sec_status s with
          | None => (- pte_internal, [call_fstat fd])
          | Some status =>
              if negb (st_size stat =? st_size (status_stat status))
              then (- pte_bad_image, [call_fstat fd])
              else if negb (st_mtime stat =? st_mtime (status_stat status))
              then (- pte_bad_image, [call_fstat fd])
              else (0, [call_fstat fd])
          end
      end
  end.

Definition granularity (env : os_env) : Z * list os_call :=
  (os_granularity env, [call_get_system_info]).

Definition pt_sec_windows_map (env : os_env) (section : option pt_section)
    (fd : Z) : Z * option pt_section * list os_call :=
  match section with
  | None => (- pte_internal, None, [])
  | Some s =>
      let offset := sec_offset s in
      let size := sec_size s in
      let '(gran, tr) := granularity env in
      let adjustment := offset mod gran in
      let offset := uint64 (offset - adjustment) in
      let size := uint64 (size + adjustment) in
      (* The section is supposed to fit into the file so we shouldn't
         see any overflows, here. *)
      if size <? sec_size s then (- pte_internal, Some s, tr)
      else
        let dsize := uint32 size in
        if negb (dsize =? size) then (- pte_internal, Some s, tr)
        else
          let fh := os_get_osfhandle env in
          let mh := os_create_file_mapping env in
          let tr := tr ++ [call_get_osfhandle fd; call_create_file_mapping fh] in
          if mh =? NULL then (- pte_bad_image, Some s, tr)
          else
            let base := os_map_view_of_file env in
            let tr := tr ++ [call_map_view_of_file mh
                               (uint32 (Z.shiftr offset 32))
                               (uint32 offset) dsize] in
            if base =? NULL
            then (- pte_bad_image, Some s, tr ++ [call_close_handle mh])
            else if negb (os_malloc env)
            then (- pte_bad_image, Some s,
                  tr ++ [call_malloc; call_unmap_view_of_file base;
                         call_close_handle mh])
            else
              let mapping := {| map_fd := fd; map_mh := mh; map_base := base;
                                map_begin := ptr_add base adjustment;
                                map_end := ptr_add base size |} in
              (0,
               Some (set_mapping s (Some mapping)
                       (Some fn_pt_sec_windows_unmap)
                       (Some fn_pt_sec_windows_read)),
               tr ++ [call_malloc])
  end.

Definition pt_section_map (env : os_env) (section : option pt_section)
  : Z * option pt_section * list os_call :=
  match section with
  | None => (- pte_internal, None, [])
  | Some s =>
      let errcode := os_lock env in
      let tr := [call_section_lock] in
      if errcode <? 0 then (errcode, Some s, tr)
      else
        let mcount := uint16 (sec_mcount s + 1) in
        if 1 <? mcount
        then (os_unlock env, Some (set_mcount s mcount),
              tr ++ [call_section_unlock])
        else if mcount =? 0
        then (- pte_internal, Some s, tr ++ [call_section_unlock])
        else
          match sec_mapping s with
          | Some _ => (- pte_internal, Some s, tr ++ [call_section_unlock])
          | None =>
              match sec_filename s with
              | None => (- pte_internal, Some s, tr ++ [call_section_unlock])
              | Some filename =>
                  let fh := os_create_file_read env in
                  let tr := tr ++ [call_create_file filename FILE_SHARE_READ] in
                  (* We failed to open the file read-only.  Let's try to
                     open it read-write; maybe our user has the file open
                     for writing.  We will detect changes to the file via
                     fstat(). *)
                  let '(fh, tr) :=
                    if fh =? INVALID_HANDLE_VALUE
                    then (os_create_file_write env,
                          tr ++ [call_create_file filename FILE_SHARE_WRITE])
                    else (fh, tr) in
                  if fh =? INVALID_HANDLE_VALUE
                  then (- pte_bad_image, Some s, tr ++ [call_section_unlock])
                  else
                    let fd := os_open_osfhandle env in
                    let tr := tr ++ [call_open_osfhandle fh] in
                    if fd =? -1
                    then (- pte_bad_image, Some s,
                          tr ++ [call_close_handle fh; call_section_unlock])
                    else
                      let '(errcode, tr_check) :=
                        check_file_status env (Some s) fd in
                      let tr := tr ++ tr_check in
                      if errcode <? 0
                      then (- pte_bad_image, Some s, tr ++ [call_close fd])
                      else
                        (* We leave the file open on success.  It will be
                           closed when the section is unmapped. *)
                        match pt_sec_windows_map env (Some s) fd with
                        | (errcode, Some s', tr_map) =>
                            let tr := tr ++ tr_map in
                            if errcode =? 0
                            then (os_unlock env, Some (set_mcount s' 1),
                                  tr ++ [call_section_unlock])
                            else
                              (* Fall back to file based sections - report
                                 the original error if we fail to convert
                                 the file descriptor. *)
                              let file := os_fdopen env in
                              let tr := tr ++ [call_fdopen fd] in
                              if file =? NULL
                              then (- pte_bad_image, Some s',
                                    tr ++ [call_close fd])
                              else
                                let '(errcode, s'') :=
                                  os_sec_file_map env s' file in
                                let tr := tr ++ [call_sec_file_map file] in
                                if errcode =? 0
                                then (os_unlock env, Some (set_mcount s'' 1),
                                      tr ++ [call_section_unlock])
                                else (errcode, Some s'',
                                      tr ++ [call_fclose file;
                                             call_section_unlock])
                        | (errcode, None, tr_map) =>
                            (errcode, None, tr ++ tr_map)
                        end
              end
          end
  end.

Definition pt_sec_windows_unmap (section : option pt_section)
  : Z * option pt_section * list os_call :=
  match section with
  | None => (- pte_internal, None, [])
  | Some s =>
      match sec_mapping s, sec_unmap s, sec_read s with
      | Some mapping, Some _, Some _ =>
          (0, Some (set_mapping s None None None),
           [call_unmap_view_of_file (map_begin mapping);
            call_close_handle (map_mh mapping);
            call_close (map_fd mapping);
            call_free])
      | _, _, _ => (- pte_internal, Some s, [])
      end
  end.

(** The cast of a pointer difference to int. *)
Definition int32 (z : Z) : Z := (z + 2 ^ 31) mod 2 ^ 32 - 2 ^ 31.

(** The [n] bytes of memory from address [p] on. *)
Definition mem_bytes (mem : ptr -> Byte.byte) (p : ptr) (n : Z)
  : list Byte.byte :=
  map (fun i => mem (p + Z.of_nat i)) (seq 0 (Z.to_nat n)).

(** [memcpy] of [src] to the start of a buffer. *)
Definition memcpy (buffer : list Byte.byte) (src : list Byte.byte)
  : list Byte.byte :=
  src ++ drop (length src) buffer.

(** [mem] is the memory of the process, which holds the mapped view;
    [buffer] is the caller's buffer, returned as the call leaves it.
    [size] is a uint16_t and [offset] a uint64_t. *)
Definition pt_sec_windows_read (mem : ptr -> Byte.byte)
    (section : option pt_section) (buffer : option (list Byte.byte))
    (size : Z) (offset : Z) : Z * option (list Byte.byte) :=
  match buffer, section with
  | Some buf, Some s =>
      match sec_mapping s with
      | None => (- pte_internal, buffer)
      | Some mapping =>
          let begin := ptr_add (map_begin mapping) offset in
          let end_ := ptr_add begin size in
          if end_ <? begin then (- pte_nomap, buffer)
          else if map_end mapping <=? begin then (- pte_nomap, buffer)
          else if begin <? map_begin mapping then (- pte_nomap, buffer)
          else
            let end_ := if map_end mapping <? end_
                        then map_end mapping else end_ in
            let bytes := int32 (end_ - begin) in
            (bytes, Some (memcpy buf (mem_bytes mem begin bytes)))
      end
  | _, _ => (- pte_invalid, buffer)
  end.

(** A section to evaluate the functions on: 256 bytes at offset 0x1234
    of a file of 8192 bytes, and the answers of a system on which every
    call succeeds. *)
Definition example_stat : win_stat := {|
  st_dev := 2; st_ino := 0; st_mode := 0x8124; st_nlink := 1;
  st_uid := 0; st_gid := 0; st_rdev := 2;
  st_size := 8192; st_atime := 1400000300; st_mtime := 1400000200;
  st_ctime := 1400000100
|}.

Definition example_section : pt_section := {|
  sec_filename := Some "a.out"%string;
  sec_offset := 0x1234;
  sec_size := 0x100;
  sec_status := Some {| status_stat := example_stat |};
  sec_mapping := None;
  sec_unmap := None;
  sec_read := None;
  sec_mcount := 0
|}.

Definition example_env : os_env := {|
  os_lock := 0;
  os_unlock := 0;
  os_open := 3;
  os_fstat := Some example_stat;
  os_malloc := true;
  os_granularity := 0x10000;
  os_create_file_read := 0x44;
  os_create_file_write := INVALID_HANDLE_VALUE;
  os_open_osfhandle := 3;
  os_get_osfhandle := 0x44;
  os_create_file_mapping := 0x48;
  os_map_view_of_file := 0x7ff000010000;
  os_fdopen := NULL;
  os_sec_file_map := fun s _ => (- pte_bad_image, s)
|}.

(** The same system after the file was written to: the size is the
    same, the modification time is not. *)
Definition example_stat_touched : win_stat := {|
  st_dev := 2; st_ino := 0; st_mode := 0x8124; st_nlink := 1;
  st_uid := 0; st_gid := 0; st_rdev := 2;
  st_size := 8192; st_atime := 1400000900; st_mtime := 1400000800;
  st_ctime := 1400000100
|}.

Definition example_env_touched : os_env := {|
  os_lock := 0;
  os_unlock := 0;
  os_open := 3;
  os_fstat := Some example_stat_touched;
  os_malloc := true;
  os_granularity := 0x10000;
  os_create_file_read := 0x44;
  os_create_file_write := INVALID_HANDLE_VALUE;
  os_open_osfhandle := 3;
  os_get_osfhandle := 0x44;
  os_create_file_mapping := 0x48;
  os_map_view_of_file := 0x7ff000010000;
  os_fdopen := NULL;
  os_sec_file_map := fun s _ => (- pte_bad_image, s)
|}.

(** The view [pt_sec_windows_map] installs for [example_section], and
    the section once mapped. *)
Definition example_mapping : pt_sec_windows_mapping := {|
  map_fd := 3;
  map_mh := 0x48;
  map_base := 0x7ff000010000;
  map_begin := 0x7ff000011234;
  map_end := 0x7ff000011334
|}.

Definition example_section_mapped (mcount : Z) : pt_section :=
  set_mcount
    (set_mapping example_section (Some example_mapping)
       (Some fn_pt_sec_windows_unmap) (Some fn_pt_sec_windows_read))
    mcount.

(** A memory in which every byte holds the low eight bits of its
    address. *)
Definition example_mem (p : ptr) : Byte.byte :=
  match Byte.of_N (Z.to_N (p mod 256)) with
  | Some b => b
  | None => Byte.x00
  end.

(** ** pt_state.c: the rest of the file *)

(** intel-pt.h, enum pt_status_flag. *)
Definition pts_event_pending : Z := Z.shiftl 1 0.
Definition pts_ip_suppressed : Z := Z.shiftl 1 1.
Definition pts_eos : Z := Z.shiftl 1 2.

(** struct pt_config as [pt_alloc_decoder] reads it: the [size] field
    next to the trace buffer. *)
Record pt_config_arg : Type := {
  cfg_size : Z;
  cfg_buffer : pt_config
}.

(** The one field of struct pt_decoder_function that pt_state.c reads. *)
Record pt_decoder_function : Type := {
  dfun_flags : Z
}.

(** The fields of struct pt_decoder that [pt_decoder] leaves out and
    [pt_alloc_decoder], [pt_reset] and [pt_status_flags] touch.  The
    last-ip and tnt-cache objects belong to parts of the library that are
    not among the sources; their types are parameters. *)
Record pt_decoder_rest (last_ip tnt_cache : Type) : Type := {
  dec_next : option pt_decoder_function;
  dec_ip : last_ip;
  dec_tnt : tnt_cache;
  dec_flags : Z;
  dec_event : option ev_ptr;
  dec_tsc : Z
}.

Arguments dec_next {last_ip tnt_cache} _.
Arguments dec_ip {last_ip tnt_cache} _.
Arguments dec_tnt {last_ip tnt_cache} _.
Arguments dec_flags {last_ip tnt_cache} _.
Arguments dec_event {last_ip tnt_cache} _.
Arguments dec_tsc {last_ip tnt_cache} _.

Definition pt_get_decoder_raw (decoder : option pt_decoder) : ptr :=
  match decoder with
  | None => NULL
  | Some d => pos d
  end.

Definition pt_get_decoder_begin (decoder : option pt_decoder) : ptr :=
  match decoder with
  | None => NULL
  | Some d => pt_begin d
  end.

Definition pt_get_decoder_end (decoder : option pt_decoder) : ptr :=
  match decoder with
  | None => NULL
  | Some d => pt_end d
  end.

Section DecoderState.

(** [pt_last_ip_init] and [pt_tnt_cache_init] are known by what they
    leave in the object they are given; [sizeof_config] is
    [sizeof (struct pt_config)]; the [pdff_] flags of a decoder function
    and the three bindings are enumerators of headers that are not among
    the sources. *)
Variables last_ip tnt_cache : Type.
Variable pt_last_ip_init : last_ip -> last_ip.
Variable pt_tnt_cache_init : tnt_cache -> tnt_cache.
Variable sizeof_config : Z.
Variable evb_max : nat.
Variable evb_max_pend : Z.
Variables pdff_event pdff_psbend pdff_tip pdff_fup : Z.
Variables evb_psbend evb_tip evb_fup : nat.

(** A decoder: the fields of [pt_decoder] and the others. *)
Definition pt_decoder_full : Type :=
  (pt_decoder * pt_decoder_rest last_ip tnt_cache)%type.

(** [calloc_result] is the zero-filled last-ip and tnt-cache of the
    object [calloc] returns, or [None] when there is no memory. *)
Definition pt_alloc_decoder (calloc_result : option (last_ip * tnt_cache))
    (config : option pt_config_arg) : option pt_decoder_full :=
  match config with
  | None => None
  | Some config =>
      if negb (cfg_size config =? sizeof_config) then None
      else if (cfg_begin (cfg_buffer config) =? NULL)
              || (cfg_end (cfg_buffer config) =? NULL) then None
      else if cfg_end (cfg_buffer config) <? cfg_begin (cfg_buffer config)
      then None
      else
        match calloc_result with
        | None => None
        | Some (ip0, tnt0) =>
            Some (decoder_init evb_max evb_max_pend (cfg_buffer config),
                  {| dec_next := None;
                     dec_ip := pt_last_ip_init ip0;
                     dec_tnt := pt_tnt_cache_init tnt0;
                     dec_flags := 0;
                     dec_event := None;
                     dec_tsc := 0 |})
        end
  end.

Definition pt_status_flags (decoder : option pt_decoder_full) : Z :=
  match decoder with
  | None => - pte_internal
  | Some (d, r) =>
      let flags := 0 in
      match dec_next r with
      | None => flags
      | Some dfun =>
          let flags :=
            if negb (Z.land (dfun_flags dfun) pdff_event =? 0)
            then Z.lor flags pts_event_pending else flags in
          let flags :=
            if negb (Z.land (dfun_flags dfun) pdff_psbend =? 0)
            then
              if negb (pt_event_pending evb_max evb_max_pend (Some d)
                         evb_psbend =? 0)
              then Z.lor flags pts_event_pending else flags
            else flags in
          let flags :=
            if negb (Z.land (dfun_flags dfun) pdff_tip =? 0)
            then
              if negb (pt_event_pending evb_max evb_max_pend (Some d)
                         evb_tip =? 0)
              then Z.lor flags pts_event_pending else flags
            else flags in
          let flags :=
            if negb (Z.land (dfun_flags dfun) pdff_fup =? 0)
            then
              if negb (pt_event_pending evb_max evb_max_pend (Some d)
                         evb_fup =? 0)
              then Z.lor flags pts_event_pending else flags
            else flags in
          flags
      end
  end.

(** The loop of [pt_reset]: [pt_discard_events] for the bindings from
    [evb] up to [evb_max], [n] of them. *)
Fixpoint pt_reset_loop (n : nat) (evb : nat) (decoder : option pt_decoder)
  : option pt_decoder :=
  match n with
  | O => decoder
  | S n => pt_reset_loop n (S evb) (pt_discard_events evb_max decoder evb)
  end.

Definition pt_reset (decoder : option pt_decoder_full)
  : option pt_decoder_full :=
  match decoder with
  | None => None
  | Some (d, r) =>
      let r := {| dec_next := dec_next r;
                  dec_ip := pt_last_ip_init (dec_ip r);
                  dec_tnt := pt_tnt_cache_init (dec_tnt r);
                  dec_flags := 0;
                  dec_event := None;
                  dec_tsc := 0 |} in
      match pt_reset_loop evb_max 0 (Some d) with
      | Some d => Some (d, r)
      | None => None
      end
  end.

(** A caller that enqueues and fills in one event after the other,
    whether or not each enqueue finds a slot. *)
Fixpoint enqueue_all (decoder : option pt_decoder)
    (events : list (nat * pt_event)) : option pt_decoder :=
  match events with
  | [] => decoder
  | (evb, e) :: events =>
      enqueue_all (snd (enqueue_filled evb_max evb_max_pend decoder evb e))
        events
  end.

End DecoderState.

(** ** pt_section_windows.c: callers *)

(** [n] calls of [pt_section_map] in a row, each on a system that
    answers as [env] does: the results of the last call, or of the first
    that does not return 0 ([0] and the section as it is for no call at
    all), and the calls made. *)
Fixpoint pt_section_map_n (env : os_env) (n : nat)
    (section : option pt_section) : Z * option pt_section * list os_call :=
  match n with
  | O => (0, section, [])
  | S n =>
      let '(errcode, section', tr) := pt_section_map env section in
      if errcode =? 0
      then
        let '(errcode, section'', tr') := pt_section_map_n env n section' in
        (errcode, section'', tr ++ tr')
      else (errcode, section', tr)
  end.



(** Two reads in a row by a caller that continues where the first read
    stopped, into the rest of its buffer. *)
Definition read_twice (mem : ptr -> Byte.byte) (section : option pt_section)
    (buf : list Byte.byte) (size1 size2 : Z) (offset : Z)
  : Z * Z * list Byte.byte :=
  match pt_sec_windows_read mem section (Some buf) size1 offset with
  | (n1, Some buf1) =>
      if n1 <? 0 then (n1, 0, buf1)
      else
        match pt_sec_windows_read mem section
                (Some (drop (Z.to_nat n1) buf1)) size2 (offset + n1) with
        | (n2, Some buf2) => (n1, n2, take (Z.to_nat n1) buf1 ++ buf2)
        | (n2, None) => (n1, n2, buf1)
        end
  | (n1, None) => (n1, 0, buf)
  end.

(** ** intel-pt.h: packet types and the remaining sizes *)

(** enum pt_ip_compression *)
Definition pt_ipc_suppressed : Z := 0x0.
Definition pt_ipc_update_16 : Z := 0x01.
Definition pt_ipc_update_32 : Z := 0x02.
Definition pt_ipc_sext_48 : Z := 0x03.

(** enum pt_payload: the sizes of an IP payload *)
Definition pt_pl_ip_upd16_size : Z := 2.
Definition pt_pl_ip_upd32_size : Z := 4.
Definition pt_pl_ip_sext48_size : Z := 6.

(** enum pt_packet_size: the packets with an IP payload *)
Definition ptps_tip_supp : Z := pt_opcs_tip.
Definition ptps_tip_upd16 : Z := pt_opcs_tip + pt_pl_ip_upd16_size.
Definition ptps_tip_upd32 : Z := pt_opcs_tip + pt_pl_ip_upd32_size.
Definition ptps_tip_sext48 : Z := pt_opcs_tip + pt_pl_ip_sext48_size.
Definition ptps_tip_pge_supp : Z := pt_opcs_tip_pge.
Definition ptps_tip_pge_upd16 : Z := pt_opcs_tip_pge + pt_pl_ip_upd16_size.
Definition ptps_tip_pge_upd32 : Z := pt_opcs_tip_pge + pt_pl_ip_upd32_size.
Definition ptps_tip_pge_sext48 : Z := pt_opcs_tip_pge + pt_pl_ip_sext48_size.
Definition ptps_tip_pgd_supp : Z := pt_opcs_tip_pgd.
Definition ptps_tip_pgd_upd16 : Z := pt_opcs_tip_pgd + pt_pl_ip_upd16_size.
Definition ptps_tip_pgd_upd32 : Z := pt_opcs_tip_pgd + pt_pl_ip_upd32_size.
Definition ptps_tip_pgd_sext48 : Z := pt_opcs_tip_pgd + pt_pl_ip_sext48_size.
Definition ptps_fup_supp : Z := pt_opcs_fup.
Definition ptps_fup_upd16 : Z := pt_opcs_fup + pt_pl_ip_upd16_size.
Definition ptps_fup_upd32 : Z := pt_opcs_fup + pt_pl_ip_upd32_size.
Definition ptps_fup_sext48 : Z := pt_opcs_fup + pt_pl_ip_sext48_size.

(** enum pt_packet_type *)
Definition ppt_pad : Z := pt_opc_pad.
Definition ppt_tip : Z := pt_opc_tip.
Definition ppt_tnt_8 : Z := Z.lor pt_opc_tnt_8 0xFE.
Definition ppt_tip_pge : Z := pt_opc_tip_pge.
Definition ppt_tip_pgd : Z := pt_opc_tip_pgd.
Definition ppt_fup : Z := pt_opc_fup.
Definition ppt_mode : Z := pt_opc_mode.
Definition ppt_tsc : Z := pt_opc_tsc.
Definition ppt_psb : Z := Z.lor (Z.shiftl pt_opc_ext 8) pt_ext_psb.
Definition ppt_tnt_64 : Z := Z.lor (Z.shiftl pt_opc_ext 8) pt_ext_tnt_64.
Definition ppt_pip : Z := Z.lor (Z.shiftl pt_opc_ext 8) pt_ext_pip.
Definition ppt_ovf : Z := Z.lor (Z.shiftl pt_opc_ext 8) pt_ext_ovf.
Definition ppt_psbend : Z := Z.lor (Z.shiftl pt_opc_ext 8) pt_ext_psbend.
Definition ppt_cbr : Z := Z.lor (Z.shiftl pt_opc_ext 8) pt_ext_cbr.
Definition ppt_unknown : Z := 0x7ffffffe.
Definition ppt_invalid : Z := 0x7fffffff.

Definition pt_packet_types : list Z :=
  [ppt_pad; ppt_tip; ppt_tnt_8; ppt_tip_pge; ppt_tip_pgd; ppt_fup;
   ppt_mode; ppt_tsc; ppt_psb; ppt_tnt_64; ppt_pip; ppt_ovf; ppt_psbend;
   ppt_cbr; ppt_unknown; ppt_invalid].

(** The decoding of a return value, [pt_errcode]. *)
Definition pt_errcode (status : Z) : Z :=
  if 0 <=? status then pte_ok else - status.

(** ** Further values to evaluate the functions on *)

(** An event of a given type. *)
Definition example_event_of (type : pt_event_type) (ip : Z) : pt_event := {|
  ev_type := type;
  ev_ip_suppressed := false;
  ev_status_update := false;
  ev_has_tsc := false;
  ev_tsc := 0;
  ev_reserved := (0, 0, 0);
  ev_variant := (ip, 0)
|}.

(** The events a caller enqueues: three for the first binding, one for
    the second. *)
Definition example_events : list (nat * pt_event) :=
  [(0%nat, example_event_of ptev_enabled 0x1000);
   (0%nat, example_event 0x2000);
   (1%nat, example_event_of ptev_disabled 0x3000);
   (0%nat, example_event_of ptev_paging 0x4000)].

(** [example_decoder] with those events waiting. *)
Definition example_decoder_waiting : pt_decoder :=
  default example_decoder
    (enqueue_all 3 8 (Some example_decoder) example_events).

(** [example_decoder] synchronized at 0x1010 and 0x20 bytes further
    on. *)
Definition example_decoder_moved : pt_decoder :=
  set_pos (example_decoder_at 0x1010) 0x1030.

(** The configuration a user hands to [pt_alloc_decoder], with 0x70 for
    the size of the structure, and the other fields of a decoder, with
    one-element types for the last-ip and the tnt-cache. *)
Definition example_config_arg : pt_config_arg :=
  {| cfg_size := 0x70; cfg_buffer := example_config |}.

Definition example_rest (next : option pt_decoder_function) (flags : Z)
    (event : option ev_ptr) (tsc : Z) : pt_decoder_rest unit unit :=
  {| dec_next := next; dec_ip := tt; dec_tnt := tt;
     dec_flags := flags; dec_event := event; dec_tsc := tsc |}.

(** A system that grants the mapping handle and refuses the view. *)
Definition example_env_no_view : os_env := {|
  os_lock := 0;
  os_unlock := 0;
  os_open := 3;
  os_fstat := Some example_stat;
  os_malloc := true;
  os_granularity := 0x10000;
  os_create_file_read := 0x44;
  os_create_file_write := INVALID_HANDLE_VALUE;
  os_open_osfhandle := 3;
  os_get_osfhandle := 0x44;
  os_create_file_mapping := 0x48;
  os_map_view_of_file := NULL;
  os_fdopen := NULL;
  os_sec_file_map := fun s _ => (- pte_bad_image, s)
|}.

(** The calls [pt_sec_windows_map] makes for [example_section]. *)
Definition example_map_calls : list os_call :=
  [call_get_system_info; call_get_osfhandle 3;
   call_create_file_mapping 0x44;
   call_map_view_of_file 0x48 0 0 0x1334; call_malloc].

(* ================================================================== *)
(** * Part II: properties                                              *)
(* ================================================================== *)

(** ** Machine integers *)

Lemma uint64_range (z : Z) : 0 <= uint64 z < 2 ^ 64.
Proof. unfold uint64. apply Z.mod_pos_bound. lia. Qed.

Lemma uint64_small (z : Z) : 0 <= z < 2 ^ 64 -> uint64 z = z.
Proof. intros H. unfold uint64. apply Z.mod_small. exact H. Qed.

Lemma ptr_add_no_wrap (p : ptr) (n : Z) :
  0 <= p + n < 2 ^ 64 -> ptr_add p n = p + n.
Proof. intros H. unfold ptr_add. apply uint64_small. exact H. Qed.

(** ** The header's constants *)

(** C8: a PSB packet is 16 bytes, the pattern 0x02 0x82 eight times; the
    pattern bytes are [pt_psb_hi = 0x02] and [pt_psb_lo = 0x82], the
    payload repeats the pattern [pt_psb_repeat_count = 7] times after the
    two opcode bytes, and [ptps_psb = pt_opcs_psb + pt_pl_psb_size = 16]. *)
Theorem psb_packet_layout :
  pt_psb_hi = 0x02
  /\ pt_psb_lo = 0x82
  /\ pt_psb_repeat_count = 7
  /\ pt_psb_repeat_size = 2
  /\ pt_opcs_psb = 2
  /\ pt_pl_psb_size = 14
  /\ ptps_psb = pt_opcs_psb + pt_pl_psb_size
  /\ ptps_psb = 16
  /\ psb_packet = concat (repeat [0x02; 0x82] 8)
  /\ Z.of_nat (length psb_packet) = ptps_psb
  /\ Z.of_nat (length psb_payload) = pt_pl_psb_size
  /\ firstn (Z.to_nat pt_opcs_psb) psb_packet = psb_pattern.
Proof. repeat split; reflexivity. Qed.

(** The two 16-bit readings of the pattern the header also names. *)
Lemma psb_pattern_words : pt_psb_lohi = 0x0282 /\ pt_psb_hilo = 0x8202.
Proof. split; reflexivity. Qed.

(** ** MODE.Exec *)

(** C9: reading back the bits [pt_set_exec_mode] writes gives the mode
    that was written, for each of the four execution modes. *)
Theorem exec_mode_round_trip (m : pt_exec_mode) :
  pt_get_exec_mode (pt_set_exec_mode m) = m.
Proof. destruct m; reflexivity. Qed.

(** The other direction: the four bit patterns are four different
    modes, and writing back the mode read gives the same bits. *)
Lemma exec_mode_bits_round_trip (p : pt_packet_mode_exec) :
  pt_set_exec_mode (pt_get_exec_mode p) = p.
Proof. destruct p as [[] []]; reflexivity. Qed.

Lemma pt_set_exec_mode_inj (m1 m2 : pt_exec_mode) :
  pt_set_exec_mode m1 = pt_set_exec_mode m2 -> m1 = m2.
Proof. destruct m1, m2; simpl; intros H; try reflexivity; discriminate. Qed.

(** ** Decoder position *)

Lemma pt_advance_null (size : Z) :
  pt_advance None size = (- pte_invalid, None).
Proof. reflexivity. Qed.

Lemma pt_advance_cases (d : pt_decoder) (size : Z) :
  let p := ptr_add (pos d) size in
  (cfg_begin (config d) <= p <= cfg_end (config d)
   /\ pt_advance (Some d) size = (0, Some (set_pos d p)))
  \/ ((p < cfg_begin (config d) \/ cfg_end (config d) < p)
      /\ pt_advance (Some d) size = (- pte_eos, Some d)).
Proof.
  intros p. unfold pt_advance. fold p.
  destruct (Z.ltb_spec p (cfg_begin (config d))) as [Hlo | Hlo].
  - right. split; [left; exact Hlo | reflexivity].
  - destruct (Z.ltb_spec (cfg_end (config d)) p) as [Hhi | Hhi].
    + right. split; [right; exact Hhi | reflexivity].
    + left. split; [lia | reflexivity].
Qed.

(** C3: from a cursor inside the buffer, [pt_advance] by any signed
    amount either returns 0 and leaves the cursor at the advanced
    position, which is inside the buffer again, or returns [- pte_eos]
    because the advanced position lies outside the buffer; either way the
    cursor does not exceed [buffer_end]. *)
Theorem pt_advance_within_buffer (d : pt_decoder) (size : Z) :
  cfg_begin (config d) <= pos d <= cfg_end (config d) ->
  exists r d',
    pt_advance (Some d) size = (r, Some d')
    /\ config d' = config d
    /\ cfg_begin (config d') <= pos d' <= cfg_end (config d')
    /\ ((r = 0
         /\ pos d' = ptr_add (pos d) size)
        \/ (r = - pte_eos
            /\ d' = d
            /\ (ptr_add (pos d) size < cfg_begin (config d)
                \/ cfg_end (config d) < ptr_add (pos d) size))).
Proof.
  intros Hin.
  destruct (pt_advance_cases d size) as [[Hp Heq] | [Hp Heq]].
  - exists 0, (set_pos d (ptr_add (pos d) size)).
    split; [exact Heq |]. split; [reflexivity |].
    split; [exact Hp |]. left. split; reflexivity.
  - exists (- pte_eos), d.
    split; [exact Heq |]. split; [reflexivity |].
    split; [exact Hin |]. right. split; [reflexivity |].
    split; [reflexivity | exact Hp].
Qed.

(** C4: when [pt_advance] returns a negative value, that value is
    [- pte_invalid] or [- pte_eos] and the decoder, its cursor included,
    is the decoder it was called with. *)
Theorem pt_advance_error_keeps_state
    (decoder decoder' : option pt_decoder) (size r : Z) :
  pt_advance decoder size = (r, decoder') ->
  r < 0 ->
  decoder' = decoder
  /\ (r = - pte_invalid \/ r = - pte_eos)
  /\ (decoder = None <-> r = - pte_invalid).
Proof.
  intros Heq Hneg. destruct decoder as [d |].
  - destruct (pt_advance_cases d size) as [[_ Hr] | [_ Hr]];
      rewrite Hr in Heq; inversion Heq; subst.
    + lia.
    + split; [reflexivity |]. split; [right; reflexivity |].
      split; [discriminate | intros H; vm_compute in H; discriminate].
  - rewrite pt_advance_null in Heq. inversion Heq; subst.
    split; [reflexivity |]. split; [left; reflexivity |].
    split; reflexivity.
Qed.

(** C10: [pt_get_decoder_pos] and [pt_get_decoder_sync] return 0 for a
    NULL decoder and for a decoder without a position or synchronization
    point, and they return the same 0 for a decoder whose position or
    synchronization point is the first byte of the buffer; the result is
    an offset in the range of uint64_t, never a negative error code. *)
Theorem decoder_offset_zero_when_unset (d_unset d_first : pt_decoder) :
  pos d_unset = NULL ->
  sync d_unset = NULL ->
  pos d_first <> NULL ->
  sync d_first <> NULL ->
  pos d_first = pt_begin d_first ->
  sync d_first = pt_begin d_first ->
  pt_get_decoder_pos None = 0
  /\ pt_get_decoder_sync None = 0
  /\ pt_get_decoder_pos (Some d_unset) = 0
  /\ pt_get_decoder_sync (Some d_unset) = 0
  /\ pt_get_decoder_pos (Some d_first) = pt_get_decoder_pos (Some d_unset)
  /\ pt_get_decoder_sync (Some d_first) = pt_get_decoder_sync (Some d_unset)
  /\ (forall decoder, 0 <= pt_get_decoder_pos decoder < 2 ^ 64)
  /\ (forall decoder, 0 <= pt_get_decoder_sync decoder < 2 ^ 64).
Proof.
  intros Hp Hs Hp1 Hs1 Hpb Hsb.
  assert (Hpos0 : pt_get_decoder_pos (Some d_unset) = 0).
  { unfold pt_get_decoder_pos. rewrite Hp. reflexivity. }
  assert (Hsync0 : pt_get_decoder_sync (Some d_unset) = 0).
  { unfold pt_get_decoder_sync. rewrite Hs. reflexivity. }
  assert (Hpos1 : pt_get_decoder_pos (Some d_first) = 0).
  { unfold pt_get_decoder_pos. rewrite <- Hpb.
    destruct (Z.eqb_spec (pos d_first) NULL) as [| _]; [reflexivity |].
    rewrite Z.sub_diag. reflexivity. }
  assert (Hsync1 : pt_get_decoder_sync (Some d_first) = 0).
  { unfold pt_get_decoder_sync. rewrite <- Hsb.
    destruct (Z.eqb_spec (sync d_first) NULL) as [| _]; [reflexivity |].
    rewrite Z.sub_diag. reflexivity. }
  repeat split; try reflexivity; try assumption; try congruence.
  - destruct decoder as [d |]; simpl; [| lia].
    repeat (destruct (_ =? _)); try lia. apply uint64_range.
  - destruct decoder as [d |]; simpl; [| lia].
    repeat (destruct (_ =? _)); try lia. apply uint64_range.
  - destruct decoder as [d |]; simpl; [| lia].
    repeat (destruct (_ =? _)); try lia. apply uint64_range.
  - destruct decoder as [d |]; simpl; [| lia].
    repeat (destruct (_ =? _)); try lia. apply uint64_range.
Qed.

(** ** The event rings *)

Section RingProps.

Variable evb_max_pend : Z.
Hypothesis Hpend : 2 <= evb_max_pend <= 256.

Lemma pt_queue_inc_mod (idx : Z) :
  0 <= idx < evb_max_pend ->
  pt_queue_inc evb_max_pend idx = (idx + 1) mod evb_max_pend.
Proof.
  intros Hidx. unfold pt_queue_inc, uint8.
  change (2 ^ 8) with 256.
  destruct (Z.eq_dec (idx + 1) 256) as [E | NE].
  - assert (evb_max_pend = 256) by lia. subst evb_max_pend.
    rewrite E. reflexivity.
  - rewrite (Z.mod_small (idx + 1) 256) by lia.
    apply Z.mod_small.
    pose proof (Z.mod_pos_bound (idx + 1) evb_max_pend). lia.
Qed.

Lemma pt_queue_inc_cases (idx : Z) :
  0 <= idx < evb_max_pend ->
  pt_queue_inc evb_max_pend idx
  = if idx + 1 =? evb_max_pend then 0 else idx + 1.
Proof.
  intros Hidx. rewrite pt_queue_inc_mod by exact Hidx.
  destruct (Z.eqb_spec (idx + 1) evb_max_pend) as [E | NE].
  - rewrite E. apply Z.mod_same. lia.
  - apply Z.mod_small. lia.
Qed.

Lemma pt_queue_inc_range (idx : Z) :
  0 <= idx < evb_max_pend ->
  0 <= pt_queue_inc evb_max_pend idx < evb_max_pend.
Proof.
  intros Hidx. rewrite pt_queue_inc_cases by exact Hidx.
  destruct (Z.eqb_spec (idx + 1) evb_max_pend); lia.
Qed.

Lemma ring_count_cases (b e : Z) :
  0 <= b < evb_max_pend -> 0 <= e < evb_max_pend ->
  ring_count evb_max_pend b e
  = if b <=? e then e - b else e - b + evb_max_pend.
Proof.
  intros Hb He. unfold ring_count. destruct (Z.leb_spec b e).
  - apply Z.mod_small. lia.
  - symmetry. apply (Z.mod_unique_pos _ _ (-1)); lia.
Qed.

Lemma ring_count_range (b e : Z) :
  0 <= ring_count evb_max_pend b e < evb_max_pend.
Proof. unfold ring_count. apply Z.mod_pos_bound. lia. Qed.

Lemma ring_count_empty (b e : Z) :
  0 <= b < evb_max_pend -> 0 <= e < evb_max_pend ->
  ring_count evb_max_pend b e = 0 <-> b = e.
Proof.
  intros Hb He. rewrite ring_count_cases by lia.
  destruct (Z.leb_spec b e); lia.
Qed.

Lemma ring_slot_cases (b k : Z) :
  0 <= b < evb_max_pend -> 0 <= k < evb_max_pend ->
  (b + k) mod evb_max_pend
  = if b + k <? evb_max_pend then b + k else b + k - evb_max_pend.
Proof.
  intros Hb Hk. destruct (Z.ltb_spec (b + k) evb_max_pend).
  - apply Z.mod_small. lia.
  - symmetry. apply (Z.mod_unique_pos _ _ 1); lia.
Qed.

(** Moving the end index on adds one to the count, unless the ring
    holds [evb_max_pend - 1] events: then the end index meets the begin
    index and the count drops to zero. *)
Lemma ring_count_inc_end (b e : Z) :
  0 <= b < evb_max_pend -> 0 <= e < evb_max_pend ->
  ring_count evb_max_pend b e < evb_max_pend - 1 ->
  ring_count evb_max_pend b (pt_queue_inc evb_max_pend e)
  = ring_count evb_max_pend b e + 1.
Proof.
  intros Hb He. rewrite pt_queue_inc_cases by exact He.
  rewrite (ring_count_cases b e) by lia.
  destruct (Z.eqb_spec (e + 1) evb_max_pend);
    rewrite ring_count_cases by lia;
    destruct (Z.leb_spec b e); destruct (Z.leb_spec b 0);
    destruct (Z.leb_spec b (e + 1)); lia.
Qed.

Lemma ring_count_inc_begin (b e : Z) :
  0 <= b < evb_max_pend -> 0 <= e < evb_max_pend ->
  b <> e ->
  ring_count evb_max_pend b e
  = ring_count evb_max_pend (pt_queue_inc evb_max_pend b) e + 1.
Proof.
  intros Hb He Hne. rewrite pt_queue_inc_cases by exact Hb.
  rewrite (ring_count_cases b e) by lia.
  destruct (Z.eqb_spec (b + 1) evb_max_pend);
    rewrite ring_count_cases by lia;
    destruct (Z.leb_spec b e); destruct (Z.leb_spec 0 e);
    destruct (Z.leb_spec (b + 1) e); lia.
Qed.

(** The test [begin == gap] of [pt_enqueue_event] holds exactly when
    the ring holds [evb_max_pend - 2] events. *)
Lemma ring_gap_iff (b e : Z) :
  0 <= b < evb_max_pend -> 0 <= e < evb_max_pend ->
  b = pt_queue_inc evb_max_pend (pt_queue_inc evb_max_pend e)
  <-> ring_count evb_max_pend b e = evb_max_pend - 2.
Proof.
  intros Hb He.
  pose proof (pt_queue_inc_range e He) as He'.
  rewrite (pt_queue_inc_cases (pt_queue_inc evb_max_pend e)) by exact He'.
  revert He'. rewrite (pt_queue_inc_cases e) by exact He. intros He'.
  rewrite ring_count_cases by lia.
  destruct (Z.eqb_spec (e + 1) evb_max_pend);
    destruct (Z.eqb_spec (0 + 1) evb_max_pend);
    destruct (Z.eqb_spec (e + 1 + 1) evb_max_pend);
    destruct (Z.leb_spec b e); lia.
Qed.

Lemma ring_events_length (row : list pt_event) (b e : Z) :
  Z.of_nat (length (ring_events evb_max_pend row b e))
  = ring_count evb_max_pend b e.
Proof.
  unfold ring_events. rewrite length_map, length_seq.
  apply Z2Nat.id. apply ring_count_range.
Qed.

Lemma ring_events_empty (row : list pt_event) (b : Z) :
  ring_events evb_max_pend row b b = [].
Proof.
  unfold ring_events, ring_count.
  rewrite Z.sub_diag, Z.mod_0_l by lia. reflexivity.
Qed.

(** Storing into a slot that is not among the waiting ones does not
    change the events of the ring. *)
Lemma ring_events_insert_outside (row : list pt_event) (b e i : Z)
    (x : pt_event) :
  0 <= b < evb_max_pend -> 0 <= e < evb_max_pend -> 0 <= i < evb_max_pend ->
  ring_count evb_max_pend b e <= ring_count evb_max_pend b i ->
  ring_events evb_max_pend (<[Z.to_nat i := x]> row) b e
  = ring_events evb_max_pend row b e.
Proof.
  intros Hb He Hi Hout. unfold ring_events.
  apply map_ext_in. intros k Hk. apply in_seq in Hk.
  apply list_lookup_total_insert_ne.
  pose proof (ring_count_range b e) as Hc.
  assert (Hs : (b + Z.of_nat k) mod evb_max_pend <> i).
  { rewrite ring_slot_cases by lia.
    rewrite (ring_count_cases b e), (ring_count_cases b i) in * by lia.
    destruct (Z.ltb_spec (b + Z.of_nat k) evb_max_pend);
      destruct (Z.leb_spec b e); destruct (Z.leb_spec b i); lia. }
  pose proof (Z.mod_pos_bound (b + Z.of_nat k) evb_max_pend). lia.
Qed.

(** Storing at the end index and moving it on appends to the events
    of the ring. *)
Lemma ring_events_enqueue (row : list pt_event) (b e : Z) (x : pt_event) :
  Z.of_nat (length row) = evb_max_pend ->
  0 <= b < evb_max_pend -> 0 <= e < evb_max_pend ->
  ring_count evb_max_pend b e < evb_max_pend - 1 ->
  ring_events evb_max_pend (<[Z.to_nat e := x]> row) b
              (pt_queue_inc evb_max_pend e)
  = ring_events evb_max_pend row b e ++ [x].
Proof.
  intros Hlen Hb He Hc.
  pose proof (ring_count_range b e) as Hc0.
  pose proof (pt_queue_inc_range e He) as He'.
  transitivity
    (ring_events evb_max_pend (<[Z.to_nat e := x]> row) b e
     ++ [<[Z.to_nat e := x]> row !!! Z.to_nat e]).
  - unfold ring_events. rewrite ring_count_inc_end by assumption.
    replace (Z.to_nat (ring_count evb_max_pend b e + 1))
      with (S (Z.to_nat (ring_count evb_max_pend b e))) by lia.
    rewrite seq_S, map_app. simpl. do 3 f_equal.
    rewrite Z2Nat.id by lia. unfold ring_count.
    rewrite Zplus_mod_idemp_r. replace (b + (e - b)) with e by lia.
    rewrite Z.mod_small by lia. reflexivity.
  - f_equal.
    + apply ring_events_insert_outside; try assumption. lia.
    + f_equal. apply list_lookup_total_insert_eq. lia.
Qed.

(** The event at the begin index is the first event of a ring that is
    not empty; moving the begin index on removes it. *)
Lemma ring_events_dequeue (row : list pt_event) (b e : Z) :
  0 <= b < evb_max_pend -> 0 <= e < evb_max_pend ->
  b <> e ->
  ring_events evb_max_pend row b e
  = row !!! Z.to_nat b
    :: ring_events evb_max_pend row (pt_queue_inc evb_max_pend b) e.
Proof.
  intros Hb He Hne. unfold ring_events.
  pose proof (ring_count_range (pt_queue_inc evb_max_pend b) e) as Hc0.
  rewrite (ring_count_inc_begin b e) by assumption.
  replace (Z.to_nat (ring_count evb_max_pend (pt_queue_inc evb_max_pend b) e + 1))
    with (S (Z.to_nat (ring_count evb_max_pend (pt_queue_inc evb_max_pend b) e)))
    by lia.
  simpl. f_equal.
  - rewrite Z.add_0_r, Z.mod_small by lia. reflexivity.
  - rewrite <- seq_shift, map_map. apply map_ext. intros k.
    do 2 f_equal.
    rewrite pt_queue_inc_mod by exact Hb.
    rewrite Zplus_mod_idemp_l. f_equal. lia.
Qed.

End RingProps.

(** ** The event rings of a decoder *)

Section QueueProps.

Variable evb_max : nat.
Variable evb_max_pend : Z.
Hypothesis Hpend : 2 <= evb_max_pend <= 256.

Lemma ev_store_twice (d : pt_decoder) (p : ev_ptr) (x y : pt_event) :
  ev_store (ev_store d p x) p y = ev_store d p y.
Proof.
  unfold ev_store. simpl. f_equal.
  rewrite list_alter_alter_eq. apply list_alter_ext; [| reflexivity].
  intros row _. simpl. apply list_insert_insert_eq.
Qed.

Lemma ev_pend_store_eq (d : pt_decoder) (evb : nat) (i : Z) (x : pt_event) :
  (evb < length (ev_pend d))%nat ->
  ev_pend (ev_store d (evb, i) x) !!! evb
  = <[Z.to_nat i := x]> (ev_pend d !!! evb).
Proof. intros H. simpl. apply list_lookup_total_alter_eq. exact H. Qed.

Lemma ev_pend_store_ne (d : pt_decoder) (evb evb' : nat) (i : Z)
    (x : pt_event) :
  evb <> evb' ->
  ev_pend (ev_store d (evb, i) x) !!! evb' = ev_pend d !!! evb'.
Proof. intros H. simpl. apply list_lookup_total_alter_ne. exact H. Qed.

(** A binding out of range has no ring, and no events. *)
Lemma queue_events_out_of_range (d : pt_decoder) (evb : nat) :
  decoder_wf evb_max evb_max_pend d ->
  (evb_max <= evb)%nat ->
  queue_events evb_max_pend d evb = [].
Proof.
  intros (_ & Hb & He & _) Hge. unfold queue_events.
  rewrite (list_lookup_total_alt (ev_begin d)),
    (list_lookup_total_alt (ev_end d)).
  rewrite !lookup_ge_None_2 by lia. simpl.
  apply ring_events_empty. exact Hpend.
Qed.

Lemma queue_events_length (d : pt_decoder) (evb : nat) :
  Z.of_nat (length (queue_events evb_max_pend d evb))
  = queue_count evb_max_pend d evb.
Proof. apply ring_events_length. exact Hpend. Qed.

(** What [pt_enqueue_event] computes on a well-formed ring. *)
Lemma pt_enqueue_event_eq (d : pt_decoder) (evb : nat) :
  (evb < evb_max)%nat ->
  queue_wf evb_max_pend d evb ->
  pt_enqueue_event evb_max evb_max_pend (Some d) evb
  = let e := ev_end d !!! evb in
    if ev_begin d !!! evb
       =? pt_queue_inc evb_max_pend (pt_queue_inc evb_max_pend e)
    then (None, Some d)
    else (Some (evb, e),
          Some (ev_store (set_ev_end d evb (pt_queue_inc evb_max_pend e))
                         (evb, e) pt_event_zero)).
Proof.
  intros Hevb (_ & Hb & He). unfold pt_enqueue_event.
  destruct (Nat.leb_spec evb_max evb) as [|_]; [lia |].
  destruct (Z.leb_spec evb_max_pend (ev_begin d !!! evb)) as [|_]; [lia |].
  destruct (Z.leb_spec evb_max_pend (ev_end d !!! evb)) as [|_]; [lia |].
  reflexivity.
Qed.

(** What [pt_dequeue_event] computes on a well-formed ring. *)
Lemma pt_dequeue_event_eq (d : pt_decoder) (evb : nat) :
  (evb < evb_max)%nat ->
  queue_wf evb_max_pend d evb ->
  pt_dequeue_event evb_max evb_max_pend (Some d) evb
  = let b := ev_begin d !!! evb in
    if b =? ev_end d !!! evb
    then (None, Some d)
    else (Some (evb, b),
          Some (set_ev_begin d evb (pt_queue_inc evb_max_pend b))).
Proof.
  intros Hevb (_ & Hb & He). unfold pt_dequeue_event.
  destruct (Nat.leb_spec evb_max evb) as [|_]; [lia |].
  destruct (Z.leb_spec evb_max_pend (ev_begin d !!! evb)) as [|_]; [lia |].
  destruct (Z.leb_spec evb_max_pend (ev_end d !!! evb)) as [|_]; [lia |].
  reflexivity.
Qed.

(** The decoder after an event [x] was stored at the end index of a
    ring and the end index moved on. *)
Lemma enqueue_state (d : pt_decoder) (evb : nat) (x : pt_event) :
  decoder_wf evb_max evb_max_pend d ->
  (evb < evb_max)%nat ->
  queue_count evb_max_pend d evb < evb_max_pend - 1 ->
  let e := ev_end d !!! evb in
  let d' := ev_store (set_ev_end d evb (pt_queue_inc evb_max_pend e))
                     (evb, e) x in
  decoder_wf evb_max evb_max_pend d'
  /\ queue_count evb_max_pend d' evb = queue_count evb_max_pend d evb + 1
  /\ queue_events evb_max_pend d' evb
     = queue_events evb_max_pend d evb ++ [x]
  /\ (forall evb', evb' <> evb ->
        queue_count evb_max_pend d' evb' = queue_count evb_max_pend d evb'
        /\ queue_events evb_max_pend d' evb'
           = queue_events evb_max_pend d evb').
Proof.
  intros (Hlp & Hlb & Hle & Hwf) Hevb Hc e d'.
  destruct (Hwf evb Hevb) as (Hrow & Hb & He). fold e in He.
  assert (Hpend_eq : ev_pend d' !!! evb
                     = <[Z.to_nat e := x]> (ev_pend d !!! evb)).
  { apply (ev_pend_store_eq (set_ev_end d evb _)). simpl. lia. }
  assert (Hend_eq : ev_end d' !!! evb = pt_queue_inc evb_max_pend e).
  { simpl. apply list_lookup_total_insert_eq. lia. }
  assert (Hother : forall evb', evb' <> evb ->
            ev_pend d' !!! evb' = ev_pend d !!! evb'
            /\ ev_end d' !!! evb' = ev_end d !!! evb').
  { intros evb' Hne. split.
    - apply (ev_pend_store_ne (set_ev_end d evb _)). congruence.
    - simpl. apply list_lookup_total_insert_ne. congruence. }
  split; [| split; [| split]].
  - split; [| split; [| split]].
    + simpl. rewrite length_alter. exact Hlp.
    + exact Hlb.
    + simpl. rewrite length_insert. exact Hle.
    + intros evb' Hevb'. destruct (Nat.eq_dec evb' evb) as [-> | Hne].
      * unfold queue_wf. rewrite Hpend_eq, Hend_eq, length_insert.
        split; [exact Hrow |]. split; [exact Hb |].
        apply pt_queue_inc_range; assumption.
      * destruct (Hother evb' Hne) as [Hp' He'].
        unfold queue_wf. rewrite Hp', He'. apply Hwf. exact Hevb'.
  - unfold queue_count. rewrite Hend_eq.
    apply ring_count_inc_end; assumption.
  - unfold queue_events. rewrite Hpend_eq, Hend_eq.
    apply ring_events_enqueue; assumption.
  - intros evb' Hne. destruct (Hother evb' Hne) as [Hp' He'].
    unfold queue_count, queue_events. rewrite Hp', He'.
    split; reflexivity.
Qed.

(** The decoder after the begin index of a ring that is not empty
    moved on. *)
Lemma dequeue_state (d : pt_decoder) (evb : nat) :
  decoder_wf evb_max evb_max_pend d ->
  (evb < evb_max)%nat ->
  ev_begin d !!! evb <> ev_end d !!! evb ->
  let b := ev_begin d !!! evb in
  let d' := set_ev_begin d evb (pt_queue_inc evb_max_pend b) in
  decoder_wf evb_max evb_max_pend d'
  /\ queue_count evb_max_pend d evb = queue_count evb_max_pend d' evb + 1
  /\ queue_events evb_max_pend d evb
     = ev_load d' (evb, b) :: queue_events evb_max_pend d' evb
  /\ (forall evb', evb' <> evb ->
        queue_count evb_max_pend d' evb' = queue_count evb_max_pend d evb'
        /\ queue_events evb_max_pend d' evb'
           = queue_events evb_max_pend d evb').
Proof.
  intros (Hlp & Hlb & Hle & Hwf) Hevb Hne b d'.
  destruct (Hwf evb Hevb) as (Hrow & Hb & He). fold b in Hb, Hne.
  assert (Hbegin_eq : ev_begin d' !!! evb = pt_queue_inc evb_max_pend b).
  { simpl. apply list_lookup_total_insert_eq. lia. }
  assert (Hother : forall evb', evb' <> evb ->
            ev_begin d' !!! evb' = ev_begin d !!! evb').
  { intros evb' Hne'. simpl. apply list_lookup_total_insert_ne. congruence. }
  split; [| split; [| split]].
  - split; [| split; [| split]].
    + exact Hlp.
    + simpl. rewrite length_insert. exact Hlb.
    + exact Hle.
    + intros evb' Hevb'. destruct (Nat.eq_dec evb' evb) as [-> | Hne'].
      * unfold queue_wf. rewrite Hbegin_eq.
        split; [exact Hrow |]. split; [| exact He].
        apply pt_queue_inc_range; assumption.
      * unfold queue_wf. rewrite (Hother evb' Hne'). apply Hwf. exact Hevb'.
  - unfold queue_count. rewrite Hbegin_eq.
    apply ring_count_inc_begin; assumption.
  - unfold queue_events. rewrite Hbegin_eq.
    apply ring_events_dequeue; assumption.
  - intros evb' Hne'. unfold queue_count, queue_events.
    rewrite (Hother evb' Hne'). split; reflexivity.
Qed.

End QueueProps.

(** ** Finding an event *)

Section FindProps.

Variable evb_max : nat.
Variable evb_max_pend : Z.
Hypothesis Hpend : 2 <= evb_max_pend <= 256.

Lemma pt_find_event_loop_first (type : pt_event_type)
    (row : list pt_event) (e : Z) (fuel : nat) :
  forall b,
    0 <= b < evb_max_pend -> 0 <= e < evb_max_pend ->
    ring_count evb_max_pend b e <= Z.of_nat fuel ->
    (fun idx => row !!! Z.to_nat idx)
      <$> pt_find_event_loop evb_max_pend fuel row type b e
    = List.find (fun ev => bool_decide (ev_type ev = type))
        (ring_events evb_max_pend row b e).
Proof.
  induction fuel as [| fuel IH]; intros b Hb He Hfuel.
  - assert (Hbe : b = e).
    { apply (ring_count_empty evb_max_pend); try assumption.
      pose proof (ring_count_range evb_max_pend Hpend b e). lia. }
    subst e. rewrite ring_events_empty by exact Hpend. reflexivity.
  - cbn [pt_find_event_loop].
    destruct (Z.eqb_spec b e) as [-> | Hne].
    { rewrite ring_events_empty by exact Hpend. reflexivity. }
    rewrite (ring_events_dequeue evb_max_pend Hpend row b e) by assumption.
    cbn [List.find].
    destruct (bool_decide (ev_type (row !!! Z.to_nat b) = type));
      [reflexivity |].
    apply IH; try assumption.
    + apply pt_queue_inc_range; assumption.
    + pose proof (ring_count_inc_begin evb_max_pend Hpend b e Hb He Hne). lia.
Qed.

(** [pt_find_event] returns a pointer to the first waiting event of the
    given type, and NULL when no waiting event has that type. *)
Lemma pt_find_event_first (d : pt_decoder) (type : pt_event_type)
    (evb : nat) :
  decoder_wf evb_max evb_max_pend d ->
  (evb < evb_max)%nat ->
  ev_load d <$> pt_find_event evb_max evb_max_pend (Some d) type evb
  = List.find (fun ev => bool_decide (ev_type ev = type))
      (queue_events evb_max_pend d evb).
Proof.
  intros (_ & _ & _ & Hq) Hevb. destruct (Hq evb Hevb) as (Hrow & Hb & He).
  unfold pt_find_event, queue_events.
  destruct (Nat.leb_spec evb_max evb) as [|_]; [lia |].
  destruct (Z.leb_spec evb_max_pend (ev_begin d !!! evb)) as [|_]; [lia |].
  destruct (Z.leb_spec evb_max_pend (ev_end d !!! evb)) as [|_]; [lia |].
  rewrite <- (pt_find_event_loop_first type _ _ (Z.to_nat evb_max_pend))
    by (try assumption;
        pose proof (ring_count_range evb_max_pend Hpend
                      (ev_begin d !!! evb) (ev_end d !!! evb)); lia).
  destruct (pt_find_event_loop _ _ _ _ _ _); reflexivity.
Qed.

End FindProps.

(** ** Decoders in order *)

Section DecoderOk.

Variable evb_max : nat.
Variable evb_max_pend : Z.
Hypothesis Hpend : 2 <= evb_max_pend <= 256.

(** The decoder [pt_alloc_decoder] allocates is in order, with every
    ring empty. *)
Lemma decoder_init_ok (cfg : pt_config) :
  decoder_ok evb_max evb_max_pend (decoder_init evb_max evb_max_pend cfg)
  /\ forall evb,
      queue_events evb_max_pend (decoder_init evb_max evb_max_pend cfg) evb
      = [].
Proof.
  split; [split; [split; [| split; [| split]] |] |].
  - apply length_replicate.
  - apply length_replicate.
  - apply length_replicate.
  - intros evb Hevb. unfold queue_wf. simpl.
    rewrite !lookup_total_replicate_2 by exact Hevb.
    rewrite length_replicate. lia.
  - intros evb Hevb. unfold queue_count, ring_count. simpl.
    rewrite Z.sub_diag, Z.mod_0_l by lia. lia.
  - intros evb. unfold queue_events. simpl.
    apply ring_events_empty. exact Hpend.
Qed.

(** [pt_discard_events] empties one ring and keeps the decoder in
    order. *)
Lemma pt_discard_events_ok (d : pt_decoder) (evb : nat) :
  decoder_ok evb_max evb_max_pend d ->
  exists d',
    pt_discard_events evb_max (Some d) evb = Some d'
    /\ decoder_ok evb_max evb_max_pend d'
    /\ queue_events evb_max_pend d' evb = []
    /\ forall evb', evb' <> evb ->
                    queue_events evb_max_pend d' evb'
                    = queue_events evb_max_pend d evb'.
Proof.
  intros [Hwf Hcap]. pose proof Hwf as (Hlp & Hlb & Hle & Hq).
  unfold pt_discard_events.
  destruct (Nat.leb_spec evb_max evb) as [Hge | Hlt].
  { exists d. split; [reflexivity |]. split; [split; assumption |].
    split; [| reflexivity].
    apply queue_events_out_of_range with (evb_max := evb_max); assumption. }
  eexists. split; [reflexivity |].
  set (d' := set_ev_end (set_ev_begin d evb 0) evb 0).
  assert (Hb : ev_begin d' !!! evb = 0)
    by (simpl; apply list_lookup_total_insert_eq; lia).
  assert (He : ev_end d' !!! evb = 0)
    by (simpl; apply list_lookup_total_insert_eq; lia).
  assert (Hother : forall evb', evb' <> evb ->
            ev_begin d' !!! evb' = ev_begin d !!! evb'
            /\ ev_end d' !!! evb' = ev_end d !!! evb').
  { intros evb' Hne. split; simpl; apply list_lookup_total_insert_ne;
      congruence. }
  split; [split; [split; [| split; [| split]] |] |].
  - exact Hlp.
  - simpl. rewrite length_insert. exact Hlb.
  - simpl. rewrite length_insert. exact Hle.
  - intros evb' Hevb'. destruct (Hq evb' Hevb') as (Hrow & Hb' & He').
    unfold queue_wf. destruct (Nat.eq_dec evb' evb) as [-> | Hne].
    + rewrite Hb, He. split; [exact Hrow | lia].
    + destruct (Hother evb' Hne) as [-> ->]. split; [exact Hrow |].
      split; assumption.
  - intros evb' Hevb'. unfold queue_count.
    destruct (Nat.eq_dec evb' evb) as [-> | Hne].
    + rewrite Hb, He. unfold ring_count.
      rewrite Z.sub_diag, Z.mod_0_l by lia. lia.
    + destruct (Hother evb' Hne) as [-> ->]. apply Hcap. exact Hevb'.
  - split.
    + unfold queue_events. rewrite Hb, He.
      apply ring_events_empty. exact Hpend.
    + intros evb' Hne. unfold queue_events.
      destruct (Hother evb' Hne) as [-> ->]. reflexivity.
Qed.

End DecoderOk.

(** ** First in, first out *)

Section FifoProps.

Variable evb_max : nat.
Variable evb_max_pend : Z.
Hypothesis Hpend : 2 <= evb_max_pend <= 256.

Lemma fifo_set_ext (q1 q2 : fifo) (evb : nat) (l : list pt_event) :
  (forall b, q1 b = q2 b) ->
  forall b, fifo_set q1 evb l b = fifo_set q2 evb l b.
Proof. intros H b. unfold fifo_set. destruct (Nat.eqb b evb); auto. Qed.

Lemma fifo_run_ext (ops : list queue_op) :
  forall q1 q2, (forall b, q1 b = q2 b) -> fifo_run q1 ops = fifo_run q2 ops.
Proof.
  induction ops as [| [evb x | evb] ops IH]; intros q1 q2 H; simpl.
  - reflexivity.
  - apply IH. rewrite (H evb). apply fifo_set_ext. exact H.
  - rewrite (H evb). destruct (q2 evb) as [| y l].
    + f_equal. apply IH. exact H.
    + f_equal. apply IH. apply fifo_set_ext. exact H.
Qed.

Lemma fifo_fits_ext (cap : nat) (ops : list queue_op) :
  forall q1 q2, (forall b, q1 b = q2 b) ->
                fifo_fits evb_max cap q1 ops = fifo_fits evb_max cap q2 ops.
Proof.
  induction ops as [| [evb x | evb] ops IH]; intros q1 q2 H; simpl.
  - reflexivity.
  - rewrite (H evb). f_equal. apply IH. apply fifo_set_ext. exact H.
  - rewrite (H evb). destruct (q2 evb) as [| y l].
    + apply IH. exact H.
    + apply IH. apply fifo_set_ext. exact H.
Qed.

(** One enqueue by a caller, on a decoder whose rings are in order. *)
Lemma enqueue_filled_step (d : pt_decoder) (evb : nat) (x : pt_event) :
  decoder_ok evb_max evb_max_pend d ->
  (evb < evb_max)%nat ->
  queue_count evb_max_pend d evb < evb_max_pend - 2 ->
  exists d',
    enqueue_filled evb_max evb_max_pend (Some d) evb x
    = (Some (evb, ev_end d !!! evb), Some d')
    /\ decoder_ok evb_max evb_max_pend d'
    /\ forall b, queue_events evb_max_pend d' b
                 = fifo_set (queue_events evb_max_pend d) evb
                            (queue_events evb_max_pend d evb ++ [x]) b.
Proof.
  intros [Hwf Hcap] Hevb Hc.
  pose proof Hwf as (Hlp & Hlb & Hle & Hq).
  destruct (Hq evb Hevb) as (Hrow & Hb & He).
  unfold enqueue_filled.
  rewrite pt_enqueue_event_eq by (try assumption; apply Hq; assumption).
  cbv zeta.
  destruct (Z.eqb_spec (ev_begin d !!! evb)
              (pt_queue_inc evb_max_pend
                 (pt_queue_inc evb_max_pend (ev_end d !!! evb)))) as [Hgap | _].
  { apply ring_gap_iff in Hgap; try assumption.
    unfold queue_count in Hc. lia. }
  rewrite ev_store_twice.
  eexists. split; [reflexivity |].
  destruct (enqueue_state evb_max evb_max_pend Hpend d evb x Hwf Hevb)
    as (Hwf' & Hcount & Hevents & Hother); [lia |].
  split; [split |].
  - exact Hwf'.
  - intros b Hb'. destruct (Nat.eq_dec b evb) as [-> | Hne].
    + rewrite Hcount. lia.
    + destruct (Hother b Hne) as [-> _]. apply Hcap. exact Hb'.
  - intros b. unfold fifo_set.
    destruct (Nat.eqb_spec b evb) as [-> | Hne].
    + exact Hevents.
    + apply Hother. exact Hne.
Qed.

(** An enqueue that finds [evb_max_pend - 2] events waiting, or is to
    a binding out of range, returns NULL. *)
Lemma enqueue_filled_full (d : pt_decoder) (evb : nat) (x : pt_event) :
  decoder_ok evb_max evb_max_pend d ->
  (evb_max <= evb)%nat
  \/ queue_count evb_max_pend d evb = evb_max_pend - 2 ->
  enqueue_filled evb_max evb_max_pend (Some d) evb x = (None, Some d).
Proof.
  intros [Hwf Hcap] Hfull. unfold enqueue_filled.
  destruct (Nat.leb_spec evb_max evb) as [Hge | Hlt].
  - unfold pt_enqueue_event.
    destruct (Nat.leb_spec evb_max evb); [reflexivity | lia].
  - destruct Hfull as [Hge | Hfull]; [lia |].
    destruct Hwf as (Hlp & Hlb & Hle & Hq).
    destruct (Hq evb Hlt) as (Hrow & Hb & He).
    rewrite pt_enqueue_event_eq by (try assumption; apply Hq; assumption).
    cbv zeta.
    apply ring_gap_iff in Hfull; try assumption.
    rewrite <- Hfull, Z.eqb_refl. reflexivity.
Qed.

(** One dequeue by a caller. *)
Lemma dequeue_read_step (d : pt_decoder) (evb : nat) :
  decoder_ok evb_max evb_max_pend d ->
  match queue_events evb_max_pend d evb with
  | [] => dequeue_read evb_max evb_max_pend (Some d) evb = (None, Some d)
  | x :: l =>
      exists d',
        dequeue_read evb_max evb_max_pend (Some d) evb = (Some x, Some d')
        /\ decoder_ok evb_max evb_max_pend d'
        /\ forall b, queue_events evb_max_pend d' b
                     = fifo_set (queue_events evb_max_pend d) evb l b
  end.
Proof.
  intros [Hwf Hcap]. unfold dequeue_read.
  destruct (Nat.leb_spec evb_max evb) as [Hge | Hlt].
  { rewrite queue_events_out_of_range with (evb_max := evb_max)
      by assumption.
    unfold pt_dequeue_event.
    destruct (Nat.leb_spec evb_max evb); [reflexivity | lia]. }
  pose proof Hwf as (Hlp & Hlb & Hle & Hq).
  destruct (Hq evb Hlt) as (Hrow & Hb & He).
  rewrite pt_dequeue_event_eq by (try assumption; apply Hq; assumption).
  cbv zeta.
  destruct (Z.eqb_spec (ev_begin d !!! evb) (ev_end d !!! evb)) as [Heq | Hne].
  { unfold queue_events. rewrite Heq, ring_events_empty by assumption.
    reflexivity. }
  destruct (dequeue_state evb_max evb_max_pend Hpend d evb Hwf Hlt Hne)
    as (Hwf' & Hcount & Hevents & Hother).
  rewrite Hevents. eexists. split; [reflexivity |].
  split; [split |].
  - exact Hwf'.
  - intros b Hb'. destruct (Nat.eq_dec b evb) as [-> | Hne'].
    + specialize (Hcap evb Hb'). lia.
    + destruct (Hother b Hne') as [-> _]. apply Hcap. exact Hb'.
  - intros b. unfold fifo_set.
    destruct (Nat.eqb_spec b evb) as [-> | Hne'].
    + reflexivity.
    + apply Hother. exact Hne'.
Qed.

(** The rings against the reference: a sequence of calls runs through
    exactly when the reference never holds more than
    [evb_max_pend - 2] events per binding, and then every dequeue
    returns what the reference returns. *)
Lemma queue_run_fifo (ops : list queue_op) :
  forall (d : pt_decoder) (q : fifo),
    decoder_ok evb_max evb_max_pend d ->
    (forall b, queue_events evb_max_pend d b = q b) ->
    queue_run evb_max evb_max_pend (Some d) ops
    = if fifo_fits evb_max (Z.to_nat (evb_max_pend - 2)) q ops
      then Some (fifo_run q ops) else None.
Proof.
  induction ops as [| [evb x | evb] ops IH]; intros d q Hok Hq.
  - reflexivity.
  - cbn [queue_run fifo_fits fifo_run].
    destruct (Nat.ltb_spec evb evb_max) as [Hlt | Hge].
    + pose proof (queue_events_length evb_max_pend Hpend d evb) as Hlen.
      pose proof (proj2 Hok evb Hlt) as Hcap.
      rewrite <- (Hq evb).
      destruct (Nat.ltb_spec (length (queue_events evb_max_pend d evb))
                  (Z.to_nat (evb_max_pend - 2))) as [Hroom | Hfull].
      * destruct (enqueue_filled_step d evb x Hok Hlt) as (d' & -> & Hok' & Hq');
          [lia |].
        cbn [andb]. apply IH; [exact Hok' |].
        intros b. rewrite Hq'. apply fifo_set_ext. exact Hq.
      * rewrite enqueue_filled_full by (try assumption; right; lia).
        reflexivity.
    + rewrite enqueue_filled_full by (try assumption; left; lia).
      reflexivity.
  - cbn [queue_run fifo_fits fifo_run].
    pose proof (dequeue_read_step d evb Hok) as Hstep.
    rewrite <- (Hq evb).
    destruct (queue_events evb_max_pend d evb) as [| x l].
    + rewrite Hstep. rewrite (IH d q Hok Hq).
      destruct (fifo_fits _ _ _ _); reflexivity.
    + destruct Hstep as (d' & -> & Hok' & Hq').
      rewrite (IH d' (fifo_set q evb l) Hok').
      * destruct (fifo_fits _ _ _ _); reflexivity.
      * intros b. rewrite Hq'. apply fifo_set_ext. exact Hq.
Qed.

End FifoProps.

(** ** The claims about the event rings *)

Section QueueClaims.

Variable evb_max : nat.
Variable evb_max_pend : Z.
Hypothesis Hpend : 2 <= evb_max_pend <= 256.

(** C1, as the code has it: a ring keeps two of its [evb_max_pend]
    slots free.  On a binding in range, [pt_enqueue_event] returns the
    slot at the end index, zeroed, and appends it to the waiting events
    whenever fewer than [evb_max_pend - 2] events are waiting; it
    returns NULL exactly when [evb_max_pend - 2] events are waiting,
    and then the decoder is unchanged. *)
Theorem pt_enqueue_event_keeps_two_slots (d : pt_decoder) (evb : nat) :
  decoder_wf evb_max evb_max_pend d ->
  (evb < evb_max)%nat ->
  (queue_count evb_max_pend d evb < evb_max_pend - 2 ->
   exists d',
     pt_enqueue_event evb_max evb_max_pend (Some d) evb
     = (Some (evb, ev_end d !!! evb), Some d')
     /\ decoder_wf evb_max evb_max_pend d'
     /\ ev_load d' (evb, ev_end d !!! evb) = pt_event_zero
     /\ ev_begin d' = ev_begin d
     /\ ev_end d' !!! evb = pt_queue_inc evb_max_pend (ev_end d !!! evb)
     /\ queue_count evb_max_pend d' evb = queue_count evb_max_pend d evb + 1
     /\ queue_events evb_max_pend d' evb
        = queue_events evb_max_pend d evb ++ [pt_event_zero])
  /\ (fst (pt_enqueue_event evb_max evb_max_pend (Some d) evb) = None
      <-> queue_count evb_max_pend d evb = evb_max_pend - 2)
  /\ (fst (pt_enqueue_event evb_max evb_max_pend (Some d) evb) = None
      -> snd (pt_enqueue_event evb_max evb_max_pend (Some d) evb) = Some d).
Proof.
  intros Hwf Hevb.
  pose proof Hwf as (Hlp & Hlb & Hle & Hq).
  destruct (Hq evb Hevb) as (Hrow & Hb & He).
  rewrite pt_enqueue_event_eq by (try assumption; apply Hq; assumption).
  cbv zeta.
  pose proof (ring_gap_iff evb_max_pend Hpend _ _ Hb He) as Hgap.
  fold (queue_count evb_max_pend d evb) in Hgap.
  destruct (Z.eqb_spec (ev_begin d !!! evb)
              (pt_queue_inc evb_max_pend
                 (pt_queue_inc evb_max_pend (ev_end d !!! evb)))) as [Heq | Hne].
  - apply Hgap in Heq. split; [intros; lia |].
    split; [split; [intros _; exact Heq | reflexivity] | reflexivity].
  - split.
    + intros Hc. eexists. split; [reflexivity |].
      destruct (enqueue_state evb_max evb_max_pend Hpend d evb
                  pt_event_zero Hwf Hevb)
        as (Hwf' & Hcount & Hevents & _); [lia |].
      split; [exact Hwf' |]. split.
      { unfold ev_load. cbn [fst snd].
        rewrite (ev_pend_store_eq (set_ev_end d evb _)) by (simpl; lia).
        apply list_lookup_total_insert_eq. simpl. lia. }
      split; [reflexivity |]. split.
      { simpl. apply list_lookup_total_insert_eq. lia. }
      split; [exact Hcount | exact Hevents].
    + split; [| discriminate].
      split; [discriminate |]. intros Hc. apply Hgap in Hc. contradiction.
Qed.

(** C2: within each binding the rings are first in, first out.  For a
    sequence of enqueues and dequeues none of whose enqueues returns
    NULL, the dequeues return the waiting events in the order they were
    enqueued, as the reference does; such sequences are those by which
    no binding comes to hold more than [evb_max_pend - 2] events; and
    [pt_dequeue_event] returns NULL exactly when the begin index equals
    the end index, that is when no event is waiting. *)
Theorem queue_fifo_order (d : pt_decoder) (ops : list queue_op) :
  decoder_ok evb_max evb_max_pend d ->
  (forall rs,
      queue_run evb_max evb_max_pend (Some d) ops = Some rs ->
      rs = fifo_run (queue_events evb_max_pend d) ops)
  /\ (fifo_fits evb_max (Z.to_nat (evb_max_pend - 2))
                (queue_events evb_max_pend d) ops = true ->
      queue_run evb_max evb_max_pend (Some d) ops
      = Some (fifo_run (queue_events evb_max_pend d) ops))
  /\ (forall evb, (evb < evb_max)%nat ->
        (fst (pt_dequeue_event evb_max evb_max_pend (Some d) evb) = None
         <-> ev_begin d !!! evb = ev_end d !!! evb)
        /\ (ev_begin d !!! evb = ev_end d !!! evb
            <-> queue_events evb_max_pend d evb = [])).
Proof.
  intros Hok.
  pose proof (queue_run_fifo evb_max evb_max_pend Hpend ops d
                (queue_events evb_max_pend d) Hok (fun b => eq_refl)) as Hrun.
  split; [| split].
  - intros rs Hrs. rewrite Hrun in Hrs.
    destruct (fifo_fits _ _ _ _); [| discriminate].
    inversion Hrs. reflexivity.
  - intros Hfits. rewrite Hrun, Hfits. reflexivity.
  - intros evb Hevb. destruct Hok as [Hwf _].
    pose proof Hwf as (_ & _ & _ & Hq).
    destruct (Hq evb Hevb) as (Hrow & Hb & He).
    rewrite pt_dequeue_event_eq by (try assumption; apply Hq; assumption).
    cbv zeta. split.
    + destruct (Z.eqb_spec (ev_begin d !!! evb) (ev_end d !!! evb));
        split; intros H; try reflexivity; try assumption;
        try discriminate; contradiction.
    + rewrite <- (ring_count_empty evb_max_pend _ _ Hb He).
      fold (queue_count evb_max_pend d evb).
      rewrite <- (queue_events_length evb_max_pend Hpend d evb).
      destruct (queue_events evb_max_pend d evb); simpl; split;
        intros H; try reflexivity; try discriminate; lia.
Qed.

End QueueClaims.

(** [example_decoder_six] is the decoder after six events were enqueued
    for the first binding of [example_decoder]. *)
Lemma example_six_enqueued :
  enqueue_n 3 8 (Some example_decoder) 0 6 = Some example_decoder_six
  /\ decoder_ok 3 8 example_decoder_six.
Proof.
  split; [reflexivity |].
  split; [split; [| split; [| split]] |]; try reflexivity.
  - intros [| [| [| evb]]] H; try lia; vm_compute; repeat split; congruence.
  - intros [| [| [| evb]]] H; try lia; vm_compute; congruence.
Qed.

(** C1 as stated fails: with rings of eight slots and six events
    waiting, fewer than the eight slots minus one, [pt_enqueue_event]
    returns NULL, and a seventh slot stays unused. *)
Lemma pt_enqueue_event_full_at_six_of_eight :
  enqueue_n 3 8 (Some example_decoder) 0 6 = Some example_decoder_six
  /\ decoder_ok 3 8 example_decoder_six
  /\ queue_count 8 example_decoder_six 0 = 6
  /\ queue_count 8 example_decoder_six 0 < 8 - 1
  /\ pt_enqueue_event 3 8 (Some example_decoder_six) 0
     = (None, Some example_decoder_six).
Proof.
  destruct example_six_enqueued as [Hd Hok].
  split; [exact Hd |]. split; [exact Hok |].
  split; [reflexivity |]. split; reflexivity.
Qed.

(** ** Reading from a mapped section *)

Lemma ptr_add_cases (p : ptr) (n : Z) :
  0 <= p < 2 ^ 64 -> 0 <= n < 2 ^ 64 ->
  0 <= ptr_add p n < 2 ^ 64
  /\ (ptr_add p n = p + n \/ ptr_add p n = p + n - 2 ^ 64).
Proof.
  intros Hp Hn. unfold ptr_add. split; [apply uint64_range |].
  destruct (Z_lt_dec (p + n) (2 ^ 64)) as [Hlt | Hge].
  - left. apply uint64_small. lia.
  - right. unfold uint64. symmetry.
    apply (Z.mod_unique_pos _ _ 1); lia.
Qed.

Lemma int32_small (z : Z) : - 2 ^ 31 <= z < 2 ^ 31 -> int32 z = z.
Proof. intros H. unfold int32. rewrite Z.mod_small by lia. lia. Qed.

Lemma mem_bytes_length (mem : ptr -> Byte.byte) (p : ptr) (n : Z) :
  length (mem_bytes mem p n) = Z.to_nat n.
Proof. unfold mem_bytes. rewrite length_map, length_seq. reflexivity. Qed.

(** The copy overwrites the start of the buffer and nothing else. *)
Lemma memcpy_mem_bytes (mem : ptr -> Byte.byte) (buf : list Byte.byte)
    (p : ptr) (n : Z) :
  memcpy buf (mem_bytes mem p n)
  = mem_bytes mem p n ++ drop (Z.to_nat n) buf.
Proof. unfold memcpy. rewrite mem_bytes_length. reflexivity. Qed.

(** C5: on a mapped section, a read at an offset inside the mapped range
    copies [min (size, mapped_length - offset)] bytes, the bytes of the
    view from that offset on, to the start of the caller's buffer and
    returns their number, so a read across the end of the section stops
    at the end; a read at an offset at or past the end of the mapped
    range returns [- pte_nomap] and leaves the buffer as it was.  The
    view is an object of the address space: the [size] addresses after
    its end do not wrap. *)
Theorem pt_sec_windows_read_up_to_boundary (mem : ptr -> Byte.byte)
    (s : pt_section) (mapping : pt_sec_windows_mapping)
    (buf : list Byte.byte) (size offset : Z) :
  sec_mapping s = Some mapping ->
  0 <= map_begin mapping <= map_end mapping ->
  map_end mapping + size < 2 ^ 64 ->
  0 <= size < 2 ^ 16 ->
  0 <= offset < 2 ^ 64 ->
  let len := map_end mapping - map_begin mapping in
  let n := Z.min size (len - offset) in
  (offset < len ->
   pt_sec_windows_read mem (Some s) (Some buf) size offset
   = (n, Some (mem_bytes mem (map_begin mapping + offset) n
               ++ drop (Z.to_nat n) buf))
   /\ Z.of_nat (length (mem_bytes mem (map_begin mapping + offset) n)) = n
   /\ map_begin mapping + offset + n <= map_end mapping)
  /\ (len <= offset ->
      pt_sec_windows_read mem (Some s) (Some buf) size offset
      = (- pte_nomap, Some buf)).
Proof.
  intros Hmap Hrange Htop Hsize Hoffset len n.
  unfold pt_sec_windows_read. rewrite Hmap. cbv zeta.
  assert (Hb : 0 <= map_begin mapping < 2 ^ 64) by lia.
  destruct (ptr_add_cases (map_begin mapping) offset Hb Hoffset)
    as [Hbegin Hbegin'].
  set (begin := ptr_add (map_begin mapping) offset) in *.
  assert (Hsize' : 0 <= size < 2 ^ 64) by lia.
  destruct (ptr_add_cases begin size Hbegin Hsize') as [Hend Hend'].
  set (end_ := ptr_add begin size) in *.
  split.
  - intros Hin.
    assert (Hbegin_eq : begin = map_begin mapping + offset) by lia.
    assert (Hend_eq : end_ = begin + size) by lia.
    destruct (Z.ltb_spec end_ begin) as [| _]; [lia |].
    destruct (Z.leb_spec (map_end mapping) begin) as [| _]; [lia |].
    destruct (Z.ltb_spec begin (map_begin mapping)) as [| _]; [lia |].
    match goal with
    | |- context [int32 ?bytes] => assert (Hn : bytes = n)
    end.
    { unfold n, len. destruct (Z.ltb_spec (map_end mapping) end_); lia. }
    rewrite Hn, int32_small by lia.
    rewrite memcpy_mem_bytes, <- Hbegin_eq.
    split; [reflexivity |]. split; [| lia].
    rewrite mem_bytes_length. lia.
  - intros Hout.
    destruct (Z.ltb_spec end_ begin) as [| _]; [reflexivity |].
    destruct (Z.leb_spec (map_end mapping) begin) as [| Hlt]; [reflexivity |].
    destruct (Z.ltb_spec begin (map_begin mapping)) as [| Hge]; [reflexivity |].
    lia.
Qed.

(** Where the addresses do wrap, the first test of the function answers
    [- pte_nomap]. *)
Lemma pt_sec_windows_read_wrap (mem : ptr -> Byte.byte)
    (s : pt_section) (mapping : pt_sec_windows_mapping)
    (buf : list Byte.byte) (size offset : Z) :
  sec_mapping s = Some mapping ->
  0 <= map_begin mapping ->
  0 <= size < 2 ^ 16 ->
  0 <= offset ->
  map_begin mapping + offset < 2 ^ 64 <= map_begin mapping + offset + size ->
  pt_sec_windows_read mem (Some s) (Some buf) size offset
  = (- pte_nomap, Some buf).
Proof.
  intros Hmap Hb Hsize Hoffset Hwrap.
  unfold pt_sec_windows_read. rewrite Hmap. cbv zeta.
  rewrite (ptr_add_no_wrap (map_begin mapping) offset) by lia.
  assert (Hend : ptr_add (map_begin mapping + offset) size
                 = map_begin mapping + offset + size - 2 ^ 64).
  { unfold ptr_add, uint64. symmetry. apply (Z.mod_unique_pos _ _ 1); lia. }
  rewrite Hend.
  destruct (Z.ltb_spec (map_begin mapping + offset + size - 2 ^ 64)
              (map_begin mapping + offset)); [reflexivity | lia].
Qed.

(** ** Mapping a section *)

(** What a successful [pt_section_mk_status] recorded is what [_fstat]
    answered at that time. *)
Lemma pt_section_mk_status_records (env : os_env) (filename : option string)
    (status : pt_sec_windows_status) (size : Z) (tr : list os_call) :
  pt_section_mk_status env true true filename
  = (0, Some status, Some size, tr) ->
  os_fstat env = Some (status_stat status)
  /\ size = uint64 (st_size (status_stat status))
  /\ 0 <= st_size (status_stat status).
Proof.
  unfold pt_section_mk_status, pt_sec_windows_fstat. simpl.
  destruct filename as [name |]; [| discriminate].
  destruct (os_open env =? -1); [discriminate |].
  destruct (os_fstat env) as [st |]; [| discriminate].
  destruct (Z.ltb_spec (st_size st) 0) as [| Hpos]; [discriminate |].
  destruct (os_malloc env); simpl; [| discriminate].
  intros H. inversion H; subst. simpl. repeat split. exact Hpos.
Qed.

(** ... and it succeeds whenever the file can be opened and examined. *)
Lemma pt_section_mk_status_succeeds (env : os_env) (name : string)
    (st : win_stat) :
  os_open env <> -1 ->
  os_fstat env = Some st ->
  0 <= st_size st ->
  os_malloc env = true ->
  exists tr,
    pt_section_mk_status env true true (Some name)
    = (0, Some {| status_stat := st |}, Some (uint64 (st_size st)), tr).
Proof.
  intros Hopen Hstat Hsize Hmalloc.
  unfold pt_section_mk_status, pt_sec_windows_fstat. simpl.
  destruct (Z.eqb_spec (os_open env) (-1)) as [| _]; [contradiction |].
  rewrite Hstat.
  destruct (Z.ltb_spec (st_size st) 0) as [| _]; [lia |].
  rewrite Hmalloc. simpl. eexists. reflexivity.
Qed.

Lemma check_file_status_changed (env : os_env) (s : pt_section) (fd : Z)
    (st : win_stat) (status : pt_sec_windows_status) :
  os_fstat env = Some st ->
  sec_status s = Some status ->
  st_size st <> st_size (status_stat status)
  \/ st_mtime st <> st_mtime (status_stat status) ->
  check_file_status env (Some s) fd = (- pte_bad_image, [call_fstat fd]).
Proof.
  intros Hstat Hstatus Hdiff. unfold check_file_status.
  rewrite Hstat, Hstatus.
  destruct (Z.eqb_spec (st_size st) (st_size (status_stat status)));
    [| reflexivity].
  destruct (Z.eqb_spec (st_mtime st) (st_mtime (status_stat status)));
    [| reflexivity].
  destruct Hdiff; contradiction.
Qed.

Lemma check_file_status_same (env : os_env) (s : pt_section) (fd : Z)
    (st : win_stat) (status : pt_sec_windows_status) :
  os_fstat env = Some st ->
  sec_status s = Some status ->
  st_size st = st_size (status_stat status) ->
  st_mtime st = st_mtime (status_stat status) ->
  check_file_status env (Some s) fd = (0, [call_fstat fd]).
Proof.
  intros Hstat Hstatus Hsize Hmtime. unfold check_file_status.
  rewrite Hstat, Hstatus, Hsize, Hmtime, !Z.eqb_refl. reflexivity.
Qed.

(** C6: a section whose status [pt_section_mk_status] recorded is not
    mapped once the file has changed.  When [pt_section_map] has taken
    the lock of an unmapped section, opened its file and got a file
    descriptor, and [_fstat] then answers a size or a modification time
    other than the recorded one, the function returns [- pte_bad_image]
    and the section is as before, with map count 0 and no mapping; the
    file is closed again and no view of it was asked for. *)
Theorem pt_section_map_rejects_changed_file (env0 env : os_env)
    (s : pt_section) (name : string) (status : pt_sec_windows_status)
    (size0 : Z) (tr0 : list os_call) (st : win_stat) :
  pt_section_mk_status env0 true true (Some name)
  = (0, Some status, Some size0, tr0) ->
  sec_filename s = Some name ->
  sec_status s = Some status ->
  sec_mcount s = 0 ->
  sec_mapping s = None ->
  0 <= os_lock env ->
  os_create_file_read env <> INVALID_HANDLE_VALUE
  \/ os_create_file_write env <> INVALID_HANDLE_VALUE ->
  os_open_osfhandle env <> -1 ->
  os_fstat env = Some st ->
  st_size st <> st_size (status_stat status)
  \/ st_mtime st <> st_mtime (status_stat status) ->
  os_fstat env0 = Some (status_stat status)
  /\ exists fh opens,
      pt_section_map env (Some s)
      = (- pte_bad_image, Some s,
         [call_section_lock] ++ opens
         ++ [call_open_osfhandle fh;
             call_fstat (os_open_osfhandle env);
             call_close (os_open_osfhandle env)])
      /\ fh <> INVALID_HANDLE_VALUE
      /\ ((fh = os_create_file_read env
           /\ opens = [call_create_file name FILE_SHARE_READ])
          \/ (fh = os_create_file_write env
              /\ opens = [call_create_file name FILE_SHARE_READ;
                          call_create_file name FILE_SHARE_WRITE])).
Proof.
  intros Hmk Hname Hstatus Hcount Hmapping Hlock Hopen Hfd Hstat Hdiff.
  split; [apply (pt_section_mk_status_records _ _ _ _ _ Hmk) |].
  unfold pt_section_map.
  destruct (Z.ltb_spec (os_lock env) 0) as [| _]; [lia |].
  rewrite Hcount, Hmapping, Hname. change (uint16 (0 + 1)) with 1.
  change (1 <? 1) with false. change (1 =? 0) with false. cbv iota.
  destruct (Z.eqb_spec (os_create_file_read env) INVALID_HANDLE_VALUE)
    as [Hro | Hro].
  - destruct Hopen as [Hopen | Hopen]; [contradiction |].
    exists (os_create_file_write env),
      [call_create_file name FILE_SHARE_READ;
       call_create_file name FILE_SHARE_WRITE].
    destruct (Z.eqb_spec (os_create_file_write env) INVALID_HANDLE_VALUE)
      as [| _]; [contradiction |].
    destruct (Z.eqb_spec (os_open_osfhandle env) (-1)) as [| _];
      [contradiction |].
    rewrite (check_file_status_changed env s _ st status) by assumption.
    split; [reflexivity |]. split; [exact Hopen |].
    right. split; reflexivity.
  - exists (os_create_file_read env),
      [call_create_file name FILE_SHARE_READ].
    destruct (Z.eqb_spec (os_create_file_read env) INVALID_HANDLE_VALUE)
      as [| _]; [contradiction |].
    destruct (Z.eqb_spec (os_open_osfhandle env) (-1)) as [| _];
      [contradiction |].
    rewrite (check_file_status_changed env s _ st status) by assumption.
    split; [reflexivity |]. split; [exact Hro |].
    left. split; reflexivity.
Qed.

(** C7, as the code has it: on a section that is mapped, with a map
    count from 1 to 65534, [pt_section_map] takes the lock, adds one to
    the map count and returns what [pt_section_unlock] returns; mapping,
    read and unmap functions, status and file name stay as they are, and
    nothing but the lock is touched: no file is opened or examined.  At
    65535 the uint16_t count would wrap to 0: the function returns
    [- pte_internal] and leaves the count alone. *)
Theorem pt_section_map_again_only_counts (env : os_env) (s : pt_section) :
  0 <= os_lock env ->
  1 <= sec_mcount s <= 65535 ->
  pt_section_map env (Some s)
  = (if sec_mcount s <? 65535
     then (os_unlock env, Some (set_mcount s (sec_mcount s + 1)),
           [call_section_lock; call_section_unlock])
     else (- pte_internal, Some s,
           [call_section_lock; call_section_unlock]))
  /\ sec_mapping (set_mcount s (sec_mcount s + 1)) = sec_mapping s
  /\ sec_read (set_mcount s (sec_mcount s + 1)) = sec_read s
  /\ sec_unmap (set_mcount s (sec_mcount s + 1)) = sec_unmap s
  /\ sec_status (set_mcount s (sec_mcount s + 1)) = sec_status s
  /\ sec_filename (set_mcount s (sec_mcount s + 1)) = sec_filename s
  /\ sec_mcount (set_mcount s (sec_mcount s + 1)) = sec_mcount s + 1.
Proof.
  intros Hlock Hcount.
  split; [| repeat split; reflexivity].
  unfold pt_section_map.
  destruct (Z.ltb_spec (os_lock env) 0) as [| _]; [lia |].
  destruct (Z.ltb_spec (sec_mcount s) 65535) as [Hlt | Hge].
  - assert (Hwrap : uint16 (sec_mcount s + 1) = sec_mcount s + 1).
    { unfold uint16. apply Z.mod_small. lia. }
    rewrite Hwrap.
    destruct (Z.ltb_spec 1 (sec_mcount s + 1)) as [_ |]; [reflexivity | lia].
  - assert (Hmax : sec_mcount s = 65535) by lia.
    rewrite Hmax. reflexivity.
Qed.

(** A lock that cannot be taken ends the call at once. *)
Lemma pt_section_map_lock_fails (env : os_env) (s : pt_section) :
  os_lock env < 0 ->
  pt_section_map env (Some s) = (os_lock env, Some s, [call_section_lock]).
Proof.
  intros Hlock. unfold pt_section_map.
  destruct (Z.ltb_spec (os_lock env) 0) as [_ |]; [reflexivity | lia].
Qed.

(** C7 as stated fails at the largest map count: the section is mapped,
    yet the call neither counts nor succeeds. *)
Lemma pt_section_map_count_limit :
  sec_mapping (example_section_mapped 65535) = Some example_mapping
  /\ 1 <= sec_mcount (example_section_mapped 65535)
  /\ pt_section_map example_env (Some (example_section_mapped 65535))
     = (- pte_internal, Some (example_section_mapped 65535),
        [call_section_lock; call_section_unlock]).
Proof. repeat split. vm_compute. discriminate. Qed.

(** The first mapping of [example_section] on a system on which every
    call succeeds, and a second one. *)
Lemma example_section_maps :
  fst (fst (pt_section_map example_env (Some example_section))) = 0
  /\ snd (fst (pt_section_map example_env (Some example_section)))
     = Some (example_section_mapped 1)
  /\ snd (fst (pt_section_map example_env (Some (example_section_mapped 1))))
     = Some (example_section_mapped 2).
Proof. repeat split. Qed.

(** ** The theorems at work on the examples *)

Lemma example_decoder_ok : decoder_ok 3 8 example_decoder.
Proof.
  split; [split; [| split; [| split]] |]; try reflexivity.
  - intros [| [| [| evb]]] H; try lia; vm_compute; repeat split; congruence.
  - intros [| [| [| evb]]] H; try lia; vm_compute; congruence.
Defined.

Lemma pt_advance_within_buffer_example :
  cfg_begin (config (example_decoder_at 0x1010))
  <= pos (example_decoder_at 0x1010)
  <= cfg_end (config (example_decoder_at 0x1010))
  /\ exists r d',
      pt_advance (Some (example_decoder_at 0x1010)) 0x20 = (r, Some d')
      /\ config d' = config (example_decoder_at 0x1010)
      /\ cfg_begin (config d') <= pos d' <= cfg_end (config d')
      /\ ((r = 0
           /\ pos d' = ptr_add (pos (example_decoder_at 0x1010)) 0x20)
          \/ (r = - pte_eos
              /\ d' = example_decoder_at 0x1010
              /\ (ptr_add (pos (example_decoder_at 0x1010)) 0x20
                  < cfg_begin (config (example_decoder_at 0x1010))
                  \/ cfg_end (config (example_decoder_at 0x1010))
                     < ptr_add (pos (example_decoder_at 0x1010)) 0x20))).
Proof.
  assert (H : cfg_begin (config (example_decoder_at 0x1010))
              <= pos (example_decoder_at 0x1010)
              <= cfg_end (config (example_decoder_at 0x1010)))
    by (simpl; lia).
  split; [exact H |].
  exact (pt_advance_within_buffer (example_decoder_at 0x1010) 0x20 H).
Defined.

Lemma pt_advance_error_keeps_state_example :
  pt_advance (Some (example_decoder_at 0x1010)) 0x2000
  = (- pte_eos, Some (example_decoder_at 0x1010))
  /\ - pte_eos < 0
  /\ Some (example_decoder_at 0x1010) = Some (example_decoder_at 0x1010)
  /\ (- pte_eos = - pte_invalid \/ - pte_eos = - pte_eos)
  /\ (Some (example_decoder_at 0x1010) = None <-> - pte_eos = - pte_invalid).
Proof.
  assert (H1 : pt_advance (Some (example_decoder_at 0x1010)) 0x2000
               = (- pte_eos, Some (example_decoder_at 0x1010)))
    by reflexivity.
  assert (H2 : - pte_eos < 0) by reflexivity.
  split; [exact H1 |]. split; [exact H2 |].
  exact (pt_advance_error_keeps_state _ _ _ _ H1 H2).
Defined.

Lemma decoder_offset_zero_when_unset_example :
  pt_get_decoder_pos (Some (example_decoder_at 0x1000))
  = pt_get_decoder_pos (Some example_decoder)
  /\ pt_get_decoder_sync (Some (example_decoder_at 0x1000))
     = pt_get_decoder_sync (Some example_decoder)
  /\ pt_get_decoder_pos (Some example_decoder) = 0
  /\ pt_get_decoder_sync (Some example_decoder) = 0.
Proof.
  assert (H1 : pos example_decoder = NULL) by reflexivity.
  assert (H2 : sync example_decoder = NULL) by reflexivity.
  assert (H3 : pos (example_decoder_at 0x1000) <> NULL) by discriminate.
  assert (H4 : sync (example_decoder_at 0x1000) <> NULL) by discriminate.
  assert (H5 : pos (example_decoder_at 0x1000)
               = pt_begin (example_decoder_at 0x1000)) by reflexivity.
  assert (H6 : sync (example_decoder_at 0x1000)
               = pt_begin (example_decoder_at 0x1000)) by reflexivity.
  destruct (decoder_offset_zero_when_unset example_decoder
              (example_decoder_at 0x1000) H1 H2 H3 H4 H5 H6)
    as (_ & _ & Hp & Hs & Hpp & Hss & _).
  split; [exact Hpp |]. split; [exact Hss |]. split; [exact Hp | exact Hs].
Defined.

Lemma pt_enqueue_event_keeps_two_slots_example :
  2 <= 8 <= 256
  /\ decoder_wf 3 8 example_decoder
  /\ (0 < 3)%nat
  /\ (fst (pt_enqueue_event 3 8 (Some example_decoder) 0) = None
      <-> queue_count 8 example_decoder 0 = 8 - 2)
  /\ (queue_count 8 example_decoder 0 < 8 - 2 ->
      exists d',
        pt_enqueue_event 3 8 (Some example_decoder) 0
        = (Some (0%nat, ev_end example_decoder !!! 0%nat), Some d')
        /\ decoder_wf 3 8 d'
        /\ ev_load d' (0%nat, ev_end example_decoder !!! 0%nat) = pt_event_zero
        /\ ev_begin d' = ev_begin example_decoder
        /\ ev_end d' !!! 0%nat
           = pt_queue_inc 8 (ev_end example_decoder !!! 0%nat)
        /\ queue_count 8 d' 0 = queue_count 8 example_decoder 0 + 1
        /\ queue_events 8 d' 0
           = queue_events 8 example_decoder 0 ++ [pt_event_zero]).
Proof.
  assert (H1 : 2 <= 8 <= 256) by lia.
  assert (H2 : decoder_wf 3 8 example_decoder) by apply example_decoder_ok.
  assert (H3 : (0 < 3)%nat) by lia.
  destruct (pt_enqueue_event_keeps_two_slots 3 8 H1 example_decoder 0 H2 H3)
    as (Hroom & Hfull & _).
  split; [exact H1 |]. split; [exact H2 |]. split; [exact H3 |].
  split; [exact Hfull | exact Hroom].
Defined.

Lemma queue_fifo_order_example :
  2 <= 8 <= 256
  /\ decoder_ok 3 8 example_decoder
  /\ queue_run 3 8 (Some example_decoder)
       [op_enqueue 0 (example_event 0x1000);
        op_enqueue 0 (example_event 0x2000);
        op_enqueue 1 (example_event 0x3000);
        op_dequeue 0; op_dequeue 1; op_dequeue 0; op_dequeue 0]
     = Some (fifo_run (queue_events 8 example_decoder)
               [op_enqueue 0 (example_event 0x1000);
                op_enqueue 0 (example_event 0x2000);
                op_enqueue 1 (example_event 0x3000);
                op_dequeue 0; op_dequeue 1; op_dequeue 0; op_dequeue 0])
  /\ fifo_run (queue_events 8 example_decoder)
       [op_enqueue 0 (example_event 0x1000);
        op_enqueue 0 (example_event 0x2000);
        op_enqueue 1 (example_event 0x3000);
        op_dequeue 0; op_dequeue 1; op_dequeue 0; op_dequeue 0]
     = [Some (example_event 0x1000); Some (example_event 0x3000);
        Some (example_event 0x2000); None].
Proof.
  assert (H1 : 2 <= 8 <= 256) by lia.
  destruct (queue_fifo_order 3 8 H1 example_decoder
              [op_enqueue 0 (example_event 0x1000);
               op_enqueue 0 (example_event 0x2000);
               op_enqueue 1 (example_event 0x3000);
               op_dequeue 0; op_dequeue 1; op_dequeue 0; op_dequeue 0]
              example_decoder_ok)
    as (_ & Hrun & _).
  split; [exact H1 |]. split; [exact example_decoder_ok |].
  split; [apply Hrun; reflexivity | reflexivity].
Defined.

Lemma pt_sec_windows_read_up_to_boundary_example :
  sec_mapping (example_section_mapped 1) = Some example_mapping
  /\ 0 <= map_begin example_mapping <= map_end example_mapping
  /\ map_end example_mapping + 16 < 2 ^ 64
  /\ pt_sec_windows_read example_mem (Some (example_section_mapped 1))
       (Some (repeat Byte.xff 16)) 16 0xf8
     = (8, Some (mem_bytes example_mem 0x7ff00001132c 8
                 ++ repeat Byte.xff 8))
  /\ mem_bytes example_mem 0x7ff00001132c 8
     = [Byte.x2c; Byte.x2d; Byte.x2e; Byte.x2f;
        Byte.x30; Byte.x31; Byte.x32; Byte.x33]
  /\ pt_sec_windows_read example_mem (Some (example_section_mapped 1))
       (Some (repeat Byte.xff 16)) 16 0x100
     = (- pte_nomap, Some (repeat Byte.xff 16)).
Proof.
  assert (H1 : sec_mapping (example_section_mapped 1) = Some example_mapping)
    by reflexivity.
  assert (H2 : 0 <= map_begin example_mapping <= map_end example_mapping)
    by (simpl; lia).
  assert (H3 : map_end example_mapping + 16 < 2 ^ 64) by (simpl; lia).
  assert (H4 : 0 <= 16 < 2 ^ 16) by lia.
  assert (H5 : 0 <= 0xf8 < 2 ^ 64) by lia.
  assert (H6 : 0 <= 0x100 < 2 ^ 64) by lia.
  destruct (pt_sec_windows_read_up_to_boundary example_mem
              (example_section_mapped 1) example_mapping
              (repeat Byte.xff 16) 16 0xf8 H1 H2 H3 H4 H5) as [Hin _].
  destruct (pt_sec_windows_read_up_to_boundary example_mem
              (example_section_mapped 1) example_mapping
              (repeat Byte.xff 16) 16 0x100 H1 H2 H3 H4 H6) as [_ Hout].
  split; [exact H1 |]. split; [exact H2 |]. split; [exact H3 |].
  split; [apply Hin; simpl; lia |].
  split; [reflexivity |].
  apply Hout. simpl. lia.
Defined.

Lemma pt_section_map_rejects_changed_file_example :
  pt_section_mk_status example_env true true (Some "a.out"%string)
  = (0, Some {| status_stat := example_stat |}, Some 8192,
     [call_open "a.out"; call_fstat 3; call_close 3; call_malloc])
  /\ st_mtime example_stat_touched <> st_mtime example_stat
  /\ pt_section_map example_env_touched (Some example_section)
     = (- pte_bad_image, Some example_section,
        [call_section_lock; call_create_file "a.out" FILE_SHARE_READ;
         call_open_osfhandle 0x44; call_fstat 3; call_close 3]).
Proof.
  assert (H1 : pt_section_mk_status example_env true true
                 (Some "a.out"%string)
               = (0, Some {| status_stat := example_stat |}, Some 8192,
                  [call_open "a.out"; call_fstat 3; call_close 3;
                   call_malloc])) by reflexivity.
  assert (H2 : st_mtime example_stat_touched <> st_mtime example_stat)
    by discriminate.
  destruct (pt_section_map_rejects_changed_file example_env
              example_env_touched example_section "a.out"
              {| status_stat := example_stat |} 8192 _ example_stat_touched
              H1 eq_refl eq_refl eq_refl eq_refl)
    as (_ & fh & opens & Hmap & _ & _).
  - simpl. lia.
  - left. discriminate.
  - discriminate.
  - reflexivity.
  - right. exact H2.
  - split; [exact H1 |]. split; [exact H2 |]. reflexivity.
Defined.

Lemma pt_section_map_again_only_counts_example :
  0 <= os_lock example_env
  /\ 1 <= sec_mcount (example_section_mapped 1) <= 65535
  /\ pt_section_map example_env (Some (example_section_mapped 1))
     = (0, Some (example_section_mapped 2),
        [call_section_lock; call_section_unlock]).
Proof.
  assert (H1 : 0 <= os_lock example_env) by (simpl; lia).
  assert (H2 : 1 <= sec_mcount (example_section_mapped 1) <= 65535)
    by (simpl; lia).
  destruct (pt_section_map_again_only_counts example_env
              (example_section_mapped 1) H1 H2) as [Hmap _].
  split; [exact H1 |]. split; [exact H2 |]. exact Hmap.
Defined.

(* ================================================================== *)
(** * Part III: more properties of the code                            *)
(* ================================================================== *)

(** ** Moving the cursor *)






(** X4: the three addresses and the two offsets of a decoder agree: the
    position is the begin of the buffer plus the offset, likewise the
    synchronization point, and the offsets are ordered as the addresses
    are. *)
Theorem decoder_offsets_agree (d : pt_decoder) :
  0 < cfg_begin (config d) ->
  cfg_begin (config d) <= sync d ->
  sync d <= pos d ->
  pos d <= cfg_end (config d) ->
  cfg_end (config d) < 2 ^ 64 ->
  pt_get_decoder_raw (Some d)
  = pt_get_decoder_begin (Some d) + pt_get_decoder_pos (Some d)
  /\ sync d = pt_get_decoder_begin (Some d) + pt_get_decoder_sync (Some d)
  /\ 0 <= pt_get_decoder_sync (Some d)
  /\ pt_get_decoder_sync (Some d) <= pt_get_decoder_pos (Some d)
  /\ pt_get_decoder_pos (Some d)
     <= pt_get_decoder_end (Some d) - pt_get_decoder_begin (Some d).
Proof.
  intros Hbegin Hsync Hpos Hend Htop.
  unfold pt_get_decoder_raw, pt_get_decoder_begin, pt_get_decoder_end,
    pt_get_decoder_pos, pt_get_decoder_sync, pt_begin, pt_end.
  destruct (Z.eqb_spec (pos d) NULL) as [E | _];
    [unfold NULL in E; lia |].
  destruct (Z.eqb_spec (sync d) NULL) as [E | _];
    [unfold NULL in E; lia |].
  destruct (Z.eqb_spec (cfg_begin (config d)) NULL) as [E | _];
    [unfold NULL in E; lia |].
  rewrite !uint64_small by lia. lia.
Qed.

(** ** More about the event rings *)

Section QueueMore.

Variable evb_max : nat.
Variable evb_max_pend : Z.
Hypothesis Hpend : 2 <= evb_max_pend <= 256.

(** X5: [k] increments lead from a slot to the slot [k] further on around
    the ring: they come back to the slot they started from exactly when
    [k] is a multiple of the number of slots. *)
Theorem pt_queue_inc_walks (idx : Z) (k : nat) :
  0 <= idx < evb_max_pend ->
  Nat.iter k (pt_queue_inc evb_max_pend) idx
  = (idx + Z.of_nat k) mod evb_max_pend
  /\ 0 <= Nat.iter k (pt_queue_inc evb_max_pend) idx < evb_max_pend
  /\ (Nat.iter k (pt_queue_inc evb_max_pend) idx = idx
      <-> Z.of_nat k mod evb_max_pend = 0).
Proof.
  intros Hidx.
  assert (Hiter : Nat.iter k (pt_queue_inc evb_max_pend) idx
                  = (idx + Z.of_nat k) mod evb_max_pend).
  { induction k as [| k IH].
    - simpl. rewrite Z.add_0_r, Z.mod_small by lia. reflexivity.
    - rewrite Nat.iter_succ, IH.
      rewrite pt_queue_inc_mod by (try assumption; apply Z.mod_pos_bound; lia).
      rewrite Zplus_mod_idemp_l. f_equal. lia. }
  split; [exact Hiter |]. rewrite Hiter.
  split; [apply Z.mod_pos_bound; lia |].
  rewrite <- Zplus_mod_idemp_r.
  pose proof (Z.mod_pos_bound (Z.of_nat k) evb_max_pend) as Hr.
  rewrite ring_slot_cases by lia.
  destruct (Z.ltb_spec (idx + Z.of_nat k mod evb_max_pend) evb_max_pend); lia.
Qed.

(** X6: [pt_event_pending] tells whether an event is waiting, and so
    whether [pt_dequeue_event] would return one. *)
Theorem pt_event_pending_agrees (d : pt_decoder) (evb : nat) :
  decoder_wf evb_max evb_max_pend d ->
  (evb < evb_max)%nat ->
  pt_event_pending evb_max evb_max_pend (Some d) evb
  = match queue_events evb_max_pend d evb with [] => 0 | _ :: _ => 1 end
  /\ (pt_event_pending evb_max evb_max_pend (Some d) evb = 0
      <-> fst (pt_dequeue_event evb_max evb_max_pend (Some d) evb) = None)
  /\ (pt_event_pending evb_max evb_max_pend (Some d) evb = 1
      <-> fst (pt_dequeue_event evb_max evb_max_pend (Some d) evb)
          = Some (evb, ev_begin d !!! evb)).
Proof.
  intros Hwf Hevb. pose proof Hwf as (_ & _ & _ & Hq).
  destruct (Hq evb Hevb) as (Hrow & Hb & He).
  rewrite pt_dequeue_event_eq by (try assumption; apply Hq; assumption).
  cbv zeta. unfold pt_event_pending, queue_events.
  destruct (Nat.leb_spec evb_max evb) as [|_]; [lia |].
  destruct (Z.leb_spec evb_max_pend (ev_begin d !!! evb)) as [|_]; [lia |].
  destruct (Z.leb_spec evb_max_pend (ev_end d !!! evb)) as [|_]; [lia |].
  destruct (Z.eqb_spec (ev_begin d !!! evb) (ev_end d !!! evb)) as [Heq | Hne].
  - rewrite Heq, ring_events_empty by exact Hpend.
    split; [reflexivity |].
    split; split; intros H; try reflexivity; discriminate.
  - rewrite (ring_events_dequeue evb_max_pend Hpend _ _ _ Hb He Hne).
    split; [reflexivity |].
    split; split; intros H; try reflexivity; discriminate.
Qed.

(** X7: [pt_discard_events] empties the ring of one binding, whatever its
    indices were, and touches nothing else: afterwards no event is
    pending there, a dequeue returns NULL, and an enqueue finds the first
    slot, unless the ring has no more than the two slots it keeps
    free. *)
Theorem pt_discard_events_resets (d : pt_decoder) (evb : nat) :
  length (ev_begin d) = evb_max ->
  length (ev_end d) = evb_max ->
  (evb < evb_max)%nat ->
  exists d',
    pt_discard_events evb_max (Some d) evb = Some d'
    /\ ev_begin d' !!! evb = 0
    /\ ev_end d' !!! evb = 0
    /\ (forall evb', evb' <> evb ->
          ev_begin d' !!! evb' = ev_begin d !!! evb'
          /\ ev_end d' !!! evb' = ev_end d !!! evb')
    /\ ev_pend d' = ev_pend d
    /\ config d' = config d /\ pos d' = pos d /\ sync d' = sync d
    /\ queue_events evb_max_pend d' evb = []
    /\ pt_event_pending evb_max evb_max_pend (Some d') evb = 0
    /\ fst (pt_dequeue_event evb_max evb_max_pend (Some d') evb) = None
    /\ (fst (pt_enqueue_event evb_max evb_max_pend (Some d') evb) = None
        <-> evb_max_pend = 2)
    /\ (2 < evb_max_pend ->
        fst (pt_enqueue_event evb_max evb_max_pend (Some d') evb)
        = Some (evb, 0)).
Proof.
  intros Hlb Hle Hevb. unfold pt_discard_events.
  destruct (Nat.leb_spec evb_max evb) as [|_]; [lia |].
  eexists. split; [reflexivity |].
  set (d' := set_ev_end (set_ev_begin d evb 0) evb 0).
  assert (Hb : ev_begin d' !!! evb = 0)
    by (simpl; apply list_lookup_total_insert_eq; lia).
  assert (He : ev_end d' !!! evb = 0)
    by (simpl; apply list_lookup_total_insert_eq; lia).
  split; [exact Hb |]. split; [exact He |].
  split.
  { intros evb' Hne. split; simpl; apply list_lookup_total_insert_ne;
      congruence. }
  do 4 (split; [reflexivity |]).
  split.
  { unfold queue_events. rewrite Hb, He.
    apply ring_events_empty. exact Hpend. }
  assert (Hinc : pt_queue_inc evb_max_pend (pt_queue_inc evb_max_pend 0)
                 = if evb_max_pend =? 2 then 0 else 2).
  { rewrite (pt_queue_inc_cases evb_max_pend Hpend 0) by lia.
    destruct (Z.eqb_spec (0 + 1) evb_max_pend); [lia |].
    rewrite (pt_queue_inc_cases evb_max_pend Hpend (0 + 1)) by lia.
    destruct (Z.eqb_spec (0 + 1 + 1) evb_max_pend);
      destruct (Z.eqb_spec evb_max_pend 2); lia. }
  unfold pt_event_pending, pt_dequeue_event, pt_enqueue_event.
  destruct (Nat.leb_spec evb_max evb) as [|_]; [lia |].
  rewrite Hb, He.
  destruct (Z.leb_spec evb_max_pend 0) as [|_]; [lia |].
  rewrite Z.eqb_refl, Hinc.
  destruct (Z.eqb_spec evb_max_pend 2) as [E | NE]; cbn [Z.eqb fst].
  - repeat split; try reflexivity; try discriminate; try lia; auto.
  - repeat split; try reflexivity; try discriminate; try lia; auto.
Qed.

(** X8: all of these functions refuse a binding out of range and a ring
    whose begin or end index is out of range: they return NULL, or
    [- pte_internal], and leave the decoder alone. *)
Theorem queue_functions_refuse_bad_index (d : pt_decoder) (evb : nat)
    (type : pt_event_type) :
  (evb_max <= evb)%nat
  \/ evb_max_pend <= ev_begin d !!! evb
  \/ evb_max_pend <= ev_end d !!! evb ->
  pt_enqueue_event evb_max evb_max_pend (Some d) evb = (None, Some d)
  /\ pt_dequeue_event evb_max evb_max_pend (Some d) evb = (None, Some d)
  /\ pt_find_event evb_max evb_max_pend (Some d) type evb = None
  /\ pt_event_pending evb_max evb_max_pend (Some d) evb = - pte_internal.
Proof.
  intros Hbad.
  unfold pt_enqueue_event, pt_dequeue_event, pt_find_event, pt_event_pending.
  destruct (Nat.leb_spec evb_max evb) as [| Hevb];
    [repeat split; reflexivity |].
  destruct (Z.leb_spec evb_max_pend (ev_begin d !!! evb)) as [| Hb];
    [repeat split; reflexivity |].
  destruct (Z.leb_spec evb_max_pend (ev_end d !!! evb)) as [| He];
    [repeat split; reflexivity |].
  lia.
Qed.

(** What a caller's enqueue computes on a well-formed ring. *)
Lemma enqueue_filled_eq (d : pt_decoder) (evb : nat) (x : pt_event) :
  decoder_wf evb_max evb_max_pend d ->
  enqueue_filled evb_max evb_max_pend (Some d) evb x = (None, Some d)
  \/ ((evb < evb_max)%nat
      /\ queue_count evb_max_pend d evb <> evb_max_pend - 2
      /\ enqueue_filled evb_max evb_max_pend (Some d) evb x
         = (Some (evb, ev_end d !!! evb),
            Some (ev_store
                    (set_ev_end d evb
                       (pt_queue_inc evb_max_pend (ev_end d !!! evb)))
                    (evb, ev_end d !!! evb) x))).
Proof.
  intros Hwf. pose proof Hwf as (_ & _ & _ & Hq). unfold enqueue_filled.
  destruct (Nat.leb_spec evb_max evb) as [Hge | Hlt].
  { left. unfold pt_enqueue_event.
    destruct (Nat.leb_spec evb_max evb); [reflexivity | lia]. }
  destruct (Hq evb Hlt) as (Hrow & Hb & He).
  rewrite pt_enqueue_event_eq by (try assumption; apply Hq; assumption).
  cbv zeta.
  destruct (Z.eqb_spec (ev_begin d !!! evb)
              (pt_queue_inc evb_max_pend
                 (pt_queue_inc evb_max_pend (ev_end d !!! evb)))) as [Hgap | Hgap].
  - left. reflexivity.
  - right. split; [exact Hlt |]. split.
    + intros Hc. apply Hgap.
      apply (ring_gap_iff evb_max_pend Hpend); assumption.
    + rewrite ev_store_twice. reflexivity.
Qed.

(** X9: from a ring in order, [k] enqueues in a row all find a slot as long
    as no more than [evb_max_pend - 2] events come to wait, and the next
    enqueue returns NULL exactly when that many are waiting: a ring of
    [evb_max_pend] slots holds [evb_max_pend - 2] events. *)
Theorem enqueue_n_capacity (d : pt_decoder) (evb : nat) (k : nat) :
  decoder_ok evb_max evb_max_pend d ->
  (evb < evb_max)%nat ->
  queue_count evb_max_pend d evb + Z.of_nat k <= evb_max_pend - 2 ->
  exists d',
    enqueue_n evb_max evb_max_pend (Some d) evb k = Some d'
    /\ decoder_ok evb_max evb_max_pend d'
    /\ queue_count evb_max_pend d' evb
       = queue_count evb_max_pend d evb + Z.of_nat k
    /\ queue_events evb_max_pend d' evb
       = queue_events evb_max_pend d evb ++ replicate k pt_event_zero
    /\ (fst (pt_enqueue_event evb_max evb_max_pend (Some d') evb) = None
        <-> queue_count evb_max_pend d evb + Z.of_nat k = evb_max_pend - 2).
Proof.
  intros Hok Hevb. induction k as [| k IH]; intros Hk.
  - exists d. split; [reflexivity |]. split; [exact Hok |].
    split; [simpl; lia |]. split; [simpl; rewrite app_nil_r; reflexivity |].
    destruct Hok as [Hwf _]. pose proof Hwf as (_ & _ & _ & Hq).
    destruct (Hq evb Hevb) as (Hrow & Hb & He).
    rewrite pt_enqueue_event_eq by (try assumption; apply Hq; assumption).
    cbv zeta. rewrite Z.add_0_r.
    rewrite <- (ring_gap_iff evb_max_pend Hpend _ _ Hb He).
    destruct (Z.eqb_spec (ev_begin d !!! evb)
                (pt_queue_inc evb_max_pend
                   (pt_queue_inc evb_max_pend (ev_end d !!! evb))));
      split; intros H; try reflexivity; try assumption;
      try discriminate; contradiction.
  - destruct IH as (dk & Hrun & [Hwf Hcap] & Hcount & Hevents & Hfull);
      [lia |].
    pose proof Hwf as (_ & _ & _ & Hq).
    destruct (Hq evb Hevb) as (Hrow & Hb & He).
    cbn [enqueue_n]. rewrite Hrun.
    rewrite pt_enqueue_event_eq by (try assumption; apply Hq; assumption).
    cbv zeta.
    destruct (Z.eqb_spec (ev_begin dk !!! evb)
                (pt_queue_inc evb_max_pend
                   (pt_queue_inc evb_max_pend (ev_end dk !!! evb)))) as [Hgap | _].
    { apply (ring_gap_iff evb_max_pend Hpend _ _ Hb He) in Hgap.
      unfold queue_count in *. lia. }
    cbn [snd]. eexists. split; [reflexivity |].
    destruct (enqueue_state evb_max evb_max_pend Hpend dk evb
                pt_event_zero Hwf Hevb)
      as (Hwf' & Hcount' & Hevents' & Hother); [lia |].
    split; [split; [exact Hwf' |] |].
    { intros b Hb'. destruct (Nat.eq_dec b evb) as [-> | Hne].
      - rewrite Hcount'. lia.
      - destruct (Hother b Hne) as [-> _]. apply Hcap. exact Hb'. }
    split; [rewrite Hcount', Hcount; lia |].
    split.
    { rewrite Hevents', Hevents, replicate_S_end, app_assoc. reflexivity. }
    pose proof Hwf' as (_ & _ & _ & Hq').
    destruct (Hq' evb Hevb) as (Hrow' & Hb'' & He'').
    rewrite pt_enqueue_event_eq by (try assumption; apply Hq'; assumption).
    cbv zeta.
    pose proof (ring_gap_iff evb_max_pend Hpend _ _ Hb'' He'') as Hgap.
    fold (queue_count evb_max_pend
            (ev_store (set_ev_end dk evb
                         (pt_queue_inc evb_max_pend (ev_end dk !!! evb)))
                      (evb, ev_end dk !!! evb) pt_event_zero) evb) in Hgap.
    rewrite Hcount', Hcount in Hgap.
    match goal with
    | |- context [if ?c then _ else _] => destruct c eqn:Hc
    end.
    + apply Z.eqb_eq in Hc. apply Hgap in Hc.
      split; intros _; [lia | reflexivity].
    + apply Z.eqb_neq in Hc.
      split; intros H; [discriminate |].
      exfalso. apply Hc. apply Hgap. lia.
Qed.

(** X10: the slot of the event dequeued last is not written by the enqueues
    that follow, however many there are and whichever bindings they are
    for: the pointer [pt_dequeue_event] returned still points to that
    event. *)
Theorem last_dequeued_survives (d d1 : pt_decoder) (evb : nat) (p : ev_ptr)
    (events : list (nat * pt_event)) :
  decoder_ok evb_max evb_max_pend d ->
  (evb < evb_max)%nat ->
  pt_dequeue_event evb_max evb_max_pend (Some d) evb = (Some p, Some d1) ->
  exists d',
    enqueue_all evb_max evb_max_pend (Some d1) events = Some d'
    /\ decoder_ok evb_max evb_max_pend d'
    /\ ev_load d' p = ev_load d p.
Proof.
  intros [Hwf Hcap] Hevb Hdeq.
  pose proof Hwf as (_ & _ & _ & Hq).
  destruct (Hq evb Hevb) as (Hrow & Hb & He).
  rewrite pt_dequeue_event_eq in Hdeq
    by (try assumption; apply Hq; assumption).
  cbv zeta in Hdeq.
  destruct (Z.eqb_spec (ev_begin d !!! evb) (ev_end d !!! evb)) as [| Hne];
    [discriminate |].
  inversion Hdeq; subst p d1; clear Hdeq.
  set (b := ev_begin d !!! evb) in *.
  destruct (dequeue_state evb_max evb_max_pend Hpend d evb Hwf Hevb Hne)
    as (Hwf1 & Hcount1 & _ & Hother1). fold b in Hwf1, Hcount1, Hother1.
  set (d1 := set_ev_begin d evb (pt_queue_inc evb_max_pend b)) in *.
  assert (Hok1 : decoder_ok evb_max evb_max_pend d1).
  { split; [exact Hwf1 |]. intros c Hc.
    destruct (Nat.eq_dec c evb) as [-> | Hne'].
    - specialize (Hcap evb Hc). lia.
    - destruct (Hother1 c Hne') as [-> _]. apply Hcap. exact Hc. }
  assert (Hb1 : ev_begin d1 !!! evb = pt_queue_inc evb_max_pend b).
  { simpl. apply list_lookup_total_insert_eq.
    destruct Hwf as (_ & Hlb & _). lia. }
  change (ev_load d (evb, b)) with (ev_load d1 (evb, b)).
  clearbody d1. clear Hwf1 Hcount1 Hother1 Hwf Hcap Hq Hrow He Hne.
  revert d1 Hok1 Hb1.
  induction events as [| [c x] events IH]; intros d1 Hok1 Hb1.
  - exists d1. split; [reflexivity |]. split; [exact Hok1 | reflexivity].
  - cbn [enqueue_all].
    destruct (enqueue_filled_eq d1 c x (proj1 Hok1))
      as [-> | (Hc & Hroom & Heq)].
    { cbn [snd]. apply IH; assumption. }
    destruct (enqueue_filled_step evb_max evb_max_pend Hpend d1 c x Hok1 Hc)
      as (d2 & Heq2 & Hok2 & _).
    { pose proof (proj2 Hok1 c Hc). lia. }
    rewrite Heq in Heq2. inversion Heq2 as [Hd2]. rewrite Heq.
    cbn [snd]. rewrite Hd2.
    destruct (IH d2 Hok2) as (d' & Hrun & Hok' & Hload).
    { rewrite <- Hd2. simpl. exact Hb1. }
    exists d'. split; [exact Hrun |]. split; [exact Hok' |].
    rewrite Hload, <- Hd2. unfold ev_load. cbn [fst snd].
    destruct (Nat.eq_dec c evb) as [-> | Hne].
    + destruct Hok1 as [Hwf1 Hcap1]. pose proof Hwf1 as (Hlp & _ & _ & Hq1).
      destruct (Hq1 evb Hevb) as (Hrow1 & _ & He1).
      rewrite (ev_pend_store_eq (set_ev_end d1 evb _)) by (simpl; lia).
      simpl. apply list_lookup_total_insert_ne.
      assert (Hslot : ev_end d1 !!! evb <> b).
      { intros E. specialize (Hcap1 evb Hevb).
        unfold queue_count in Hcap1. rewrite Hb1, E in Hcap1.
        pose proof (pt_queue_inc_range evb_max_pend Hpend b Hb) as Hr.
        rewrite ring_count_cases in Hcap1 by assumption.
        rewrite (pt_queue_inc_cases evb_max_pend Hpend b Hb) in Hcap1.
        destruct (Z.eqb_spec (b + 1) evb_max_pend);
          destruct (Z.leb_spec 0 b); destruct (Z.leb_spec (b + 1) b); lia. }
      lia.
    + rewrite (ev_pend_store_ne (set_ev_end d1 c _)) by exact Hne.
      reflexivity.
Qed.

End QueueMore.

(** ** Looking for an event of a type *)

Section FindMore.

Variable evb_max : nat.
Variable evb_max_pend : Z.
Hypothesis Hpend : 2 <= evb_max_pend <= 256.

(** X11: [pt_find_event] looks at the waiting events of the binding and at
    no other slot: it returns a pointer into the ring of that binding to
    the first waiting event of the given type, and NULL exactly when no
    waiting event has that type. *)
Theorem pt_find_event_finds_first (d : pt_decoder) (type : pt_event_type)
    (evb : nat) :
  decoder_wf evb_max evb_max_pend d ->
  (evb < evb_max)%nat ->
  ev_load d <$> pt_find_event evb_max evb_max_pend (Some d) type evb
  = List.find (fun ev => bool_decide (ev_type ev = type))
      (queue_events evb_max_pend d evb)
  /\ match pt_find_event evb_max evb_max_pend (Some d) type evb with
     | Some p =>
         fst p = evb
         /\ 0 <= snd p < evb_max_pend
         /\ ev_type (ev_load d p) = type
         /\ exists before after,
             queue_events evb_max_pend d evb
             = before ++ ev_load d p :: after
             /\ Forall (fun ev => ev_type ev <> type) before
     | None =>
         Forall (fun ev => ev_type ev <> type)
           (queue_events evb_max_pend d evb)
     end.
Proof.
  intros Hwf Hevb.
  pose proof (pt_find_event_first evb_max evb_max_pend Hpend d type evb
                Hwf Hevb) as Hfind.
  split; [exact Hfind |].
  assert (Hsplit : forall (l : list pt_event) (x : pt_event),
             List.find (fun ev => bool_decide (ev_type ev = type)) l
             = Some x ->
             ev_type x = type
             /\ exists before after,
                 l = before ++ x :: after
                 /\ Forall (fun ev => ev_type ev <> type) before).
  { induction l as [| y l IH]; intros x Hx; [discriminate |].
    cbn [List.find] in Hx.
    destruct (bool_decide (ev_type y = type)) eqn:Hy.
    - inversion Hx; subst x. apply bool_decide_eq_true in Hy.
      split; [exact Hy |]. exists [], l. split; [reflexivity | constructor].
    - apply bool_decide_eq_false in Hy.
      destruct (IH x Hx) as (Ht & before & after & -> & Hall).
      split; [exact Ht |]. exists (y :: before), after.
      split; [reflexivity |]. constructor; assumption. }
  assert (Hnone : forall l : list pt_event,
             List.find (fun ev => bool_decide (ev_type ev = type)) l = None ->
             Forall (fun ev => ev_type ev <> type) l).
  { induction l as [| y l IH]; intros Hl; [constructor |].
    cbn [List.find] in Hl.
    destruct (bool_decide (ev_type y = type)) eqn:Hy; [discriminate |].
    apply bool_decide_eq_false in Hy. constructor; [exact Hy | auto]. }
  destruct (pt_find_event evb_max evb_max_pend (Some d) type evb)
    as [p |] eqn:Hp; cbn [fmap option_fmap option_map] in Hfind.
  - symmetry in Hfind. destruct (Hsplit _ _ Hfind) as (Ht & Hrest).
    assert (Hin : fst p = evb /\ 0 <= snd p < evb_max_pend).
    { unfold pt_find_event in Hp.
      destruct (evb_max <=? evb)%nat; [discriminate |].
      destruct (evb_max_pend <=? ev_begin d !!! evb); [discriminate |].
      destruct (evb_max_pend <=? ev_end d !!! evb); [discriminate |].
      destruct (pt_find_event_loop evb_max_pend (Z.to_nat evb_max_pend)
                  (ev_pend d !!! evb) type (ev_begin d !!! evb)
                  (ev_end d !!! evb)) as [idx |] eqn:Hloop;
        [| discriminate].
      inversion Hp; subst p. split; [reflexivity |]. cbn [snd].
      destruct Hwf as (_ & _ & _ & Hq).
      destruct (Hq evb Hevb) as (_ & Hb & He).
      revert Hloop Hb. generalize (ev_begin d !!! evb).
      generalize (Z.to_nat evb_max_pend).
      induction n as [| n IH]; intros b Hloop Hb; [discriminate |].
      cbn [pt_find_event_loop] in Hloop.
      destruct (b =? ev_end d !!! evb); [discriminate |].
      destruct (bool_decide _).
      - inversion Hloop; subst idx. exact Hb.
      - apply (IH _ Hloop).
        apply pt_queue_inc_range; assumption. }
    destruct Hin as [Hfst Hsnd].
    split; [exact Hfst |]. split; [exact Hsnd |]. split; assumption.
  - symmetry in Hfind. apply Hnone. exact Hfind.
Qed.

End FindMore.

(** ** Allocating, resetting and asking for the status *)

Section DecoderStateProps.

Variables last_ip tnt_cache : Type.
Variable pt_last_ip_init : last_ip -> last_ip.
Variable pt_tnt_cache_init : tnt_cache -> tnt_cache.
Variable sizeof_config : Z.
Variable evb_max : nat.
Variable evb_max_pend : Z.
Variables pdff_event pdff_psbend pdff_tip pdff_fup : Z.
Variables evb_psbend evb_tip evb_fup : nat.
Hypothesis Hpend : 2 <= evb_max_pend <= 256.

Lemma pt_event_pending_nonzero (d : pt_decoder) (evb : nat) :
  decoder_wf evb_max evb_max_pend d ->
  (evb < evb_max)%nat ->
  pt_event_pending evb_max evb_max_pend (Some d) evb <> 0
  <-> queue_events evb_max_pend d evb <> [].
Proof.
  intros (_ & _ & _ & Hq) Hevb. destruct (Hq evb Hevb) as (Hrow & Hb & He).
  unfold pt_event_pending, queue_events.
  destruct (Nat.leb_spec evb_max evb) as [|_]; [lia |].
  destruct (Z.leb_spec evb_max_pend (ev_begin d !!! evb)) as [|_]; [lia |].
  destruct (Z.leb_spec evb_max_pend (ev_end d !!! evb)) as [|_]; [lia |].
  destruct (Z.eqb_spec (ev_begin d !!! evb) (ev_end d !!! evb)) as [Heq | Hne].
  - rewrite Heq, ring_events_empty by exact Hpend.
    split; intros H; exfalso; apply H; reflexivity.
  - rewrite (ring_events_dequeue evb_max_pend Hpend _ _ _ Hb He Hne).
    split; intros _; discriminate.
Qed.

(** X12: [pt_alloc_decoder] returns a decoder exactly for a configuration of
    the right size whose buffer has two non-NULL ends in order, if there
    is memory; that decoder is in order, has no event waiting for any
    binding, is not synchronized, and reports offset 0 and status 0. *)
Theorem pt_alloc_decoder_in_order
    (calloc_result : option (last_ip * tnt_cache))
    (user_config : option pt_config_arg) :
  (is_Some (pt_alloc_decoder last_ip tnt_cache pt_last_ip_init
              pt_tnt_cache_init sizeof_config evb_max evb_max_pend
              calloc_result user_config)
   <-> is_Some calloc_result
       /\ exists c, user_config = Some c
                    /\ cfg_size c = sizeof_config
                    /\ cfg_begin (cfg_buffer c) <> NULL
                    /\ cfg_end (cfg_buffer c) <> NULL
                    /\ cfg_begin (cfg_buffer c) <= cfg_end (cfg_buffer c))
  /\ forall d r,
      pt_alloc_decoder last_ip tnt_cache pt_last_ip_init pt_tnt_cache_init
        sizeof_config evb_max evb_max_pend calloc_result user_config
      = Some (d, r) ->
      decoder_ok evb_max evb_max_pend d
      /\ (forall evb, queue_events evb_max_pend d evb = [])
      /\ (exists c, user_config = Some c /\ config d = cfg_buffer c)
      /\ pos d = NULL /\ sync d = NULL
      /\ pt_get_decoder_pos (Some d) = 0
      /\ pt_get_decoder_sync (Some d) = 0
      /\ pt_status_flags last_ip tnt_cache evb_max evb_max_pend
           pdff_event pdff_psbend pdff_tip pdff_fup
           evb_psbend evb_tip evb_fup (Some (d, r)) = 0.
Proof.
  unfold pt_alloc_decoder. split.
  - destruct user_config as [c |].
    + destruct (Z.eqb_spec (cfg_size c) sizeof_config) as [Hsize | Hsize];
        cbn [negb].
      * destruct (Z.eqb_spec (cfg_begin (cfg_buffer c)) NULL) as [Hb | Hb];
          destruct (Z.eqb_spec (cfg_end (cfg_buffer c)) NULL) as [He | He];
          cbn [orb];
          try (split; [intros [x Hx]; discriminate
                      | intros (_ & c' & Hc & _ & Hb' & He' & _);
                        inversion Hc; subst c'; contradiction]).
        destruct (Z.ltb_spec (cfg_end (cfg_buffer c))
                    (cfg_begin (cfg_buffer c))) as [Hlt | Hle].
        { split; [intros [x Hx]; discriminate
                 | intros (_ & c' & Hc & _ & _ & _ & Hle);
                   inversion Hc; subst c'; lia]. }
        destruct calloc_result as [[ip0 tnt0] |].
        { split; [| intros _; eexists; reflexivity].
          intros _. split; [eexists; reflexivity |].
          exists c. repeat split; assumption. }
        { split; [intros [x Hx]; discriminate
                 | intros ([x Hx] & _); discriminate]. }
      * split; [intros [x Hx]; discriminate
               | intros (_ & c' & Hc & Hsize' & _);
                 inversion Hc; subst c'; contradiction].
    + split; [intros [x Hx]; discriminate
             | intros (_ & c' & Hc & _); discriminate].
  - intros d r H. destruct user_config as [c |]; [| discriminate].
    destruct (negb (cfg_size c =? sizeof_config)); [discriminate |].
    destruct ((cfg_begin (cfg_buffer c) =? NULL)
              || (cfg_end (cfg_buffer c) =? NULL)); [discriminate |].
    destruct (cfg_end (cfg_buffer c) <? cfg_begin (cfg_buffer c));
      [discriminate |].
    destruct calloc_result as [[ip0 tnt0] |]; [| discriminate].
    inversion H; subst d r; clear H.
    destruct (decoder_init_ok evb_max evb_max_pend Hpend (cfg_buffer c))
      as [Hok Hempty].
    split; [exact Hok |]. split; [exact Hempty |].
    split; [exists c; split; reflexivity |].
    repeat split.
Qed.

(** The loop of [pt_reset] sets both indices of the bindings it visits
    to 0 and leaves everything else as it is. *)
Lemma pt_reset_loop_zeroes (n : nat) :
  forall (evb : nat) (d : pt_decoder),
    length (ev_begin d) = evb_max ->
    length (ev_end d) = evb_max ->
    (evb + n <= evb_max)%nat ->
    exists d',
      pt_reset_loop evb_max n evb (Some d) = Some d'
      /\ length (ev_begin d') = evb_max
      /\ length (ev_end d') = evb_max
      /\ ev_pend d' = ev_pend d
      /\ config d' = config d /\ pos d' = pos d /\ sync d' = sync d
      /\ forall b,
          ((evb <= b < evb + n)%nat ->
           ev_begin d' !!! b = 0 /\ ev_end d' !!! b = 0)
          /\ (~ (evb <= b < evb + n)%nat ->
              ev_begin d' !!! b = ev_begin d !!! b
              /\ ev_end d' !!! b = ev_end d !!! b).
Proof.
  induction n as [| n IH]; intros evb d Hlb Hle Hn.
  - exists d. repeat split; try assumption; try reflexivity; lia.
  - cbn [pt_reset_loop]. unfold pt_discard_events.
    destruct (Nat.leb_spec evb_max evb) as [|_]; [lia |].
    set (d1 := set_ev_end (set_ev_begin d evb 0) evb 0).
    destruct (IH (S evb) d1) as (d' & Hrun & Hlb' & Hle' & Hp & Hc & Hpos
                                 & Hsync & Hidx).
    { simpl. rewrite length_insert. exact Hlb. }
    { simpl. rewrite length_insert. exact Hle. }
    { lia. }
    exists d'. split; [exact Hrun |].
    split; [exact Hlb' |]. split; [exact Hle' |].
    split; [exact Hp |]. split; [exact Hc |]. split; [exact Hpos |].
    split; [exact Hsync |].
    intros b. destruct (Hidx b) as [Hin Hout]. split.
    + intros Hb. destruct (Nat.eq_dec b evb) as [-> | Hne].
      * destruct Hout as [-> ->]; [lia |].
        split; simpl; apply list_lookup_total_insert_eq; lia.
      * apply Hin. lia.
    + intros Hb. destruct Hout as [-> ->]; [lia |].
      split; simpl; apply list_lookup_total_insert_ne; lia.
Qed.

(** X13: [pt_reset] discards the events of every binding and clears flags,
    current event and time stamp; the trace buffer, the position and the
    synchronization point stay as they are, and so do the slots of the
    rings. *)
Theorem pt_reset_discards_all (d : pt_decoder)
    (r : pt_decoder_rest last_ip tnt_cache) :
  length (ev_begin d) = evb_max ->
  length (ev_end d) = evb_max ->
  exists d' r',
    pt_reset last_ip tnt_cache pt_last_ip_init pt_tnt_cache_init evb_max
      (Some (d, r)) = Some (d', r')
    /\ (forall evb, (evb < evb_max)%nat ->
          ev_begin d' !!! evb = 0
          /\ ev_end d' !!! evb = 0
          /\ queue_events evb_max_pend d' evb = []
          /\ pt_event_pending evb_max evb_max_pend (Some d') evb = 0
          /\ fst (pt_dequeue_event evb_max evb_max_pend (Some d') evb) = None)
    /\ ev_pend d' = ev_pend d
    /\ config d' = config d /\ pos d' = pos d /\ sync d' = sync d
    /\ dec_flags r' = 0 /\ dec_event r' = None /\ dec_tsc r' = 0
    /\ dec_next r' = dec_next r
    /\ dec_ip r' = pt_last_ip_init (dec_ip r)
    /\ dec_tnt r' = pt_tnt_cache_init (dec_tnt r).
Proof.
  intros Hlb Hle. unfold pt_reset.
  destruct (pt_reset_loop_zeroes evb_max 0 d Hlb Hle)
    as (d' & -> & _ & _ & Hp & Hc & Hpos & Hsync & Hidx); [lia |].
  eexists. eexists. split; [reflexivity |].
  split; [| repeat split; assumption].
  intros evb Hevb. destruct (Hidx evb) as [[Hb He] _]; [lia |].
  split; [exact Hb |]. split; [exact He |].
  split; [unfold queue_events; rewrite Hb, He;
          apply ring_events_empty; exact Hpend |].
  unfold pt_event_pending, pt_dequeue_event.
  destruct (Nat.leb_spec evb_max evb) as [|_]; [lia |].
  rewrite Hb, He.
  destruct (Z.leb_spec evb_max_pend 0) as [|_]; [lia |].
  split; reflexivity.
Qed.

Lemma flag_test_true (x : Z) : negb (x =? 0) = true <-> x <> 0.
Proof. destruct (Z.eqb_spec x 0); simpl; split; congruence. Qed.

Lemma flag_test_nested (a b : bool) (x y : Z) :
  (if a then if b then x else y else y) = if a && b then x else y.
Proof. destruct a, b; reflexivity. Qed.

(** One step of collecting the status: a flag word that is 0 or
    [pts_event_pending] stays so, and holds the flag afterwards exactly
    when it did before or the test succeeds. *)
Lemma flag_step (c : bool) (flags : Z) :
  flags = 0 \/ flags = 1 ->
  ((if c then Z.lor flags 1 else flags) = 0
   \/ (if c then Z.lor flags 1 else flags) = 1)
  /\ ((if c then Z.lor flags 1 else flags) = 1
      <-> c = true \/ flags = 1).
Proof.
  intros [-> | ->]; destruct c; simpl; split; try tauto;
    split; intros H; try tauto; try discriminate;
    destruct H; discriminate.
Qed.

(** X14: [pt_status_flags] answers [pts_event_pending] or nothing: an event
    is reported pending exactly when the next decode function is one for
    an event, or is one at which the events of a binding are released
    and an event waits for that binding. *)
Theorem pt_status_flags_pending (d : pt_decoder)
    (r : pt_decoder_rest last_ip tnt_cache) :
  decoder_wf evb_max evb_max_pend d ->
  (evb_psbend < evb_max)%nat ->
  (evb_tip < evb_max)%nat ->
  (evb_fup < evb_max)%nat ->
  (pt_status_flags last_ip tnt_cache evb_max evb_max_pend
     pdff_event pdff_psbend pdff_tip pdff_fup evb_psbend evb_tip evb_fup
     (Some (d, r)) = 0
   \/ pt_status_flags last_ip tnt_cache evb_max evb_max_pend
        pdff_event pdff_psbend pdff_tip pdff_fup evb_psbend evb_tip evb_fup
        (Some (d, r)) = pts_event_pending)
  /\ (pt_status_flags last_ip tnt_cache evb_max evb_max_pend
        pdff_event pdff_psbend pdff_tip pdff_fup evb_psbend evb_tip evb_fup
        (Some (d, r)) = pts_event_pending
      <-> exists dfun,
          dec_next r = Some dfun
          /\ (Z.land (dfun_flags dfun) pdff_event <> 0
              \/ (Z.land (dfun_flags dfun) pdff_psbend <> 0
                  /\ queue_events evb_max_pend d evb_psbend <> [])
              \/ (Z.land (dfun_flags dfun) pdff_tip <> 0
                  /\ queue_events evb_max_pend d evb_tip <> [])
              \/ (Z.land (dfun_flags dfun) pdff_fup <> 0
                  /\ queue_events evb_max_pend d evb_fup <> []))).
Proof.
  intros Hwf Hpsbend Htip Hfup.
  pose proof (pt_event_pending_nonzero d evb_psbend Hwf Hpsbend) as Hp1.
  pose proof (pt_event_pending_nonzero d evb_tip Hwf Htip) as Hp2.
  pose proof (pt_event_pending_nonzero d evb_fup Hwf Hfup) as Hp3.
  unfold pt_status_flags. cbv zeta.
  destruct (dec_next r) as [dfun |].
  2: { split; [left; reflexivity |].
       split; [intros H; vm_compute in H; discriminate
              | intros (dfun & H & _); discriminate]. }
  change pts_event_pending with 1.
  pose proof (flag_test_true (Z.land (dfun_flags dfun) pdff_event)) as Hc0.
  pose proof (flag_test_true (Z.land (dfun_flags dfun) pdff_psbend)) as Ha1.
  pose proof (flag_test_true (Z.land (dfun_flags dfun) pdff_tip)) as Ha2.
  pose proof (flag_test_true (Z.land (dfun_flags dfun) pdff_fup)) as Ha3.
  pose proof (flag_test_true (pt_event_pending evb_max evb_max_pend (Some d)
                                evb_psbend)) as Hb1.
  pose proof (flag_test_true (pt_event_pending evb_max evb_max_pend (Some d)
                                evb_tip)) as Hb2.
  pose proof (flag_test_true (pt_event_pending evb_max evb_max_pend (Some d)
                                evb_fup)) as Hb3.
  set (c0 := negb (Z.land (dfun_flags dfun) pdff_event =? 0)) in *.
  set (a1 := negb (Z.land (dfun_flags dfun) pdff_psbend =? 0)) in *.
  set (a2 := negb (Z.land (dfun_flags dfun) pdff_tip =? 0)) in *.
  set (a3 := negb (Z.land (dfun_flags dfun) pdff_fup =? 0)) in *.
  set (b1 := negb (pt_event_pending evb_max evb_max_pend (Some d)
                     evb_psbend =? 0)) in *.
  set (b2 := negb (pt_event_pending evb_max evb_max_pend (Some d)
                     evb_tip =? 0)) in *.
  set (b3 := negb (pt_event_pending evb_max evb_max_pend (Some d)
                     evb_fup =? 0)) in *.
  rewrite !flag_test_nested.
  pose proof (flag_step c0 0 (or_introl eq_refl)) as [H0 H0'].
  pose proof (flag_step (a1 && b1) _ H0) as [H1 H1'].
  pose proof (flag_step (a2 && b2) _ H1) as [H2 H2'].
  pose proof (flag_step (a3 && b3) _ H2) as [H3 H3'].
  split; [exact H3 |].
  rewrite H3', H2', H1', H0', !andb_true_iff.
  rewrite Hc0, Ha1, Ha2, Ha3, Hb1, Hb2, Hb3, Hp1, Hp2, Hp3.
  clear. split.
  - intros H. exists dfun. split; [reflexivity |].
    destruct H as [H | [H | [H | [H | H]]]].
    + right; right; right. exact H.
    + right; right; left. exact H.
    + right; left. exact H.
    + left. exact H.
    + discriminate.
  - intros (dfun' & Hd & H). inversion Hd; subst dfun'.
    destruct H as [H | [H | [H | H]]].
    + right; right; right; left. exact H.
    + right; right; left. exact H.
    + right; left. exact H.
    + left. exact H.
Qed.

End DecoderStateProps.

(** ** Recording and checking the status of a file *)

(** X15: [pt_section_mk_status] either succeeds and stores the status
    [_fstat] answered together with the size of the file, or it returns
    one of three errors and stores nothing; a file it opened is closed
    again on every path. *)
Theorem pt_section_mk_status_outcomes (env : os_env) (pstatus psize : bool)
    (filename : option string) (errcode : Z)
    (status : option pt_sec_windows_status) (size : option Z)
    (tr : list os_call) :
  pt_section_mk_status env pstatus psize filename
  = (errcode, status, size, tr) ->
  ((errcode = 0
    /\ pstatus = true /\ psize = true
    /\ exists name st,
        filename = Some name
        /\ os_open env <> -1
        /\ os_fstat env = Some st
        /\ 0 <= st_size st
        /\ os_malloc env = true
        /\ status = Some {| status_stat := st |}
        /\ size = Some (uint64 (st_size st)))
   \/ ((errcode = - pte_internal \/ errcode = - pte_bad_image
        \/ errcode = - pte_nomem)
       /\ status = None /\ size = None))
  /\ (forall name, In (call_open name) tr -> os_open env <> -1 ->
                   In (call_close (os_open env)) tr).
Proof.
  unfold pt_section_mk_status, pt_sec_windows_fstat.
  destruct pstatus, psize; cbn [negb orb];
    try (intros H; inversion H; subst; split;
         [right; repeat split; left; reflexivity | intros ? []]).
  destruct filename as [name |].
  2: { intros H; inversion H; subst. split;
       [right; repeat split; left; reflexivity | intros ? []]. }
  destruct (Z.eqb_spec (os_open env) (-1)) as [Hopen | Hopen].
  { intros H; inversion H; subst. split;
      [right; repeat split; right; left; reflexivity |].
    intros ? _ Hne. contradiction. }
  destruct (os_fstat env) as [st |] eqn:Hstat.
  2: { intros H; inversion H; subst. split;
       [right; repeat split; right; left; reflexivity |].
       intros ? _ _. simpl. tauto. }
  destruct (Z.ltb_spec (st_size st) 0) as [Hneg | Hpos].
  { intros H; inversion H; subst. split;
      [right; repeat split; right; left; reflexivity |].
    intros ? _ _. simpl. tauto. }
  destruct (os_malloc env) eqn:Hmalloc; cbn [negb].
  - intros H; inversion H; subst. split.
    + left. repeat split. exists name, st. repeat split; assumption.
    + intros ? _ _. simpl. tauto.
  - intros H; inversion H; subst. split;
      [right; repeat split; right; right; reflexivity |].
    intros ? _ _. simpl. tauto.
Qed.

(** X16: [check_file_status] accepts a file exactly when [_fstat] succeeds,
    the section has a recorded status, and size and modification time
    are the recorded ones; no other field of the status is compared.
    It asks for the status at most once and makes no other call. *)
Theorem check_file_status_accepts (env : os_env) (s : pt_section) (fd : Z) :
  (fst (check_file_status env (Some s) fd) = 0
   <-> exists st status,
       os_fstat env = Some st
       /\ sec_status s = Some status
       /\ st_size st = st_size (status_stat status)
       /\ st_mtime st = st_mtime (status_stat status))
  /\ (fst (check_file_status env (Some s) fd) = 0
      \/ fst (check_file_status env (Some s) fd) = - pte_bad_image
      \/ fst (check_file_status env (Some s) fd) = - pte_internal)
  /\ snd (check_file_status env (Some s) fd) = [call_fstat fd].
Proof.
  unfold check_file_status.
  destruct (os_fstat env) as [st |].
  2: { split; [| split; [right; left; reflexivity | reflexivity]].
       split; [intros H; vm_compute in H; discriminate
              | intros (? & ? & H & _); discriminate]. }
  destruct (sec_status s) as [status |].
  2: { split; [| split; [right; right; reflexivity | reflexivity]].
       split; [intros H; vm_compute in H; discriminate
              | intros (? & ? & _ & H & _); discriminate]. }
  destruct (Z.eqb_spec (st_size st) (st_size (status_stat status)))
    as [Hsize | Hsize]; cbn [negb].
  - destruct (Z.eqb_spec (st_mtime st) (st_mtime (status_stat status)))
      as [Hmtime | Hmtime]; cbn [negb].
    + split; [| split; [left; reflexivity | reflexivity]].
      split; [intros _; exists st, status; repeat split; assumption
             | intros _; reflexivity].
    + split; [| split; [right; left; reflexivity | reflexivity]].
      split; [intros H; vm_compute in H; discriminate |].
      intros (st' & status' & H1 & H2 & _ & H4).
      inversion H1; inversion H2; subst. contradiction.
  - split; [| split; [right; left; reflexivity | reflexivity]].
    split; [intros H; vm_compute in H; discriminate |].
    intros (st' & status' & H1 & H2 & H3 & _).
    inversion H1; inversion H2; subst. contradiction.
Qed.

(** ** Mapping a view *)

Lemma uint32_split (z : Z) :
  0 <= z < 2 ^ 64 ->
  uint32 (Z.shiftr z 32) * 2 ^ 32 + uint32 z = z.
Proof.
  intros Hz. unfold uint32. rewrite Z.shiftr_div_pow2 by lia.
  rewrite (Z.mod_small (z / 2 ^ 32)).
  - pose proof (Z.div_mod z (2 ^ 32)). lia.
  - split; [apply Z.div_pos; lia |].
    apply Z.div_lt_upper_bound; lia.
Qed.

(** What [pt_sec_windows_map] computes, path by path. *)
Lemma pt_sec_windows_map_cases (env : os_env) (s : pt_section) (fd : Z) :
  let adjustment := sec_offset s mod os_granularity env in
  let size := uint64 (sec_size s + adjustment) in
  let offset := uint64 (sec_offset s - adjustment) in
  let mh := os_create_file_mapping env in
  let base := os_map_view_of_file env in
  let ask := [call_get_system_info; call_get_osfhandle fd;
              call_create_file_mapping (os_get_osfhandle env)] in
  let view := call_map_view_of_file mh (uint32 (Z.shiftr offset 32))
                (uint32 offset) (uint32 size) in
  (pt_sec_windows_map env (Some s) fd
   = (- pte_internal, Some s, [call_get_system_info])
   /\ (size < sec_size s \/ 2 ^ 32 <= size))
  \/ (pt_sec_windows_map env (Some s) fd = (- pte_bad_image, Some s, ask)
      /\ mh = NULL)
  \/ (pt_sec_windows_map env (Some s) fd
      = (- pte_bad_image, Some s, ask ++ [view; call_close_handle mh])
      /\ mh <> NULL /\ base = NULL)
  \/ (pt_sec_windows_map env (Some s) fd
      = (- pte_bad_image, Some s,
         ask ++ [view; call_malloc; call_unmap_view_of_file base;
                 call_close_handle mh])
      /\ mh <> NULL /\ base <> NULL /\ os_malloc env = false)
  \/ (pt_sec_windows_map env (Some s) fd
      = (0,
         Some (set_mapping s
                 (Some {| map_fd := fd; map_mh := mh; map_base := base;
                          map_begin := ptr_add base adjustment;
                          map_end := ptr_add base size |})
                 (Some fn_pt_sec_windows_unmap)
                 (Some fn_pt_sec_windows_read)),
         ask ++ [view; call_malloc])
      /\ sec_size s <= size < 2 ^ 32
      /\ mh <> NULL /\ base <> NULL /\ os_malloc env = true).
Proof.
  intros adjustment size offset mh base ask view.
  unfold pt_sec_windows_map, granularity. cbv zeta. fold adjustment.
  fold size. fold offset. fold mh. fold base.
  assert (Hsize : 0 <= size < 2 ^ 64) by apply uint64_range.
  destruct (Z.ltb_spec size (sec_size s)) as [Hlt | Hge].
  { left. split; [reflexivity | left; exact Hlt]. }
  destruct (Z.eqb_spec (uint32 size) size) as [Hd | Hd]; cbn [negb].
  2: { left. split; [reflexivity |]. right.
       destruct (Z_lt_dec size (2 ^ 32)) as [Hsmall |]; [| lia].
       exfalso. apply Hd. unfold uint32. apply Z.mod_small. lia. }
  assert (Hsmall : size < 2 ^ 32).
  { rewrite <- Hd. unfold uint32. apply Z.mod_pos_bound. lia. }
  right. destruct (Z.eqb_spec mh NULL) as [Hmh | Hmh].
  { left. split; [reflexivity | exact Hmh]. }
  right. destruct (Z.eqb_spec base NULL) as [Hbase | Hbase].
  { left. split; [reflexivity | split; assumption]. }
  right. destruct (os_malloc env) eqn:Hmalloc; cbn [negb].
  - right. split; [reflexivity |]. repeat split; try assumption.
  - left. split; [reflexivity |]. repeat split; assumption.
Qed.

(** X17: a view [pt_sec_windows_map] installs covers the section exactly: it
    begins at the section's offset within a view that starts on a
    multiple of the allocation granularity, it is as long as the
    section, the view asked for is smaller than 4 GiB, and nothing else
    in the section changes. *)
Theorem pt_sec_windows_map_covers_section (env : os_env) (s s' : pt_section)
    (fd : Z) (tr : list os_call) :
  0 < os_granularity env ->
  0 <= sec_offset s < 2 ^ 64 ->
  0 <= sec_size s ->
  0 <= os_map_view_of_file env ->
  os_map_view_of_file env + sec_offset s mod os_granularity env + sec_size s
  < 2 ^ 64 ->
  pt_sec_windows_map env (Some s) fd = (0, Some s', tr) ->
  let adjustment := sec_offset s mod os_granularity env in
  exists mapping offset_high offset_low,
    sec_mapping s' = Some mapping
    /\ sec_unmap s' = Some fn_pt_sec_windows_unmap
    /\ sec_read s' = Some fn_pt_sec_windows_read
    /\ map_fd mapping = fd
    /\ map_mh mapping = os_create_file_mapping env
    /\ map_base mapping = os_map_view_of_file env
    /\ map_begin mapping = map_base mapping + adjustment
    /\ map_end mapping = map_begin mapping + sec_size s
    /\ In (call_map_view_of_file (map_mh mapping) offset_high offset_low
             (adjustment + sec_size s)) tr
    /\ offset_high * 2 ^ 32 + offset_low = sec_offset s - adjustment
    /\ (sec_offset s - adjustment) mod os_granularity env = 0
    /\ 0 <= adjustment < os_granularity env
    /\ adjustment + sec_size s < 2 ^ 32
    /\ sec_filename s' = sec_filename s /\ sec_offset s' = sec_offset s
    /\ sec_size s' = sec_size s /\ sec_status s' = sec_status s
    /\ sec_mcount s' = sec_mcount s.
Proof.
  intros Hgran Hoffset Hsize Hbase Htop Hmap adjustment.
  pose proof (Z.mod_pos_bound (sec_offset s) (os_granularity env) Hgran)
    as Hadj. fold adjustment in Hadj, Htop.
  assert (Hsz : uint64 (sec_size s + adjustment) = sec_size s + adjustment)
    by (apply uint64_small; lia).
  assert (Hle : adjustment <= sec_offset s)
    by (apply Z.mod_le; lia).
  assert (Hoff : uint64 (sec_offset s - adjustment)
                 = sec_offset s - adjustment)
    by (apply uint64_small; lia).
  destruct (pt_sec_windows_map_cases env s fd)
    as [[H _] | [[H _] | [[H _] | [[H _] | [H (Hlim & _)]]]]];
    cbv zeta in H; rewrite H in Hmap; inversion Hmap; subst s' tr;
    clear Hmap H.
  fold adjustment in Hlim. rewrite Hsz in Hlim.
  fold adjustment. rewrite Hsz, Hoff.
  eexists. exists (uint32 (Z.shiftr (sec_offset s - adjustment) 32)),
    (uint32 (sec_offset s - adjustment)).
  split; [reflexivity |].
  cbn [sec_mapping sec_unmap sec_read set_mapping map_fd map_mh map_base
       map_begin map_end sec_filename sec_offset sec_size sec_status
       sec_mcount].
  do 5 (split; [reflexivity |]).
  split; [apply ptr_add_no_wrap; lia |].
  split; [rewrite !ptr_add_no_wrap by lia; lia |].
  split.
  { simpl. do 3 right. left. f_equal.
    unfold uint32. rewrite Z.mod_small by lia. lia. }
  split; [apply uint32_split; lia |].
  split.
  { unfold adjustment. rewrite Zminus_mod_idemp_r, Z.sub_diag.
    apply Z.mod_0_l. lia. }
  split; [exact Hadj |]. split; [lia |].
  repeat split.
Qed.

(** X18: a failing [pt_sec_windows_map] leaves the section as it was,
    returns [- pte_internal] or [- pte_bad_image], gives back the mapping
    handle and the view it had got, and does not close the file. *)
Theorem pt_sec_windows_map_failure_releases (env : os_env) (s : pt_section)
    (fd : Z) (errcode : Z) (section' : option pt_section)
    (tr : list os_call) :
  pt_sec_windows_map env (Some s) fd = (errcode, section', tr) ->
  errcode <> 0 ->
  section' = Some s
  /\ (errcode = - pte_internal \/ errcode = - pte_bad_image)
  /\ (In (call_create_file_mapping (os_get_osfhandle env)) tr ->
      os_create_file_mapping env <> NULL ->
      In (call_close_handle (os_create_file_mapping env)) tr)
  /\ ((exists hi lo dsize,
          In (call_map_view_of_file (os_create_file_mapping env) hi lo dsize)
             tr) ->
      os_map_view_of_file env <> NULL ->
      In (call_unmap_view_of_file (os_map_view_of_file env)) tr)
  /\ ~ In (call_close fd) tr.
Proof.
  intros Hmap Herr.
  destruct (pt_sec_windows_map_cases env s fd)
    as [[H _] | [[H Hmh] | [[H (Hmh & Hbase)]
       | [[H (Hmh & Hbase & _)] | [H _]]]]];
    cbv zeta in H; rewrite H in Hmap; inversion Hmap; subst; clear Hmap H.
  - split; [reflexivity |]. split; [left; reflexivity |].
    split; [intros [H | []]; discriminate |].
    split; [intros (? & ? & ? & [H | []]); discriminate |].
    intros [H | []]; discriminate.
  - split; [reflexivity |]. split; [right; reflexivity |].
    split; [intros _ Hne; contradiction |].
    split; [intros (? & ? & ? & [H | [H | [H | []]]]); discriminate |].
    intros [H | [H | [H | []]]]; discriminate.
  - split; [reflexivity |]. split; [right; reflexivity |].
    split; [intros _ _; simpl; tauto |].
    split; [intros _ Hne; contradiction |].
    intros [H | [H | [H | [H | [H | []]]]]]; discriminate.
  - split; [reflexivity |]. split; [right; reflexivity |].
    split; [intros _ _; simpl; tauto |].
    split; [intros _ _; simpl; tauto |].
    intros [H | [H | [H | [H | [H | [H | [H | []]]]]]]]; discriminate.
  - contradiction.
Qed.

(** X19: unmapping undoes mapping: on the section [pt_sec_windows_map] has
    mapped, [pt_sec_windows_unmap] takes the view away again, closes the
    mapping handle and the file, and leaves the section as it was before
    it was mapped; a second unmap is refused. *)
Theorem pt_sec_windows_unmap_undoes_map (env : os_env) (s s' : pt_section)
    (fd : Z) (tr : list os_call) :
  sec_mapping s = None ->
  sec_unmap s = None ->
  sec_read s = None ->
  pt_sec_windows_map env (Some s) fd = (0, Some s', tr) ->
  pt_sec_windows_unmap (Some s')
  = (0, Some s,
     [call_unmap_view_of_file
        (ptr_add (os_map_view_of_file env)
           (sec_offset s mod os_granularity env));
      call_close_handle (os_create_file_mapping env);
      call_close fd;
      call_free])
  /\ pt_sec_windows_unmap (Some s) = (- pte_internal, Some s, []).
Proof.
  intros Hm Hu Hr Hmap.
  destruct (pt_sec_windows_map_cases env s fd)
    as [[H _] | [[H _] | [[H _] | [[H _] | [H _]]]]];
    cbv zeta in H; rewrite H in Hmap; inversion Hmap; subst s' tr;
    clear Hmap H.
  split.
  - unfold pt_sec_windows_unmap. simpl.
    destruct s; simpl in *; subst. reflexivity.
  - unfold pt_sec_windows_unmap. rewrite Hm. reflexivity.
Qed.

(** ** Mapping a section, path by path *)

Lemma check_file_status_trace (env : os_env) (s : pt_section) (fd : Z) :
  check_file_status env (Some s) fd
  = (fst (check_file_status env (Some s) fd), [call_fstat fd]).
Proof.
  unfold check_file_status.
  destruct (os_fstat env); [| reflexivity].
  destruct (sec_status s); [| reflexivity].
  destruct (negb _); [reflexivity |].
  destruct (negb _); reflexivity.
Qed.

Ltac pt_section_map_paths env s :=
  unfold pt_section_map;
  rewrite (check_file_status_trace env s (os_open_osfhandle env));
  destruct (pt_sec_windows_map_cases env s (os_open_osfhandle env))
    as [[Hw ?] | [[Hw ?] | [[Hw ?] | [[Hw ?] | [Hw ?]]]]];
  cbv zeta in Hw; rewrite Hw; clear Hw;
  repeat match goal with
         | |- context [if ?c then _ else _] => destruct c eqn:?
         | |- context [match ?x with _ => _ end] => destruct x eqn:?
         end.

(** X20: a call of [pt_section_map] that returns an error leaves the section
    as it was: nothing is counted and nothing is installed.  The file
    based fallback, which is not among the sources, is taken to do the
    same when it fails, and unlocking to succeed. *)
Theorem pt_section_map_failure_keeps_section (env : os_env) (s : pt_section)
    (errcode : Z) (section' : option pt_section) (tr : list os_call) :
  0 <= os_unlock env ->
  (forall s0 file, fst (os_sec_file_map env s0 file) <> 0 ->
                   snd (os_sec_file_map env s0 file) = s0) ->
  pt_section_map env (Some s) = (errcode, section', tr) ->
  errcode < 0 ->
  section' = Some s.
Proof.
  intros Hunlock Hfile. revert errcode section' tr.
  pt_section_map_paths env s;
    intros errcode section' tr Hres Hneg; inversion Hres; subst;
    try reflexivity; try lia.
  all: match goal with
       | Hf : os_sec_file_map _ ?s0 ?f = (?e, ?s1),
         Hz : (?e =? 0) = false |- _ =>
           let Hs := fresh in
           pose proof (Hfile s0 f) as Hs; rewrite Hf in Hs;
           cbn [fst snd] in Hs; rewrite Hs;
           [reflexivity | apply Z.eqb_neq; exact Hz]
       end.
Qed.



(** X22: the first mapping of a section whose file is unchanged, on a system
    that grants the view: the map count becomes 1, the view is
    installed, the lock is released, and the file stays open: neither
    the file descriptor nor the file handle is closed. *)
Theorem pt_section_map_first_maps (env : os_env) (s s' : pt_section)
    (name : string) (status : pt_sec_windows_status) (st : win_stat)
    (trm : list os_call) :
  0 <= os_lock env ->
  sec_mcount s = 0 ->
  sec_mapping s = None ->
  sec_filename s = Some name ->
  sec_status s = Some status ->
  os_create_file_read env <> INVALID_HANDLE_VALUE
  \/ os_create_file_write env <> INVALID_HANDLE_VALUE ->
  os_open_osfhandle env <> -1 ->
  os_fstat env = Some st ->
  st_size st = st_size (status_stat status) ->
  st_mtime st = st_mtime (status_stat status) ->
  pt_sec_windows_map env (Some s) (os_open_osfhandle env)
  = (0, Some s', trm) ->
  exists fh opens,
    pt_section_map env (Some s)
    = (os_unlock env, Some (set_mcount s' 1),
       [call_section_lock] ++ opens
       ++ [call_open_osfhandle fh; call_fstat (os_open_osfhandle env)]
       ++ trm ++ [call_section_unlock])
    /\ fh <> INVALID_HANDLE_VALUE
    /\ (fh = os_create_file_read env \/ fh = os_create_file_write env)
    /\ sec_mcount (set_mcount s' 1) = 1
    /\ (exists mapping,
          sec_mapping (set_mcount s' 1) = Some mapping
          /\ map_fd mapping = os_open_osfhandle env)
    /\ sec_read (set_mcount s' 1) = Some fn_pt_sec_windows_read
    /\ sec_unmap (set_mcount s' 1) = Some fn_pt_sec_windows_unmap
    /\ ~ In (call_close (os_open_osfhandle env)) (opens ++ trm)
    /\ ~ In (call_close_handle fh) (opens ++ trm).
Proof.
  intros Hlock Hcount Hmapping Hname Hstatus Hopen Hfd Hstat Hsize Hmtime
    Hmap.
  assert (Hs' : exists m, sec_mapping s' = Some m
                          /\ map_fd m = os_open_osfhandle env
                          /\ sec_read s' = Some fn_pt_sec_windows_read
                          /\ sec_unmap s' = Some fn_pt_sec_windows_unmap
                          /\ (forall c, In c trm ->
                                match c with
                                | call_close _ | call_close_handle _ => False
                                | _ => True
                                end)).
  { destruct (pt_sec_windows_map_cases env s (os_open_osfhandle env))
      as [[H _] | [[H _] | [[H _] | [[H _] | [H _]]]]];
      cbv zeta in H; rewrite H in Hmap; inversion Hmap; subst s' trm.
    eexists. split; [reflexivity |]. repeat split.
    intros c [<- | [<- | [<- | [<- | [<- | []]]]]]; exact I. }
  destruct Hs' as (m & Hm & Hmfd & Hread & Hunmap & Htrm).
  assert (Hcheck : check_file_status env (Some s) (os_open_osfhandle env)
                   = (0, [call_fstat (os_open_osfhandle env)])).
  { unfold check_file_status.
    rewrite Hstat, Hstatus, Hsize, Hmtime, !Z.eqb_refl. reflexivity. }
  unfold pt_section_map.
  destruct (Z.ltb_spec (os_lock env) 0) as [| _]; [lia |].
  rewrite Hcount, Hmapping, Hname. change (uint16 (0 + 1)) with 1.
  change (1 <? 1) with false. change (1 =? 0) with false. cbv iota.
  destruct (Z.eqb_spec (os_create_file_read env) INVALID_HANDLE_VALUE)
    as [Hro | Hro].
  - destruct Hopen as [Hopen | Hopen]; [contradiction |].
    exists (os_create_file_write env),
      [call_create_file name FILE_SHARE_READ;
       call_create_file name FILE_SHARE_WRITE].
    destruct (Z.eqb_spec (os_create_file_write env) INVALID_HANDLE_VALUE)
      as [| _]; [contradiction |].
    destruct (Z.eqb_spec (os_open_osfhandle env) (-1)) as [| _];
      [contradiction |].
    rewrite Hcheck, Hmap. cbn [Z.ltb Z.compare Z.eqb].
    split; [rewrite <- !app_assoc; reflexivity |].
    split; [exact Hopen |]. split; [right; reflexivity |].
    split; [reflexivity |].
    split; [exists m; split; assumption |].
    split; [exact Hread |]. split; [exact Hunmap |].
    split; intros [H | [H | H]]; try discriminate;
      apply Htrm in H; exact H.
  - exists (os_create_file_read env),
      [call_create_file name FILE_SHARE_READ].
    destruct (Z.eqb_spec (os_create_file_read env) INVALID_HANDLE_VALUE)
      as [| _]; [contradiction |].
    destruct (Z.eqb_spec (os_open_osfhandle env) (-1)) as [| _];
      [contradiction |].
    rewrite Hcheck, Hmap. cbn [Z.ltb Z.compare Z.eqb].
    split; [rewrite <- !app_assoc; reflexivity |].
    split; [exact Hro |]. split; [left; reflexivity |].
    split; [reflexivity |].
    split; [exists m; split; assumption |].
    split; [exact Hread |]. split; [exact Hunmap |].
    split; intros [H | H]; try discriminate;
      apply Htrm in H; exact H.
Qed.

Lemma pt_section_map_counting (env : os_env) (s : pt_section) :
  0 <= os_lock env ->
  1 <= sec_mcount s < 65535 ->
  pt_section_map env (Some s)
  = (os_unlock env, Some (set_mcount s (sec_mcount s + 1)),
     [call_section_lock; call_section_unlock]).
Proof.
  intros Hlock Hcount. unfold pt_section_map.
  destruct (Z.ltb_spec (os_lock env) 0) as [| _]; [lia |].
  unfold uint16. rewrite Z.mod_small by lia.
  destruct (Z.ltb_spec 1 (sec_mcount s + 1)) as [_ |]; [reflexivity | lia].
Qed.

(** X23: mapping a mapped section [k] more times adds [k] to its map count,
    touches nothing but the lock, and changes nothing else in the
    section, as long as the count stays within 65535; when it has
    reached 65535 the next mapping is refused. *)
Theorem pt_section_map_n_counts (env : os_env) (k : nat) :
  forall s : pt_section,
    0 <= os_lock env ->
    os_unlock env = 0 ->
    1 <= sec_mcount s ->
    sec_mcount s + Z.of_nat k <= 65535 ->
    exists s',
      pt_section_map_n env k (Some s)
      = (0, Some s',
         concat (replicate k [call_section_lock; call_section_unlock]))
      /\ sec_mcount s' = sec_mcount s + Z.of_nat k
      /\ sec_mapping s' = sec_mapping s
      /\ sec_read s' = sec_read s
      /\ sec_unmap s' = sec_unmap s
      /\ sec_status s' = sec_status s
      /\ sec_filename s' = sec_filename s
      /\ sec_offset s' = sec_offset s
      /\ sec_size s' = sec_size s
      /\ (sec_mcount s + Z.of_nat k = 65535 ->
          pt_section_map env (Some s')
          = (- pte_internal, Some s',
             [call_section_lock; call_section_unlock])).
Proof.
  induction k as [| k IH]; intros s Hlock Hunlock Hmin Hmax.
  - exists s. split; [reflexivity |].
    split; [simpl; lia |]. do 7 (split; [reflexivity |]).
    intros Hfull. unfold pt_section_map.
    destruct (Z.ltb_spec (os_lock env) 0) as [| _]; [lia |].
    replace (sec_mcount s) with 65535 by (simpl in Hfull; lia).
    reflexivity.
  - cbn [pt_section_map_n].
    rewrite pt_section_map_counting by lia.
    rewrite Hunlock. cbn [Z.eqb].
    destruct (IH (set_mcount s (sec_mcount s + 1)))
      as (s' & Hrun & Hcount & Hrest); try assumption.
    { simpl. lia. }
    { simpl. lia. }
    rewrite Hrun. exists s'. split; [reflexivity |].
    split; [rewrite Hcount; simpl; lia |].
    destruct Hrest as (H1 & H2 & H3 & H4 & H5 & H6 & H7 & Hfull).
    do 7 (split; [assumption |]).
    intros Hk. apply Hfull. simpl. lia.
Qed.

(** ** More about reading *)

Lemma map_seq_from {A : Type} (f : nat -> A) (n len : nat) :
  map f (seq n len) = map (fun i => f (n + i)%nat) (seq 0 len).
Proof.
  revert f n. induction len as [| len IH]; intros f n; [reflexivity |].
  cbn [seq map]. rewrite Nat.add_0_r. f_equal.
  rewrite (IH f (S n)), (IH (fun i => f (n + i)%nat) 1%nat).
  apply map_ext. intros i. f_equal. lia.
Qed.

Lemma mem_bytes_app (mem : ptr -> Byte.byte) (p : ptr) (a b : Z) :
  0 <= a -> 0 <= b ->
  mem_bytes mem p (a + b) = mem_bytes mem p a ++ mem_bytes mem (p + a) b.
Proof.
  intros Ha Hb. unfold mem_bytes.
  rewrite Z2Nat.inj_add by assumption.
  rewrite seq_app, map_app. f_equal.
  rewrite map_seq_from. apply map_ext. intros i. f_equal. lia.
Qed.

(** What a read inside the view returns, when its addresses do not
    wrap. *)
Lemma pt_sec_windows_read_inside (mem : ptr -> Byte.byte) (s : pt_section)
    (mapping : pt_sec_windows_mapping) (buf : list Byte.byte)
    (size offset : Z) :
  sec_mapping s = Some mapping ->
  0 <= map_begin mapping ->
  map_begin mapping + offset < map_end mapping ->
  map_begin mapping + offset + size < 2 ^ 64 ->
  0 <= size < 2 ^ 16 -> 0 <= offset ->
  pt_sec_windows_read mem (Some s) (Some buf) size offset
  = (Z.min size (map_end mapping - map_begin mapping - offset),
     Some (mem_bytes mem (map_begin mapping + offset)
             (Z.min size (map_end mapping - map_begin mapping - offset))
           ++ drop (Z.to_nat
                      (Z.min size
                         (map_end mapping - map_begin mapping - offset)))
                buf)).
Proof.
  intros Hmap Hb Hin Htop Hsize Hoffset.
  unfold pt_sec_windows_read. rewrite Hmap. cbv zeta.
  rewrite (ptr_add_no_wrap (map_begin mapping) offset) by lia.
  rewrite (ptr_add_no_wrap (map_begin mapping + offset) size) by lia.
  destruct (Z.ltb_spec (map_begin mapping + offset + size)
              (map_begin mapping + offset)) as [| _]; [lia |].
  destruct (Z.leb_spec (map_end mapping) (map_begin mapping + offset))
    as [| _]; [lia |].
  destruct (Z.ltb_spec (map_begin mapping + offset) (map_begin mapping))
    as [| _]; [lia |].
  match goal with
  | |- context [int32 ?bytes] =>
      assert (Hn : bytes
                   = Z.min size (map_end mapping - map_begin mapping - offset))
  end.
  { destruct (Z.ltb_spec (map_end mapping)
                (map_begin mapping + offset + size)); lia. }
  rewrite Hn, int32_small by lia.
  rewrite memcpy_mem_bytes. reflexivity.
Qed.

(** X24: every outcome of a read from a mapped section: it answers
    [- pte_nomap] and leaves the buffer alone, or it copies [n] bytes of
    the view, all of them inside it, where [n] is at most [size] and at
    least 1 unless [size] is 0, and leaves the rest of the buffer
    alone. *)
Theorem pt_sec_windows_read_outcomes (mem : ptr -> Byte.byte)
    (s : pt_section) (mapping : pt_sec_windows_mapping)
    (buf : list Byte.byte) (size offset : Z) :
  sec_mapping s = Some mapping ->
  0 <= map_begin mapping <= map_end mapping ->
  map_end mapping < 2 ^ 64 ->
  0 <= size < 2 ^ 16 ->
  0 <= offset < 2 ^ 64 ->
  pt_sec_windows_read mem (Some s) (Some buf) size offset
  = (- pte_nomap, Some buf)
  \/ exists n,
      pt_sec_windows_read mem (Some s) (Some buf) size offset
      = (n, Some (mem_bytes mem (map_begin mapping + offset) n
                  ++ drop (Z.to_nat n) buf))
      /\ 0 <= n <= size
      /\ (0 < size -> 0 < n)
      /\ map_begin mapping + offset + n <= map_end mapping
      /\ offset < map_end mapping - map_begin mapping.
Proof.
  intros Hmap Hrange Htop Hsize Hoffset.
  unfold pt_sec_windows_read. rewrite Hmap. cbv zeta.
  assert (Hb : 0 <= map_begin mapping < 2 ^ 64) by lia.
  destruct (ptr_add_cases (map_begin mapping) offset Hb Hoffset)
    as [Hbegin Hbegin'].
  set (begin := ptr_add (map_begin mapping) offset) in *.
  assert (Hsize' : 0 <= size < 2 ^ 64) by lia.
  destruct (ptr_add_cases begin size Hbegin Hsize') as [Hend Hend'].
  set (end_ := ptr_add begin size) in *.
  destruct (Z.ltb_spec end_ begin) as [| Hge]; [left; reflexivity |].
  destruct (Z.leb_spec (map_end mapping) begin) as [| Hlt];
    [left; reflexivity |].
  destruct (Z.ltb_spec begin (map_begin mapping)) as [| Hin];
    [left; reflexivity |].
  right.
  assert (Hbegin_eq : begin = map_begin mapping + offset) by lia.
  assert (Hend_eq : end_ = begin + size) by lia.
  match goal with
  | |- context [int32 ?bytes] => set (n := bytes)
  end.
  assert (Hn : 0 <= n <= size /\ (0 < size -> 0 < n)
               /\ begin + n <= map_end mapping).
  { unfold n. destruct (Z.ltb_spec (map_end mapping) end_); lia. }
  exists n. rewrite int32_small by lia.
  rewrite memcpy_mem_bytes, <- Hbegin_eq.
  split; [reflexivity |]. repeat split; lia.
Qed.

(** X25: two reads in a row give what one read of both sizes gives: when the
    first read ends inside the section, the second continues there, and
    together they return the bytes, the count and the buffer of a single
    read. *)
Theorem read_twice_is_one_read (mem : ptr -> Byte.byte) (s : pt_section)
    (mapping : pt_sec_windows_mapping) (buf : list Byte.byte)
    (size1 size2 offset : Z) :
  sec_mapping s = Some mapping ->
  0 <= map_begin mapping ->
  0 <= offset ->
  0 <= size1 -> 0 <= size2 -> size1 + size2 < 2 ^ 16 ->
  map_begin mapping + offset + size1 < map_end mapping ->
  map_end mapping + size2 < 2 ^ 64 ->
  exists n2 buf',
    read_twice mem (Some s) buf size1 size2 offset = (size1, n2, buf')
    /\ 0 <= n2 <= size2
    /\ pt_sec_windows_read mem (Some s) (Some buf) (size1 + size2) offset
       = (size1 + n2, Some buf').
Proof.
  intros Hmap Hb Hoffset Hs1 Hs2 Hsum Hin Htop.
  set (len := map_end mapping - map_begin mapping) in *.
  unfold read_twice.
  rewrite (pt_sec_windows_read_inside mem s mapping buf size1 offset)
    by (try assumption; lia).
  fold len. rewrite (Z.min_l size1 (len - offset)) by (unfold len; lia).
  destruct (Z.ltb_spec size1 0) as [| _]; [lia |].
  rewrite drop_app_length'
    by (rewrite mem_bytes_length; reflexivity).
  rewrite (pt_sec_windows_read_inside mem s mapping _ size2
             (offset + size1)) by (try assumption; lia).
  fold len.
  set (n2 := Z.min size2 (len - (offset + size1))).
  exists n2. eexists. split; [reflexivity |].
  split; [unfold n2, len; lia |].
  rewrite (pt_sec_windows_read_inside mem s mapping buf (size1 + size2)
             offset) by (try assumption; lia).
  fold len.
  replace (Z.min (size1 + size2) (len - offset)) with (size1 + n2)
    by (unfold n2; lia).
  f_equal. f_equal.
  rewrite take_app_length' by (rewrite mem_bytes_length; reflexivity).
  rewrite mem_bytes_app by (unfold n2, len; lia).
  rewrite <- app_assoc. do 2 f_equal.
  - f_equal. lia.
  - rewrite drop_drop. f_equal. unfold n2, len. lia.
Qed.

(** ** The packet types of the header *)

(** X26: the sixteen packet types are pairwise different; the types of the
    packets with a two-byte opcode carry [pt_opc_ext] above the extension
    code, those with a one-byte opcode fit in a byte; and a packet with
    an IP payload is one opcode byte and twice as many payload bytes as
    its compression code says. *)
Theorem pt_packet_types_distinct :
  NoDup pt_packet_types
  /\ Forall (fun t => Z.shiftr t 8 = pt_opc_ext)
       [ppt_psb; ppt_tnt_64; ppt_pip; ppt_ovf; ppt_psbend; ppt_cbr]
  /\ map (fun t => Z.land t 0xff)
       [ppt_psb; ppt_tnt_64; ppt_pip; ppt_ovf; ppt_psbend; ppt_cbr]
     = [pt_ext_psb; pt_ext_tnt_64; pt_ext_pip; pt_ext_ovf; pt_ext_psbend;
        pt_ext_cbr]
  /\ Forall (fun t => 0 <= t < 2 ^ 8)
       [ppt_pad; ppt_tip; ppt_tnt_8; ppt_tip_pge; ppt_tip_pgd; ppt_fup;
        ppt_mode; ppt_tsc]
  /\ Forall (fun sizes =>
               sizes = map (fun ipc => 1 + 2 * ipc)
                         [pt_ipc_suppressed; pt_ipc_update_16;
                          pt_ipc_update_32; pt_ipc_sext_48])
       [[ptps_tip_supp; ptps_tip_upd16; ptps_tip_upd32; ptps_tip_sext48];
        [ptps_tip_pge_supp; ptps_tip_pge_upd16; ptps_tip_pge_upd32;
         ptps_tip_pge_sext48];
        [ptps_tip_pgd_supp; ptps_tip_pgd_upd16; ptps_tip_pgd_upd32;
         ptps_tip_pgd_sext48];
        [ptps_fup_supp; ptps_fup_upd16; ptps_fup_upd32; ptps_fup_sext48]].
Proof.
  split.
  { assert (H : bool_decide (NoDup pt_packet_types))
      by (vm_compute; exact I).
    exact (bool_decide_unpack _ H). }
  split; [repeat constructor |].
  split; [reflexivity |].
  split; [repeat constructor; vm_compute; congruence |].
  repeat constructor.
Qed.

(** ** Decoding a return value *)

(** X27: [pt_errcode] turns a return value into an error code: [pte_ok] for
    exactly the values that are not negative, the code itself for the
    negated code a function returns; decoding a decoded value again
    changes nothing. *)
Theorem pt_errcode_decodes (status : Z) :
  pt_errcode status = Z.max 0 (- status)
  /\ (pt_errcode status = pte_ok <-> 0 <= status)
  /\ pt_errcode (- pt_errcode status) = pt_errcode status
  /\ pt_errcode (pt_errcode status) = pte_ok.
Proof.
  unfold pt_errcode, pte_ok.
  destruct (Z.leb_spec 0 status) as [Hs | Hs].
  - repeat split; try lia; reflexivity.
  - destruct (Z.leb_spec 0 (- - status)) as [| _]; [lia |].
    destruct (Z.leb_spec 0 (- status)) as [_ |]; [| lia].
    repeat split; lia.
Qed.

(** ** The further theorems at work on the examples *)

Lemma example_decoder_waiting_ok : decoder_ok 3 8 example_decoder_waiting.
Proof.
  split; [split; [| split; [| split]] |]; try reflexivity.
  - intros [| [| [| evb]]] H; try lia; vm_compute; repeat split; congruence.
  - intros [| [| [| evb]]] H; try lia; vm_compute; congruence.
Defined.




Lemma decoder_offsets_agree_example :
  0 < cfg_begin (config example_decoder_moved)
  /\ cfg_begin (config example_decoder_moved) <= sync example_decoder_moved
  /\ sync example_decoder_moved <= pos example_decoder_moved
  /\ pos example_decoder_moved <= cfg_end (config example_decoder_moved)
  /\ cfg_end (config example_decoder_moved) < 2 ^ 64
  /\ pt_get_decoder_pos (Some example_decoder_moved) = 0x30
  /\ pt_get_decoder_sync (Some example_decoder_moved) = 0x10
  /\ pt_get_decoder_raw (Some example_decoder_moved)
     = pt_get_decoder_begin (Some example_decoder_moved)
       + pt_get_decoder_pos (Some example_decoder_moved)
  /\ sync example_decoder_moved
     = pt_get_decoder_begin (Some example_decoder_moved)
       + pt_get_decoder_sync (Some example_decoder_moved).
Proof.
  assert (H1 : 0 < cfg_begin (config example_decoder_moved))
    by (simpl; lia).
  assert (H2 : cfg_begin (config example_decoder_moved)
               <= sync example_decoder_moved) by (simpl; lia).
  assert (H3 : sync example_decoder_moved <= pos example_decoder_moved)
    by (simpl; lia).
  assert (H4 : pos example_decoder_moved
               <= cfg_end (config example_decoder_moved)) by (simpl; lia).
  assert (H5 : cfg_end (config example_decoder_moved) < 2 ^ 64)
    by (simpl; lia).
  destruct (decoder_offsets_agree example_decoder_moved H1 H2 H3 H4 H5)
    as (Hraw & Hsync & _).
  split; [exact H1 |]. split; [exact H2 |]. split; [exact H3 |].
  split; [exact H4 |]. split; [exact H5 |].
  split; [reflexivity |]. split; [reflexivity |].
  split; [exact Hraw | exact Hsync].
Defined.

Lemma pt_queue_inc_walks_example :
  2 <= 8 <= 256
  /\ 0 <= 5 < 8
  /\ Nat.iter 11 (pt_queue_inc 8) 5 = 0
  /\ Nat.iter 16 (pt_queue_inc 8) 5 = 5.
Proof.
  assert (H1 : 2 <= 8 <= 256) by lia.
  assert (H2 : 0 <= 5 < 8) by lia.
  destruct (pt_queue_inc_walks 8 H1 5 11 H2) as (Hwalk & _).
  destruct (pt_queue_inc_walks 8 H1 5 16 H2) as (_ & _ & Hback).
  split; [exact H1 |]. split; [exact H2 |].
  split; [exact Hwalk |]. apply Hback. reflexivity.
Defined.

Lemma pt_event_pending_agrees_example :
  2 <= 8 <= 256
  /\ decoder_wf 3 8 example_decoder_waiting
  /\ (0 < 3)%nat
  /\ pt_event_pending 3 8 (Some example_decoder_waiting) 0 = 1
  /\ fst (pt_dequeue_event 3 8 (Some example_decoder_waiting) 0)
     = Some (0%nat, ev_begin example_decoder_waiting !!! 0%nat)
  /\ (pt_event_pending 3 8 (Some example_decoder_waiting) 2 = 0
      <-> fst (pt_dequeue_event 3 8 (Some example_decoder_waiting) 2)
          = None).
Proof.
  assert (H1 : 2 <= 8 <= 256) by lia.
  assert (H2 : decoder_wf 3 8 example_decoder_waiting)
    by apply example_decoder_waiting_ok.
  assert (H3 : (0 < 3)%nat) by lia.
  assert (H4 : (2 < 3)%nat) by lia.
  destruct (pt_event_pending_agrees 3 8 H1 example_decoder_waiting 0 H2 H3)
    as (Heq & _ & Hone).
  destruct (pt_event_pending_agrees 3 8 H1 example_decoder_waiting 2 H2 H4)
    as (_ & Hzero & _).
  split; [exact H1 |]. split; [exact H2 |]. split; [exact H3 |].
  split; [exact Heq |]. split; [apply Hone; exact Heq | exact Hzero].
Defined.

Lemma pt_discard_events_resets_example :
  2 <= 8 <= 256
  /\ length (ev_begin example_decoder_waiting) = 3%nat
  /\ length (ev_end example_decoder_waiting) = 3%nat
  /\ (0 < 3)%nat
  /\ queue_count 8 example_decoder_waiting 0 = 3
  /\ exists d',
      pt_discard_events 3 (Some example_decoder_waiting) 0 = Some d'
      /\ queue_events 8 d' 0 = []
      /\ ev_end d' !!! 1%nat = ev_end example_decoder_waiting !!! 1%nat
      /\ pt_event_pending 3 8 (Some d') 0 = 0
      /\ fst (pt_dequeue_event 3 8 (Some d') 0) = None
      /\ fst (pt_enqueue_event 3 8 (Some d') 0) = Some (0%nat, 0).
Proof.
  assert (H1 : 2 <= 8 <= 256) by lia.
  assert (H2 : length (ev_begin example_decoder_waiting) = 3%nat)
    by reflexivity.
  assert (H3 : length (ev_end example_decoder_waiting) = 3%nat)
    by reflexivity.
  assert (H4 : (0 < 3)%nat) by lia.
  destruct (pt_discard_events_resets 3 8 H1 example_decoder_waiting 0
              H2 H3 H4)
    as (d' & Hd & _ & _ & Hother & _ & _ & _ & _ & Hev & Hp & Hdq & _
        & Henq).
  split; [exact H1 |]. split; [exact H2 |]. split; [exact H3 |].
  split; [exact H4 |]. split; [reflexivity |].
  exists d'. split; [exact Hd |]. split; [exact Hev |].
  split; [apply (Hother 1%nat); discriminate |].
  split; [exact Hp |]. split; [exact Hdq |]. apply Henq. lia.
Defined.

Lemma queue_functions_refuse_bad_index_example :
  ((3 <= 3)%nat
   \/ 8 <= ev_begin example_decoder_waiting !!! 3%nat
   \/ 8 <= ev_end example_decoder_waiting !!! 3%nat)
  /\ pt_enqueue_event 3 8 (Some example_decoder_waiting) 3
     = (None, Some example_decoder_waiting)
  /\ pt_dequeue_event 3 8 (Some example_decoder_waiting) 3
     = (None, Some example_decoder_waiting)
  /\ pt_find_event 3 8 (Some example_decoder_waiting) ptev_overflow 3 = None
  /\ pt_event_pending 3 8 (Some example_decoder_waiting) 3 = - pte_internal.
Proof.
  assert (H1 : (3 <= 3)%nat
               \/ 8 <= ev_begin example_decoder_waiting !!! 3%nat
               \/ 8 <= ev_end example_decoder_waiting !!! 3%nat)
    by (left; lia).
  split; [exact H1 |].
  exact (queue_functions_refuse_bad_index 3 8 example_decoder_waiting 3
           ptev_overflow H1).
Defined.

Lemma enqueue_n_capacity_example :
  2 <= 8 <= 256
  /\ decoder_ok 3 8 example_decoder
  /\ (0 < 3)%nat
  /\ queue_count 8 example_decoder 0 + Z.of_nat 6 <= 8 - 2
  /\ exists d',
      enqueue_n 3 8 (Some example_decoder) 0 6 = Some d'
      /\ decoder_ok 3 8 d'
      /\ queue_count 8 d' 0 = 6
      /\ fst (pt_enqueue_event 3 8 (Some d') 0) = None.
Proof.
  assert (H1 : 2 <= 8 <= 256) by lia.
  assert (H2 : (0 < 3)%nat) by lia.
  assert (H3 : queue_count 8 example_decoder 0 + Z.of_nat 6 <= 8 - 2)
    by (vm_compute; congruence).
  destruct (enqueue_n_capacity 3 8 H1 example_decoder 0 6
              example_decoder_ok H2 H3)
    as (d' & Hrun & Hok & Hcount & _ & Hfull).
  split; [exact H1 |]. split; [exact example_decoder_ok |].
  split; [exact H2 |]. split; [exact H3 |].
  exists d'. split; [exact Hrun |]. split; [exact Hok |].
  split; [exact Hcount |]. apply Hfull. reflexivity.
Defined.

Lemma last_dequeued_survives_example :
  2 <= 8 <= 256
  /\ decoder_ok 3 8 example_decoder_waiting
  /\ (0 < 3)%nat
  /\ pt_dequeue_event 3 8 (Some example_decoder_waiting) 0
     = (Some (0%nat, 0), Some (set_ev_begin example_decoder_waiting 0 1))
  /\ exists d',
      enqueue_all 3 8 (Some (set_ev_begin example_decoder_waiting 0 1))
        (example_events ++ example_events ++ example_events) = Some d'
      /\ decoder_ok 3 8 d'
      /\ ev_load d' (0%nat, 0) = example_event_of ptev_enabled 0x1000.
Proof.
  assert (H1 : 2 <= 8 <= 256) by lia.
  assert (H2 : (0 < 3)%nat) by lia.
  assert (H3 : pt_dequeue_event 3 8 (Some example_decoder_waiting) 0
               = (Some (0%nat, 0),
                  Some (set_ev_begin example_decoder_waiting 0 1)))
    by reflexivity.
  split; [exact H1 |]. split; [exact example_decoder_waiting_ok |].
  split; [exact H2 |]. split; [exact H3 |].
  exact (last_dequeued_survives 3 8 H1 example_decoder_waiting _ 0
           (0%nat, 0) (example_events ++ example_events ++ example_events)
           example_decoder_waiting_ok H2 H3).
Defined.

Lemma pt_find_event_finds_first_example :
  2 <= 8 <= 256
  /\ decoder_wf 3 8 example_decoder_waiting
  /\ (0 < 3)%nat
  /\ ev_load example_decoder_waiting
       <$> pt_find_event 3 8 (Some example_decoder_waiting) ptev_overflow 0
     = Some (example_event 0x2000)
  /\ pt_find_event 3 8 (Some example_decoder_waiting) ptev_overflow 0
     = Some (0%nat, 1)
  /\ pt_find_event 3 8 (Some example_decoder_waiting) ptev_disabled 0
     = None.
Proof.
  assert (H1 : 2 <= 8 <= 256) by lia.
  assert (H2 : decoder_wf 3 8 example_decoder_waiting)
    by apply example_decoder_waiting_ok.
  assert (H3 : (0 < 3)%nat) by lia.
  destruct (pt_find_event_finds_first 3 8 H1 example_decoder_waiting
              ptev_overflow 0 H2 H3) as [Hfirst _].
  split; [exact H1 |]. split; [exact H2 |]. split; [exact H3 |].
  split; [exact Hfirst |]. split; reflexivity.
Defined.

Lemma pt_alloc_decoder_in_order_example :
  2 <= 8 <= 256
  /\ pt_alloc_decoder unit unit (fun ip => ip) (fun tnt => tnt) 0x70 3 8
       (Some (tt, tt)) (Some example_config_arg)
     = Some (example_decoder, example_rest None 0 None 0)
  /\ decoder_ok 3 8 example_decoder
  /\ (forall evb, queue_events 8 example_decoder evb = [])
  /\ pt_status_flags unit unit 3 8 1 2 4 8 0 1 2
       (Some (example_decoder, example_rest None 0 None 0)) = 0
  /\ pt_alloc_decoder unit unit (fun ip => ip) (fun tnt => tnt) 0x70 3 8
       (Some (tt, tt))
       (Some {| cfg_size := 0x68; cfg_buffer := example_config |})
     = None.
Proof.
  assert (H1 : 2 <= 8 <= 256) by lia.
  assert (H2 : pt_alloc_decoder unit unit (fun ip => ip) (fun tnt => tnt)
                 0x70 3 8 (Some (tt, tt)) (Some example_config_arg)
               = Some (example_decoder, example_rest None 0 None 0))
    by reflexivity.
  destruct (pt_alloc_decoder_in_order unit unit (fun ip => ip)
              (fun tnt => tnt) 0x70 3 8 1 2 4 8 0 1 2 H1
              (Some (tt, tt)) (Some example_config_arg)) as [_ Hok].
  destruct (Hok _ _ H2) as (Hd & Hempty & _ & _ & _ & _ & _ & Hflags).
  split; [exact H1 |]. split; [exact H2 |]. split; [exact Hd |].
  split; [exact Hempty |]. split; [exact Hflags | reflexivity].
Defined.

Lemma pt_reset_discards_all_example :
  2 <= 8 <= 256
  /\ length (ev_begin example_decoder_waiting) = 3%nat
  /\ length (ev_end example_decoder_waiting) = 3%nat
  /\ pt_event_pending 3 8 (Some example_decoder_waiting) 0 = 1
  /\ exists d' r',
      pt_reset unit unit (fun ip => ip) (fun tnt => tnt) 3
        (Some (example_decoder_waiting,
               example_rest None 1 (Some (0%nat, 0)) 77))
      = Some (d', r')
      /\ pt_event_pending 3 8 (Some d') 0 = 0
      /\ queue_events 8 d' 1 = []
      /\ ev_pend d' = ev_pend example_decoder_waiting
      /\ dec_flags r' = 0 /\ dec_event r' = None /\ dec_tsc r' = 0.
Proof.
  assert (H1 : 2 <= 8 <= 256) by lia.
  assert (H2 : length (ev_begin example_decoder_waiting) = 3%nat)
    by reflexivity.
  assert (H3 : length (ev_end example_decoder_waiting) = 3%nat)
    by reflexivity.
  destruct (pt_reset_discards_all unit unit (fun ip => ip) (fun tnt => tnt)
              3 8 H1 example_decoder_waiting
              (example_rest None 1 (Some (0%nat, 0)) 77) H2 H3)
    as (d' & r' & Hrun & Hall & Hpend & _ & _ & _ & Hflags & Hevent & Htsc
        & _).
  destruct (Hall 0%nat ltac:(lia)) as (_ & _ & _ & Hp0 & _).
  destruct (Hall 1%nat ltac:(lia)) as (_ & _ & Hq1 & _).
  split; [exact H1 |]. split; [exact H2 |]. split; [exact H3 |].
  split; [reflexivity |].
  exists d', r'. split; [exact Hrun |]. split; [exact Hp0 |].
  split; [exact Hq1 |]. split; [exact Hpend |].
  split; [exact Hflags |]. split; [exact Hevent | exact Htsc].
Defined.

Lemma pt_status_flags_pending_example :
  2 <= 8 <= 256
  /\ decoder_wf 3 8 example_decoder_waiting
  /\ (0 < 3)%nat /\ (1 < 3)%nat /\ (2 < 3)%nat
  /\ pt_status_flags unit unit 3 8 1 2 4 8 0 1 2
       (Some (example_decoder_waiting,
              example_rest (Some {| dfun_flags := 2 |}) 0 None 0))
     = pts_event_pending
  /\ pt_status_flags unit unit 3 8 1 2 4 8 0 1 2
       (Some (example_decoder_waiting,
              example_rest (Some {| dfun_flags := 8 |}) 0 None 0))
     = 0.
Proof.
  assert (H1 : 2 <= 8 <= 256) by lia.
  assert (H2 : decoder_wf 3 8 example_decoder_waiting)
    by apply example_decoder_waiting_ok.
  assert (H3 : (0 < 3)%nat) by lia.
  assert (H4 : (1 < 3)%nat) by lia.
  assert (H5 : (2 < 3)%nat) by lia.
  destruct (pt_status_flags_pending unit unit 3 8 1 2 4 8 0 1 2 H1
              example_decoder_waiting
              (example_rest (Some {| dfun_flags := 2 |}) 0 None 0)
              H2 H3 H4 H5) as [_ Hiff].
  split; [exact H1 |]. split; [exact H2 |]. split; [exact H3 |].
  split; [exact H4 |]. split; [exact H5 |].
  split; [| reflexivity].
  apply Hiff. exists {| dfun_flags := 2 |}. split; [reflexivity |].
  right. left. split; vm_compute; congruence.
Defined.

Lemma pt_section_mk_status_outcomes_example :
  pt_section_mk_status example_env true true (Some "a.out"%string)
  = (0, Some {| status_stat := example_stat |}, Some 8192,
     [call_open "a.out"; call_fstat 3; call_close 3; call_malloc])
  /\ os_open example_env <> -1
  /\ In (call_close (os_open example_env))
       [call_open "a.out"; call_fstat 3; call_close 3; call_malloc].
Proof.
  assert (H1 : pt_section_mk_status example_env true true
                 (Some "a.out"%string)
               = (0, Some {| status_stat := example_stat |}, Some 8192,
                  [call_open "a.out"; call_fstat 3; call_close 3;
                   call_malloc])) by reflexivity.
  assert (H2 : os_open example_env <> -1) by discriminate.
  destruct (pt_section_mk_status_outcomes example_env true true _ _ _ _ _
              H1) as [_ Hclose].
  split; [exact H1 |]. split; [exact H2 |].
  apply (Hclose "a.out"%string); [left; reflexivity | exact H2].
Defined.

Lemma pt_sec_windows_map_covers_section_example :
  0 < os_granularity example_env
  /\ 0 <= sec_offset example_section < 2 ^ 64
  /\ 0 <= sec_size example_section
  /\ 0 <= os_map_view_of_file example_env
  /\ os_map_view_of_file example_env
     + sec_offset example_section mod os_granularity example_env
     + sec_size example_section < 2 ^ 64
  /\ pt_sec_windows_map example_env (Some example_section) 3
     = (0, Some (example_section_mapped 0), example_map_calls)
  /\ exists mapping offset_high offset_low,
      sec_mapping (example_section_mapped 0) = Some mapping
      /\ map_begin mapping = map_base mapping + 0x1234
      /\ map_end mapping = map_begin mapping + 0x100
      /\ In (call_map_view_of_file (map_mh mapping) offset_high offset_low
               (0x1234 + 0x100)) example_map_calls
      /\ offset_high * 2 ^ 32 + offset_low = 0x1234 - 0x1234.
Proof.
  assert (H1 : 0 < os_granularity example_env) by (simpl; lia).
  assert (H2 : 0 <= sec_offset example_section < 2 ^ 64) by (simpl; lia).
  assert (H3 : 0 <= sec_size example_section) by (simpl; lia).
  assert (H4 : 0 <= os_map_view_of_file example_env) by (simpl; lia).
  assert (H5 : os_map_view_of_file example_env
               + sec_offset example_section mod os_granularity example_env
               + sec_size example_section < 2 ^ 64)
    by (vm_compute; reflexivity).
  assert (H6 : pt_sec_windows_map example_env (Some example_section) 3
               = (0, Some (example_section_mapped 0), example_map_calls))
    by reflexivity.
  pose proof (pt_sec_windows_map_covers_section example_env example_section
                _ 3 _ H1 H2 H3 H4 H5 H6) as Hcover.
  cbv zeta in Hcover.
  destruct Hcover
    as (mapping & hi & lo & Hm & _ & _ & _ & _ & _ & Hb & He & Hin & Hoff
        & _).
  split; [exact H1 |]. split; [exact H2 |]. split; [exact H3 |].
  split; [exact H4 |]. split; [exact H5 |]. split; [exact H6 |].
  exists mapping, hi, lo. split; [exact Hm |]. split; [exact Hb |].
  split; [exact He |]. split; [exact Hin | exact Hoff].
Defined.

Lemma pt_sec_windows_map_failure_releases_example :
  pt_sec_windows_map example_env_no_view (Some example_section) 3
  = (- pte_bad_image, Some example_section,
     [call_get_system_info; call_get_osfhandle 3;
      call_create_file_mapping 0x44;
      call_map_view_of_file 0x48 0 0 0x1334; call_close_handle 0x48])
  /\ - pte_bad_image <> 0
  /\ Some example_section = Some example_section
  /\ (- pte_bad_image = - pte_internal
      \/ - pte_bad_image = - pte_bad_image)
  /\ In (call_close_handle (os_create_file_mapping example_env_no_view))
       [call_get_system_info; call_get_osfhandle 3;
        call_create_file_mapping 0x44;
        call_map_view_of_file 0x48 0 0 0x1334; call_close_handle 0x48].
Proof.
  assert (H1 : pt_sec_windows_map example_env_no_view
                 (Some example_section) 3
               = (- pte_bad_image, Some example_section,
                  [call_get_system_info; call_get_osfhandle 3;
                   call_create_file_mapping 0x44;
                   call_map_view_of_file 0x48 0 0 0x1334;
                   call_close_handle 0x48])) by reflexivity.
  assert (H2 : - pte_bad_image <> 0) by discriminate.
  destruct (pt_sec_windows_map_failure_releases example_env_no_view
              example_section 3 _ _ _ H1 H2)
    as (Hsame & Herr & Hclose & _).
  split; [exact H1 |]. split; [exact H2 |]. split; [exact Hsame |].
  split; [exact Herr |].
  apply Hclose; [do 2 right; left; reflexivity | discriminate].
Defined.

Lemma pt_sec_windows_unmap_undoes_map_example :
  sec_mapping example_section = None
  /\ sec_unmap example_section = None
  /\ sec_read example_section = None
  /\ pt_sec_windows_map example_env (Some example_section) 3
     = (0, Some (example_section_mapped 0), example_map_calls)
  /\ pt_sec_windows_unmap (Some (example_section_mapped 0))
     = (0, Some example_section,
        [call_unmap_view_of_file
           (ptr_add (os_map_view_of_file example_env)
              (sec_offset example_section mod os_granularity example_env));
         call_close_handle (os_create_file_mapping example_env);
         call_close 3;
         call_free])
  /\ pt_sec_windows_unmap (Some example_section)
     = (- pte_internal, Some example_section, []).
Proof.
  assert (H1 : pt_sec_windows_map example_env (Some example_section) 3
               = (0, Some (example_section_mapped 0), example_map_calls))
    by reflexivity.
  split; [reflexivity |]. split; [reflexivity |]. split; [reflexivity |].
  split; [exact H1 |].
  exact (pt_sec_windows_unmap_undoes_map example_env example_section _ 3 _
           eq_refl eq_refl eq_refl H1).
Defined.

Lemma pt_section_map_failure_keeps_section_example :
  0 <= os_unlock example_env_no_view
  /\ (forall s0 file,
        fst (os_sec_file_map example_env_no_view s0 file) <> 0 ->
        snd (os_sec_file_map example_env_no_view s0 file) = s0)
  /\ - pte_bad_image < 0
  /\ exists section',
      pt_section_map example_env_no_view (Some example_section)
      = (- pte_bad_image, section',
         [call_section_lock; call_create_file "a.out" FILE_SHARE_READ;
          call_open_osfhandle 0x44; call_fstat 3]
         ++ [call_get_system_info; call_get_osfhandle 3;
             call_create_file_mapping 0x44;
             call_map_view_of_file 0x48 0 0 0x1334; call_close_handle 0x48]
         ++ [call_fdopen 3; call_close 3])
      /\ section' = Some example_section.
Proof.
  assert (H1 : 0 <= os_unlock example_env_no_view) by (simpl; lia).
  assert (H2 : forall s0 file,
             fst (os_sec_file_map example_env_no_view s0 file) <> 0 ->
             snd (os_sec_file_map example_env_no_view s0 file) = s0)
    by (intros s0 file _; reflexivity).
  assert (H3 : - pte_bad_image < 0) by reflexivity.
  assert (H4 : pt_section_map example_env_no_view (Some example_section)
               = (- pte_bad_image,
                  snd (fst (pt_section_map example_env_no_view
                              (Some example_section))),
                  [call_section_lock;
                   call_create_file "a.out" FILE_SHARE_READ;
                   call_open_osfhandle 0x44; call_fstat 3]
                  ++ [call_get_system_info; call_get_osfhandle 3;
                      call_create_file_mapping 0x44;
                      call_map_view_of_file 0x48 0 0 0x1334;
                      call_close_handle 0x48]
                  ++ [call_fdopen 3; call_close 3])) by reflexivity.
  split; [exact H1 |]. split; [exact H2 |]. split; [exact H3 |].
  eexists. split; [exact H4 |].
  exact (pt_section_map_failure_keeps_section example_env_no_view
           example_section _ _ _ H1 H2 H4 H3).
Defined.


Lemma pt_section_map_first_maps_example :
  0 <= os_lock example_env
  /\ sec_mcount example_section = 0
  /\ sec_mapping example_section = None
  /\ os_open_osfhandle example_env <> -1
  /\ os_fstat example_env = Some example_stat
  /\ pt_sec_windows_map example_env (Some example_section)
       (os_open_osfhandle example_env)
     = (0, Some (example_section_mapped 0), example_map_calls)
  /\ exists fh opens,
      pt_section_map example_env (Some example_section)
      = (os_unlock example_env, Some (example_section_mapped 1),
         [call_section_lock] ++ opens
         ++ [call_open_osfhandle fh;
             call_fstat (os_open_osfhandle example_env)]
         ++ example_map_calls ++ [call_section_unlock])
      /\ fh <> INVALID_HANDLE_VALUE
      /\ ~ In (call_close (os_open_osfhandle example_env))
            (opens ++ example_map_calls)
      /\ ~ In (call_close_handle fh) (opens ++ example_map_calls).
Proof.
  assert (H1 : 0 <= os_lock example_env) by (simpl; lia).
  assert (H2 : os_create_file_read example_env <> INVALID_HANDLE_VALUE
               \/ os_create_file_write example_env <> INVALID_HANDLE_VALUE)
    by (left; discriminate).
  assert (H3 : os_open_osfhandle example_env <> -1) by discriminate.
  assert (H4 : pt_sec_windows_map example_env (Some example_section)
                 (os_open_osfhandle example_env)
               = (0, Some (example_section_mapped 0), example_map_calls))
    by reflexivity.
  destruct (pt_section_map_first_maps example_env example_section
              (example_section_mapped 0) "a.out"
              {| status_stat := example_stat |} example_stat
              example_map_calls H1 eq_refl eq_refl eq_refl eq_refl H2 H3
              eq_refl eq_refl eq_refl H4)
    as (fh & opens & Hmap & Hfh & _ & _ & _ & _ & _ & Hfd & Hh).
  split; [exact H1 |]. split; [reflexivity |]. split; [reflexivity |].
  split; [exact H3 |]. split; [reflexivity |]. split; [exact H4 |].
  exists fh, opens. split; [exact Hmap |]. split; [exact Hfh |].
  split; [exact Hfd | exact Hh].
Defined.

Lemma pt_section_map_n_counts_example :
  0 <= os_lock example_env
  /\ os_unlock example_env = 0
  /\ 1 <= sec_mcount (example_section_mapped 1)
  /\ sec_mcount (example_section_mapped 1) + Z.of_nat 3 <= 65535
  /\ exists s',
      pt_section_map_n example_env 3 (Some (example_section_mapped 1))
      = (0, Some s',
         concat (replicate 3 [call_section_lock; call_section_unlock]))
      /\ sec_mcount s' = 4
      /\ sec_mapping s' = Some example_mapping.
Proof.
  assert (H1 : 0 <= os_lock example_env) by (simpl; lia).
  assert (H2 : os_unlock example_env = 0) by reflexivity.
  assert (H3 : 1 <= sec_mcount (example_section_mapped 1))
    by (simpl; lia).
  assert (H4 : sec_mcount (example_section_mapped 1) + Z.of_nat 3 <= 65535)
    by (simpl; lia).
  destruct (pt_section_map_n_counts example_env 3
              (example_section_mapped 1) H1 H2 H3 H4)
    as (s' & Hrun & Hcount & Hmapping & _).
  split; [exact H1 |]. split; [exact H2 |]. split; [exact H3 |].
  split; [exact H4 |].
  exists s'. split; [exact Hrun |]. split; [exact Hcount | exact Hmapping].
Defined.

Lemma pt_sec_windows_read_outcomes_example :
  sec_mapping (example_section_mapped 1) = Some example_mapping
  /\ 0 <= map_begin example_mapping <= map_end example_mapping
  /\ map_end example_mapping < 2 ^ 64
  /\ 0 <= 16 < 2 ^ 16
  /\ 0 <= 0xf8 < 2 ^ 64
  /\ (pt_sec_windows_read example_mem (Some (example_section_mapped 1))
        (Some (repeat Byte.xff 16)) 16 0xf8
      = (- pte_nomap, Some (repeat Byte.xff 16))
      \/ exists n,
          pt_sec_windows_read example_mem (Some (example_section_mapped 1))
            (Some (repeat Byte.xff 16)) 16 0xf8
          = (n, Some (mem_bytes example_mem
                        (map_begin example_mapping + 0xf8) n
                      ++ drop (Z.to_nat n) (repeat Byte.xff 16)))
          /\ 0 <= n <= 16
          /\ (0 < 16 -> 0 < n)
          /\ map_begin example_mapping + 0xf8 + n
             <= map_end example_mapping
          /\ 0xf8 < map_end example_mapping - map_begin example_mapping).
Proof.
  assert (H1 : sec_mapping (example_section_mapped 1) = Some example_mapping)
    by reflexivity.
  assert (H2 : 0 <= map_begin example_mapping <= map_end example_mapping)
    by (simpl; lia).
  assert (H3 : map_end example_mapping < 2 ^ 64) by (simpl; lia).
  assert (H4 : 0 <= 16 < 2 ^ 16) by lia.
  assert (H5 : 0 <= 0xf8 < 2 ^ 64) by lia.
  split; [exact H1 |]. split; [exact H2 |]. split; [exact H3 |].
  split; [exact H4 |]. split; [exact H5 |].
  exact (pt_sec_windows_read_outcomes example_mem
           (example_section_mapped 1) example_mapping
           (repeat Byte.xff 16) 16 0xf8 H1 H2 H3 H4 H5).
Defined.

Lemma read_twice_is_one_read_example :
  sec_mapping (example_section_mapped 1) = Some example_mapping
  /\ 0 <= map_begin example_mapping
  /\ 4 + 12 < 2 ^ 16
  /\ map_begin example_mapping + 0xf8 + 4 < map_end example_mapping
  /\ map_end example_mapping + 12 < 2 ^ 64
  /\ read_twice example_mem (Some (example_section_mapped 1))
       (repeat Byte.xff 16) 4 12 0xf8
     = (4, 4,
        [Byte.x2c; Byte.x2d; Byte.x2e; Byte.x2f;
         Byte.x30; Byte.x31; Byte.x32; Byte.x33] ++ repeat Byte.xff 8)
  /\ exists n2 buf',
      read_twice example_mem (Some (example_section_mapped 1))
        (repeat Byte.xff 16) 4 12 0xf8 = (4, n2, buf')
      /\ 0 <= n2 <= 12
      /\ pt_sec_windows_read example_mem (Some (example_section_mapped 1))
           (Some (repeat Byte.xff 16)) (4 + 12) 0xf8
         = (4 + n2, Some buf').
Proof.
  assert (H1 : sec_mapping (example_section_mapped 1) = Some example_mapping)
    by reflexivity.
  assert (H2 : 0 <= map_begin example_mapping) by (simpl; lia).
  assert (H3 : 4 + 12 < 2 ^ 16) by lia.
  assert (H4 : map_begin example_mapping + 0xf8 + 4
               < map_end example_mapping) by (simpl; lia).
  assert (H5 : map_end example_mapping + 12 < 2 ^ 64) by (simpl; lia).
  split; [exact H1 |]. split; [exact H2 |]. split; [exact H3 |].
  split; [exact H4 |]. split; [exact H5 |]. split; [reflexivity |].
  exact (read_twice_is_one_read example_mem (example_section_mapped 1)
           example_mapping (repeat Byte.xff 16) 4 12 0xf8 H1 H2
           ltac:(lia) ltac:(lia) ltac:(lia) H3 H4 H5).
Defined.
